(** * Admission control of the subscription tracker

    A shallow embedding of the rate limiting subsystem:
    - [models/rateLimitLog.model.js]: the [RateLimitLog] documents and their
      methods [isWindowExpired] and [resetWindow];
    - [middlewares/rateLimiter.middleware.js]: [createRateLimiter];
    - [controllers/rateLimit.controller.js]: [getUserRateLimit] and
      [getAllRateLimitStats].

    Timestamps are milliseconds since the epoch ([Date.now()], [getTime()]) and
    counters are JavaScript numbers holding integers; both are [Z].  The
    handlers are [async] functions: they are embedded as programs over the
    operations they perform on the outside world (the clock, the collection,
    the console), so that one embedding can be run to completion and also
    interleaved with other requests at its [await] points. *)

From Stdlib Require Import ZArith Ascii String List Lia.
From stdpp Require Import base list sorting strings.
Import ListNotations.

Local Open Scope string_scope.
Local Open Scope list_scope.
Local Open Scope Z_scope.

(** ** Documents of the [RateLimitLog] collection *)

(** A stored document.  [_id] stands for the ObjectId MongoDB assigns on
    insertion; the schema's [timestamps] fields are read by none of the code
    below and are left out. *)
Record doc := Doc {
  _id : nat;
  identifier : string;
  count : Z;
  lastRequest : Z;
  windowStart : Z
}.

(** The paths of a document the code assigns to. *)
Inductive path := p_count | p_lastRequest | p_windowStart.

(** A Mongoose document held by a handler: the field values it sees and the
    paths assigned since it was loaded, which are what [save()] sends.
    Every assignment is recorded here; Mongoose records an assignment only
    when it changes the value of the path ([assign_count] and the like
    below).  The two agree on what [save()] stores as long as the stored
    document is the one the handler loaded; they differ only when a handler
    assigns to a path the value it loaded while another handler has stored a
    different one in between, which no handler does in the runs that are
    interleaved below. *)
Record document := Document {
  fields : doc;
  modifiedPaths : list path
}.

Definition loaded (d : doc) : document := Document d [].

Definition set_count (v : Z) (r : document) : document :=
  let d := fields r in
  Document (Doc (_id d) (identifier d) v (lastRequest d) (windowStart d))
           (p_count :: modifiedPaths r).

Definition set_lastRequest (v : Z) (r : document) : document :=
  let d := fields r in
  Document (Doc (_id d) (identifier d) (count d) v (windowStart d))
           (p_lastRequest :: modifiedPaths r).

Definition set_windowStart (v : Z) (r : document) : document :=
  let d := fields r in
  Document (Doc (_id d) (identifier d) (count d) (lastRequest d) v)
           (p_windowStart :: modifiedPaths r).

(** What [save()] does to the stored document with the same [_id]: each
    modified path takes the value held in memory. *)
Definition write_path (src : doc) (p : path) (d : doc) : doc :=
  match p with
  | p_count => Doc (_id d) (identifier d) (count src) (lastRequest d) (windowStart d)
  | p_lastRequest => Doc (_id d) (identifier d) (count d) (lastRequest src) (windowStart d)
  | p_windowStart => Doc (_id d) (identifier d) (count d) (lastRequest d) (windowStart src)
  end.

Definition apply_save (r : document) (d : doc) : doc :=
  if Nat.eqb (_id d) (_id (fields r))
  then fold_right (write_path (fields r)) d (modifiedPaths r)
  else d.

(** The assignments as Mongoose records them: one that leaves the path with
    the value it has marks nothing. *)
Definition assign_count (v : Z) (r : document) : document :=
  if Z.eqb v (count (fields r)) then r else set_count v r.

Definition assign_lastRequest (v : Z) (r : document) : document :=
  if Z.eqb v (lastRequest (fields r)) then r else set_lastRequest v r.

Definition assign_windowStart (v : Z) (r : document) : document :=
  if Z.eqb v (windowStart (fields r)) then r else set_windowStart v r.

(** ** The outside world *)

Inductive exn :=
| StoreUnavailable       (* the database cannot be reached *)
| DocumentNotFound.      (* save() of a document that is no longer stored *)

Inductive log_entry :=
| RateLimitingError (e : exn)            (* "Rate limiting error:" *)
| DecrementFailed (e : exn).             (* "Failed to decrement rate limit counter:" *)

(** [collection]: the stored documents in insertion order.
    [clock], [ticks]: the time of the last reading of the clock and the
    delays before the coming readings; the clock never runs backwards.
    [outages]: for the coming store operations, whether the store is
    unreachable; [failed_ops] counts the operations that have failed.
    [console]: what was written with [console.error], latest first.
    The removal of documents an hour after their [windowStart] by the TTL
    index of the schema is left out: nothing below spans an hour. *)
Record World := mkWorld {
  collection : list doc;
  next_oid : nat;
  clock : Z;
  ticks : list nat;
  outages : list bool;
  failed_ops : nat;
  console : list log_entry
}.

Definition with_collection (c : list doc) (w : World) : World :=
  mkWorld c (next_oid w) (clock w) (ticks w) (outages w) (failed_ops w) (console w).

(** [Date.now()] / [new Date()] *)
Definition read_clock (w : World) : Z * World :=
  match ticks w with
  | [] => (clock w, w)
  | d :: ds =>
      let t := clock w + Z.of_nat d in
      (t, mkWorld (collection w) (next_oid w) t ds (outages w) (failed_ops w) (console w))
  end.

Definition log (l : log_entry) (w : World) : World :=
  mkWorld (collection w) (next_oid w) (clock w) (ticks w) (outages w) (failed_ops w)
          (l :: console w).

(** An operation of the store that fails is counted. *)
Definition failing (w : World) : World :=
  mkWorld (collection w) (next_oid w) (clock w) (ticks w) (outages w) (S (failed_ops w))
          (console w).

Definition next_outage (os : list bool) (w : World) : World :=
  mkWorld (collection w) (next_oid w) (clock w) (ticks w) os (failed_ops w) (console w).

(** Every store operation first finds out whether the store can be reached. *)
Definition reach_store (w : World) : bool * World :=
  match outages w with
  | [] => (true, w)
  | false :: os => (true, next_outage os w)
  | true :: os => (false, failing (next_outage os w))
  end.

Definition store_read {R : Type} (q : list doc -> R) (w : World) : (exn + R) * World :=
  let (ok, w1) := reach_store w in
  if ok then (inr (q (collection w1)), w1) else (inl StoreUnavailable, w1).

(** [RateLimitLog.create({identifier, count, lastRequest, windowStart})] *)
Definition store_create (i : string) (c l s : Z) (w : World) : (exn + document) * World :=
  let (ok, w1) := reach_store w in
  if ok then
    let d := Doc (next_oid w1) i c l s in
    (inr (loaded d),
     mkWorld (collection w1 ++ [d]) (S (next_oid w1)) (clock w1) (ticks w1) (outages w1)
             (failed_ops w1) (console w1))
  else (inl StoreUnavailable, w1).

(** [record.save()]: the stored document with the [_id] of [r] takes the
    modified paths ([_id]s are unique in a collection). *)
Definition store_save (r : document) (w : World) : (exn + document) * World :=
  let (ok, w1) := reach_store w in
  if ok then
    if existsb (fun d => Nat.eqb (_id d) (_id (fields r))) (collection w1)
    then (inr (loaded (fields r)),
          with_collection (map (apply_save r) (collection w1)) w1)
    else (inl DocumentNotFound, failing w1)
  else (inl StoreUnavailable, w1).

(** ** Handlers as programs *)

Inductive Prog (A : Type) : Type :=
| Ret (a : A)
| Throw (e : exn)
| DateNow (k : Z -> Prog A)
| ConsoleError (l : log_entry) (k : Prog A)
| Read {R : Type} (q : list doc -> R) (k : exn + R -> Prog A)
| Create (i : string) (c l s : Z) (k : exn + document -> Prog A)
| Save (r : document) (k : exn + document -> Prog A).

Arguments Ret {A} a.
Arguments Throw {A} e.
Arguments DateNow {A} k.
Arguments ConsoleError {A} l k.
Arguments Read {A R} q k.
Arguments Create {A} i c l s k.
Arguments Save {A} r k.

Fixpoint bind {A B : Type} (p : Prog A) (f : A -> Prog B) : Prog B :=
  match p with
  | Ret a => f a
  | Throw e => Throw e
  | DateNow k => DateNow (fun t => bind (k t) f)
  | ConsoleError l k => ConsoleError l (bind k f)
  | Read q k => Read q (fun r => bind (k r) f)
  | Create i c l s k => Create i c l s (fun r => bind (k r) f)
  | Save r k => Save r (fun x => bind (k x) f)
  end.

(** [try { p } catch (error) { h error }] *)
Fixpoint try_catch {A : Type} (p : Prog A) (h : exn -> Prog A) : Prog A :=
  match p with
  | Ret a => Ret a
  | Throw e => h e
  | DateNow k => DateNow (fun t => try_catch (k t) h)
  | ConsoleError l k => ConsoleError l (try_catch k h)
  | Read q k => Read q (fun r => try_catch (k r) h)
  | Create i c l s k => Create i c l s (fun r => try_catch (k r) h)
  | Save r k => Save r (fun x => try_catch (k x) h)
  end.

Declare Scope prog_scope.
Delimit Scope prog_scope with prog.
Notation "x <- p ;; q" := (bind p (fun x => q))
  (at level 100, p at next level, right associativity) : prog_scope.
Notation "p ;; q" := (bind p (fun _ => q))
  (at level 100, right associativity) : prog_scope.

(** [await] of a store operation: a rejected promise throws. *)
Definition settle {A : Type} (r : exn + A) : Prog A :=
  match r with
  | inl e => Throw e
  | inr a => Ret a
  end.

Definition date_now : Prog Z := DateNow Ret.
Definition console_error (l : log_entry) : Prog unit := ConsoleError l (Ret tt).
Definition query {R : Type} (q : list doc -> R) : Prog R := Read q settle.
Definition create (i : string) (c l s : Z) : Prog document := Create i c l s settle.
Definition save (r : document) : Prog document := Save r settle.

(** Running a program to completion. *)
Fixpoint run {A : Type} (p : Prog A) (w : World) : (exn + A) * World :=
  match p with
  | Ret a => (inr a, w)
  | Throw e => (inl e, w)
  | DateNow k => let (t, w1) := read_clock w in run (k t) w1
  | ConsoleError l k => run k (log l w)
  | Read q k => let (r, w1) := store_read q w in run (k r) w1
  | Create i c l s k => let (r, w1) := store_create i c l s w in run (k r) w1
  | Save r k => let (x, w1) := store_save r w in run (k x) w1
  end.

(** ** JavaScript values *)

(** A value that is a string or [undefined]. *)
Definition truthy (v : option string) : bool :=
  match v with
  | Some s => negb (String.eqb s "")
  | None => false
  end.

(** [a || b] *)
Definition js_or (a b : option string) : option string :=
  if truthy a then a else b.

(** JSON as the handlers build it.  [JDate ms] is the ISO-8601 string of the
    instant [ms] ([new Date(ms).toISOString()], also what a [Date] becomes in
    a JSON body); [JDiv n d] is the number [n / d]; [JId] an ObjectId. *)
#[local] Unset Elimination Schemes.
Inductive json :=
| JNull
| JBool (b : bool)
| JNum (n : Z)
| JDiv (n d : Z)
| JStr (s : string)
| JDate (ms : Z)
| JId (oid : nat)
| JArr (items : list json)
| JObj (members : list (string * json)).
#[local] Set Elimination Schemes.

Fixpoint member (k : string) (o : list (string * json)) : option json :=
  match o with
  | [] => None
  | (k', v) :: o' => if String.eqb k k' then Some v else member k o'
  end.

(** [Math.ceil(x / d)] for integers [x] and a positive integer [d]. *)
Definition Math_ceil_div (x d : Z) : Z := - ((- x) / d).

(** ** Requests and responses *)

Module User.
Record t := mk { id : option string; userId : option string }.
End User.

Record connection := { remoteAddress : option string }.

Record request := {
  req_user : option User.t;
  req_ip : option string;
  req_connection : option connection
}.

(** What a handler does with the response: [next()] after [res.set(headers)]
    (no headers when [res.set] was not called) and, where the limiter has
    replaced [res.json], the record the replacement holds; [next(error)]; or
    [res.status(status).json(body)]. *)
Inductive outcome :=
| Next (headers : list (string * json)) (json_override : option document)
| NextError (e : exn)
| Respond (status : Z) (body : json).

(** ** [rateLimitLog.model.js] *)

Definition isWindowExpired (this : document) (windowMs : Z) : Prog bool :=
  (t <- date_now ;;
   Ret (windowMs <=? t - windowStart (fields this)))%prog.

Definition resetWindow (this : document) : Prog document :=
  (let this := set_count 1 this in
   t1 <- date_now ;;
   let this := set_windowStart t1 this in
   t2 <- date_now ;;
   Ret (set_lastRequest t2 this))%prog.

(** [RateLimitLog.findOne({ identifier })]: the first stored document with
    that identifier. *)
Definition first_with (i : string) (c : list doc) : option doc :=
  List.find (fun d => String.eqb (identifier d) i) c.

Definition findOne (i : string) : Prog (option document) :=
  query (fun c => option_map loaded (first_with i c)).

(** ** [rateLimiter.middleware.js] *)

(** The options of [createRateLimiter] as a caller passes them. *)
Record options := {
  windowMs : option Z;
  maxRequests : option Z;
  message : option string;
  skipSuccessfulRequests : option bool;
  skipFailedRequests : option bool;
  type : option string
}.

(** The options after destructuring with their defaults. *)
Record policy := Policy {
  p_windowMs : Z;
  p_maxRequests : Z;
  p_message : string;
  p_skipSuccessfulRequests : bool;
  p_skipFailedRequests : bool;
  p_type : string
}.

Definition destructure (o : options) : policy :=
  Policy (default (60 * 1000) (windowMs o))
         (default 20 (maxRequests o))
         (default "Too many requests 🚫" (message o))
         (default false (skipSuccessfulRequests o))
         (default false (skipFailedRequests o))
         (default "hybrid" (type o)).

(** [req.user?.id || req.user?.userId] *)
Definition user_identifier (req : request) : option string :=
  js_or (u ← req_user req; User.id u) (u ← req_user req; User.userId u).

(** [req.ip || req.connection?.remoteAddress || 'unknown'], then the
    normalisation of the loopback addresses. *)
Definition address_identifier (req : request) : string :=
  let identifier :=
    default "unknown"
      (js_or (js_or (req_ip req) (c ← req_connection req; remoteAddress c))
             (Some "unknown")) in
  if String.eqb identifier "::1" || String.eqb identifier "127.0.0.1"
  then "localhost"
  else identifier.

(** Whether [req.user] is set (an object is truthy). *)
Definition has_user (req : request) : bool :=
  match req_user req with
  | Some _ => true
  | None => false
  end.

(** [req.user ? 'token' : 'ip'] *)
Definition limiter_type (req : request) : string :=
  if has_user req then "token" else "ip".

(** Lines 29-52: the strategy either leaves through [return next()] or
    assigns [identifier]. *)
Inductive resolution :=
| ReturnNext
| Identifier (v : option string).

Definition resolve (type : string) (req : request) : resolution :=
  if String.eqb type "token" && has_user req then
    let identifier := user_identifier req in
    if negb (truthy identifier) then ReturnNext else Identifier identifier
  else if String.eqb type "ip" || negb (has_user req) then
    Identifier (Some (address_identifier req))
  else
    if has_user req then Identifier (user_identifier req)
    else Identifier (Some (address_identifier req)).

(** Line 54: [!identifier || identifier === 'unknown'] fails. *)
Definition usable (v : option string) : option string :=
  match v with
  | Some s => if negb (truthy v) || String.eqb s "unknown" then None else Some s
  | None => None
  end.

(** The identifier a request is billed against, if any. *)
Definition billed (type : string) (req : request) : option string :=
  match resolve type req with
  | ReturnNext => None
  | Identifier v => usable v
  end.

Definition rate_headers (limit remaining reset : Z) (req : request) : list (string * json) :=
  [ ("X-RateLimit-Limit", JNum limit);
    ("X-RateLimit-Remaining", JNum remaining);
    ("X-RateLimit-Reset", JDate reset);
    ("X-RateLimit-Type", JStr (limiter_type req)) ].

Definition rejection (p : policy) (resetTime now : Z) (req : request) : json :=
  JObj [ ("success", JBool false);
         ("message", JStr (p_message p));
         ("error", JStr "RATE_LIMIT_EXCEEDED");
         ("retryAfter", JNum (Math_ceil_div (resetTime - now) 1000));
         ("limit", JNum (p_maxRequests p));
         ("remaining", JNum 0);
         ("resetTime", JDate resetTime);
         ("type", JStr (limiter_type req)) ].

(** Lines 58-147, once [identifier] is known to be usable. *)
Definition check_and_count (p : policy) (req : request) (now : Z) (identifier : string) : Prog outcome :=
  (record <- findOne identifier ;;
   match record with
   | None =>
       _ <- create identifier 1 now now ;;
       Ret (Next (rate_headers (p_maxRequests p) (p_maxRequests p - 1) (now + p_windowMs p) req)
                 None)
   | Some record =>
       expired <- isWindowExpired record (p_windowMs p) ;;
       if (expired : bool) then
         record <- resetWindow record ;;
         _ <- save record ;;
         Ret (Next (rate_headers (p_maxRequests p) (p_maxRequests p - 1) (now + p_windowMs p) req)
                   None)
       else if p_maxRequests p <=? count (fields record) then
         let resetTime := windowStart (fields record) + p_windowMs p in
         Ret (Respond 429 (rejection p resetTime now req))
       else
         let record := set_count (count (fields record) + 1) record in
         let record := set_lastRequest now record in
         record <- save record ;;
         let remaining := Z.max 0 (p_maxRequests p - count (fields record)) in
         Ret (Next (rate_headers (p_maxRequests p) remaining
                      (windowStart (fields record) + p_windowMs p) req)
                   (Some record))
   end)%prog.

(** The middleware [createRateLimiter] returns, for destructured options. *)
Definition rateLimiter (p : policy) (req : request) : Prog outcome :=
  try_catch
    (now <- date_now ;;
     match resolve (p_type p) req with
     | ReturnNext => Ret (Next [] None)
     | Identifier v =>
         match usable v with
         | None => Ret (Next [] None)
         | Some identifier => check_and_count p req now identifier
         end
     end)%prog
    (fun error =>
       (console_error (RateLimitingError error) ;;
        Ret (Next [] None))%prog).

Definition createRateLimiter (o : options) : request -> Prog outcome :=
  rateLimiter (destructure o).

(** The replacement of [res.json] (lines 130-145), called by a later handler
    when the response has status [statusCode]; its effect on the store. *)
Definition res_json (p : policy) (record : document) (statusCode : Z) : Prog unit :=
  if negb (p_skipSuccessfulRequests p) && negb (p_skipFailedRequests p) then Ret tt
  else
    let requestSucceeded := (200 <=? statusCode) && (statusCode <? 400) in
    if (requestSucceeded && p_skipSuccessfulRequests p)
       || (negb requestSucceeded && p_skipFailedRequests p)
    then
      let record := set_count (count (fields record) - 1) record in
      Save record (fun r =>
        match r with
        | inl err => console_error (DecrementFailed err)
        | inr _ => Ret tt
        end)
    else Ret tt.

(** The pre-configured limiters. *)
Definition authRateLimiter := createRateLimiter
  {| windowMs := Some (15 * 60 * 1000); maxRequests := Some 5;
     message := Some "Too many authentication attempts. Please try again later.";
     skipSuccessfulRequests := None; skipFailedRequests := None;
     type := Some "hybrid" |}.

Definition generalRateLimiter := createRateLimiter
  {| windowMs := Some (60 * 1000); maxRequests := Some 60;
     message := Some "Too many requests. Please slow down.";
     skipSuccessfulRequests := None; skipFailedRequests := None;
     type := Some "hybrid" |}.

Definition strictRateLimiter := createRateLimiter
  {| windowMs := Some (60 * 1000); maxRequests := Some 10;
     message := Some "Rate limit exceeded for sensitive operations.";
     skipSuccessfulRequests := None; skipFailedRequests := None;
     type := Some "hybrid" |}.

Definition ipRateLimiter := createRateLimiter
  {| windowMs := Some (60 * 1000); maxRequests := Some 20;
     message := Some "Too many requests from this IP address.";
     skipSuccessfulRequests := None; skipFailedRequests := None;
     type := Some "ip" |}.

Definition registrationRateLimiter := createRateLimiter
  {| windowMs := Some (60 * 1000); maxRequests := Some 3;
     message := Some "Too many registration attempts. Please wait before trying again.";
     skipSuccessfulRequests := None; skipFailedRequests := None;
     type := Some "ip" |}.

(** ** [rateLimit.controller.js] *)

Definition getUserRateLimit (req : request) : Prog outcome :=
  try_catch
    (let userId := u ← req_user req; User.id u in
     match userId with
     | Some userId =>
         if negb (truthy (Some userId)) then
           Ret (Respond 401 (JObj [ ("success", JBool false);
                                    ("message", JStr "Authentication required") ]))
         else
           record <- findOne userId ;;
           match record with
           | None =>
               t <- date_now ;;
               Ret (Respond 200
                      (JObj [ ("success", JBool true);
                              ("data", JObj [ ("currentUsage", JNum 0);
                                              ("limit", JNum 60);
                                              ("remaining", JNum 60);
                                              ("resetTime", JDate (t + 60000));
                                              ("windowMs", JNum 60000) ]) ]))
           | Some record =>
               now <- date_now ;;
               let windowMs := 60000 in
               let remaining := Z.max 0 (60 - count (fields record)) in
               Ret (Respond 200
                      (JObj [ ("success", JBool true);
                              ("data", JObj [ ("currentUsage", JNum (count (fields record)));
                                              ("limit", JNum 60);
                                              ("remaining", JNum remaining);
                                              ("resetTime",
                                               JDate (windowStart (fields record) + windowMs));
                                              ("windowMs", JNum windowMs);
                                              ("lastRequest",
                                               JDate (lastRequest (fields record))) ]) ]))
           end
     | None =>
         Ret (Respond 401 (JObj [ ("success", JBool false);
                                  ("message", JStr "Authentication required") ]))
     end)%prog
    (fun error => Ret (NextError error)).

(** The [$group] stage with [_id: null]: one group holding every document,
    and no group at all for an empty collection. *)
Definition total_count (c : list doc) : Z :=
  fold_right (fun d acc => count d + acc) 0 c.

Definition aggregate_group (c : list doc) : list json :=
  match c with
  | [] => []
  | _ :: _ =>
      [ JObj [ ("_id", JNull);
               ("totalUsers", JNum (Z.of_nat (length c)));
               ("totalRequests", JNum (total_count c));
               ("avgRequestsPerUser", JDiv (total_count c) (Z.of_nat (length c))) ] ]
  end.

(** [.sort({ lastRequest: -1 })]: latest first. *)
Definition later (a b : doc) : Prop := lastRequest b <= lastRequest a.

#[local] Instance later_dec (a b : doc) : Decision (later a b).
Proof. unfold later. apply _. Defined.

(** [.select('identifier count lastRequest')]; the [_id] comes with them. *)
Definition select (d : doc) : json :=
  JObj [ ("_id", JId (_id d));
         ("identifier", JStr (identifier d));
         ("count", JNum (count d));
         ("lastRequest", JDate (lastRequest d)) ].

Definition find_recent (c : list doc) : list doc :=
  take 10 (merge_sort later c).

Definition getAllRateLimitStats (req : request) : Prog outcome :=
  try_catch
    (stats <- query aggregate_group ;;
     recentActivity <- query (fun c => map select (find_recent c)) ;;
     let summary :=
       match stats with
       | s :: _ => s
       | [] => JObj [ ("totalUsers", JNum 0);
                      ("totalRequests", JNum 0);
                      ("avgRequestsPerUser", JNum 0) ]
       end in
     Ret (Respond 200
            (JObj [ ("success", JBool true);
                    ("data", JObj [ ("summary", summary);
                                    ("recentActivity", JArr recentActivity) ]) ])))%prog
    (fun error => Ret (NextError error)).

(** ** Serving requests *)

(** A request as the application sees it: after the limiter has let it
    through, a later handler may answer with [res.json], at some status. *)
Record exchange := {
  incoming : request;
  answered_json : option Z
}.

(** One request handled from start to end before anything else happens. *)
Definition serve (p : policy) (x : exchange) : Prog outcome :=
  (out <- rateLimiter p (incoming x) ;;
   match out, answered_json x with
   | Next _ (Some record), Some statusCode =>
       res_json p record statusCode ;; Ret out
   | _, _ => Ret out
   end)%prog.

Fixpoint serve_all (p : policy) (xs : list exchange) : Prog (list outcome) :=
  match xs with
  | [] => Ret []
  | x :: xs' =>
      (out <- serve p x ;;
       outs <- serve_all p xs' ;;
       Ret (out :: outs))%prog
  end.

Definition let_through (out : outcome) : bool :=
  match out with
  | Next _ _ => true
  | _ => false
  end.

Definition rejected (out : outcome) : bool :=
  match out with
  | Respond 429 _ => true
  | _ => false
  end.

(** ** Requests in flight together *)

(** A handler runs without interruption up to its next [await] of a store
    operation: [advance] runs a program to that point. *)
Fixpoint advance {A : Type} (p : Prog A) (w : World) : Prog A * World :=
  match p with
  | DateNow k => let (t, w1) := read_clock w in advance (k t) w1
  | ConsoleError l k => advance k (log l w)
  | _ => (p, w)
  end.

(** The store answers the operation a handler waits for, and the handler
    goes on to its next [await]. *)
Definition resume {A : Type} (p : Prog A) (w : World) : Prog A * World :=
  match p with
  | Read q k => let (r, w1) := store_read q w in advance (k r) w1
  | Create i c l s k => let (r, w1) := store_create i c l s w in advance (k r) w1
  | Save r k => let (x, w1) := store_save r w in advance (k x) w1
  | _ => advance p w
  end.

(** The handlers start in the order the requests arrive. *)
Fixpoint start_all {A : Type} (ps : list (Prog A)) (w : World) : list (Prog A) * World :=
  match ps with
  | [] => ([], w)
  | p :: ps' =>
      let (p1, w1) := advance p w in
      let (ps1, w2) := start_all ps' w1 in
      (p1 :: ps1, w2)
  end.

(** [schedule] lists, in the order the store answers them, the handlers
    whose pending operation is answered. *)
Fixpoint interleave {A : Type} (schedule : list nat) (ps : list (Prog A)) (w : World)
  : list (Prog A) * World :=
  match schedule with
  | [] => (ps, w)
  | i :: schedule' =>
      match ps !! i with
      | Some p =>
          let (p1, w1) := resume p w in
          interleave schedule' (<[i := p1]> ps) w1
      | None => interleave schedule' ps w
      end
  end.

Definition finished {A : Type} (p : Prog A) : option A :=
  match p with
  | Ret a => Some a
  | _ => None
  end.

(** The outcomes of requests handled together under a schedule, for the
    handlers that have finished. *)
Definition concurrently (p : policy) (reqs : list request) (schedule : list nat) (w : World)
  : list (option outcome) * World :=
  let (ps, w1) := start_all (map (rateLimiter p) reqs) w in
  let (ps', w2) := interleave schedule ps w1 in
  (map finished ps', w2).

(** ** Worlds *)

(** The latest time the clock reaches over the readings to come. *)
Definition horizon (w : World) : Z :=
  clock w + Z.of_nat (list_sum (ticks w)).

(** The store stays reachable. *)
Definition healthy (w : World) : Prop := outages w = [].

Definition empty_world (t : Z) (ds : list nat) : World :=
  mkWorld [] 0 t ds [] 0 [].

Definition unique_ids (c : list doc) : Prop := NoDup (map _id c).

(** How many of the outcomes satisfy [f]. *)
Definition tally (f : outcome -> bool) (outs : list outcome) : nat :=
  length (List.filter f outs).

(** The window stored for [i] holds [c] requests since [ws], the store stays
    reachable, and over the readings of the clock to come a window of length
    [W] that began at [ws] has not elapsed. *)
Definition live (w : World) (i : string) (c ws W : Z) : Prop :=
  healthy w /\
  (exists d, first_with i (collection w) = Some d /\ count d = c /\ windowStart d = ws) /\
  ws <= clock w /\ horizon w < ws + W.

(** The policy neither skips successful nor failed requests (the defaults). *)
Definition counts_all (p : policy) : Prop :=
  p_skipSuccessfulRequests p = false /\ p_skipFailedRequests p = false.

(** ** Routes *)

(** The handlers of a route run in order, each one when the one before has
    called [next()]; [through] gives what each of the handlers reached did.
    The request has reached the end of the chain when all of them called
    [next()]. *)
Fixpoint through (ms : list (request -> Prog outcome)) (req : request)
  : Prog (list outcome) :=
  match ms with
  | [] => Ret []
  | m :: ms' =>
      (out <- m req ;;
       match out with
       | Next _ _ => outs <- through ms' req ;; Ret (out :: outs)
       | _ => Ret [out]
       end)%prog
  end.

Definition passed (ms : list (request -> Prog outcome)) (outs : list outcome) : bool :=
  Nat.eqb (length outs) (length ms) && forallb let_through outs.

(** Requests handled one after another by the same chain. *)
Fixpoint through_all (ms : list (request -> Prog outcome)) (reqs : list request)
  : Prog (list (list outcome)) :=
  match reqs with
  | [] => Ret []
  | req :: reqs' =>
      (outs <- through ms req ;;
       rest <- through_all ms reqs' ;;
       Ret (outs :: rest))%prog
  end.

(** Requests served one after another, each under the policy of its route. *)
Fixpoint serve_each (pxs : list (policy * exchange)) : Prog (list outcome) :=
  match pxs with
  | [] => Ret []
  | (p, x) :: pxs' =>
      (out <- serve p x ;;
       outs <- serve_each pxs' ;;
       Ret (out :: outs))%prog
  end.

(** Lines 136-138 of the middleware: whether the replaced [res.json] takes
    the request back at this status. *)
Definition skipped (p : policy) (statusCode : Z) : bool :=
  let requestSucceeded := (200 <=? statusCode) && (statusCode <? 400) in
  (requestSucceeded && p_skipSuccessfulRequests p)
  || (negb requestSucceeded && p_skipFailedRequests p).

(** ** [auth.middleware.js] *)

(** [s.split(sep)] for a separator of one character. *)
Fixpoint split_on (sep : ascii) (s : string) : list string :=
  match s with
  | EmptyString => [EmptyString]
  | String c s' =>
      if Ascii.eqb c sep then EmptyString :: split_on sep s'
      else match split_on sep s' with
           | w :: ws => String c w :: ws
           | [] => [String c EmptyString]
           end
  end.

(** The user document [authenticate] loads; [acc_id] stands for its [_id]. *)
Record account := {
  acc_id : string;
  acc_name : string;
  acc_email : string;
  acc_role : string;
  acc_isActive : bool
}.

(** [authenticate] answers itself, with or without [console.error], or
    calls [next()] with [req.user] set. *)
Inductive auth_outcome :=
| AuthRespond (status : Z) (body : json) (logged : bool)
| AuthNext (req : request).

Definition refusal (status : Z) (message : string) (logged : bool) : auth_outcome :=
  AuthRespond status (JObj [ ("success", JBool false); ("message", JStr message) ]) logged.

(** [jwt.verify] and [User.findById] are taken as given: each gives the
    [name] of the error it throws, or its result ([decoded.userId], which
    may be undefined; the user found, or null).  [req.user] also gets
    [email], [role] and [name], which nothing modelled here reads. *)
Definition authenticate
           (jwt_verify : string -> string + option string)
           (findById : option string -> string + option account)
           (authorization : option string) (req : request) : auth_outcome :=
  let catch (name : string) :=
    if String.eqb name "JsonWebTokenError" then
      refusal 401 "Invalid token format" false
    else if String.eqb name "TokenExpiredError" then
      refusal 401 "Token has expired. Please login again." false
    else refusal 500 "Authentication failed" true in
  match authorization with
  | None =>
      refusal 401 "Authorization header missing or invalid format. Expected: Bearer <token>"
              false
  | Some authHeader =>
      if negb (truthy (Some authHeader)) || negb (String.prefix "Bearer" authHeader) then
        refusal 401 "Authorization header missing or invalid format. Expected: Bearer <token>"
                false
      else
        let token := split_on " "%char authHeader !! 1%nat in
        match token with
        | None => refusal 401 "Token missing from authorization header" false
        | Some token =>
            if negb (truthy (Some token)) then
              refusal 401 "Token missing from authorization header" false
            else
              match jwt_verify token with
              | inl name => catch name
              | inr userId =>
                  match findById userId with
                  | inl name => catch name
                  | inr None => refusal 401 "User not found or account deactivated" false
                  | inr (Some user) =>
                      if negb (acc_isActive user) then
                        refusal 401 "Account is deactivated. Please contact support." false
                      else
                        AuthNext {| req_user := Some (User.mk (Some (acc_id user))
                                                              (Some (acc_id user)));
                                    req_ip := req_ip req;
                                    req_connection := req_connection req |}
                  end
              end
        end
  end.

(** Lines 9-23 of [authenticate]: the token that goes to [jwt.verify], if
    the header gets that far. *)
Definition bearer_token (authHeader : string) : option string :=
  if negb (truthy (Some authHeader)) || negb (String.prefix "Bearer" authHeader) then None
  else match split_on " "%char authHeader !! 1%nat with
       | Some token => if truthy (Some token) then Some token else None
       | None => None
       end.

Fixpoint has_char (c : ascii) (s : string) : bool :=
  match s with
  | EmptyString => false
  | String c' s' => Ascii.eqb c' c || has_char c s'
  end.

(** [req] after [authenticate] has set [req.user] from the user loaded. *)
Definition with_user (user : account) (req : request) : request :=
  {| req_user := Some (User.mk (Some (acc_id user)) (Some (acc_id user)));
     req_ip := req_ip req;
     req_connection := req_connection req |}.

(** A verifier and a user collection for the examples: the token [good]
    names the active user [64f0c2], [old] has expired, [gone] names a user
    that is not stored, [off] a deactivated one, on [down] the database
    cannot be reached, and anything else is malformed. *)
Definition example_jwt_verify (token : string) : string + option string :=
  if String.eqb token "good" then inr (Some "64f0c2")
  else if String.eqb token "old" then inl "TokenExpiredError"
  else if String.eqb token "gone" then inr (Some "000000")
  else if String.eqb token "off" then inr (Some "64f0c3")
  else if String.eqb token "down" then inr (Some "ffffff")
  else inl "JsonWebTokenError".

Definition example_findById (userId : option string) : string + option account :=
  match userId with
  | Some "64f0c2" =>
      inr (Some {| acc_id := "64f0c2"; acc_name := "Ada"; acc_email := "ada@example.com";
                   acc_role := "user"; acc_isActive := true |})
  | Some "64f0c3" =>
      inr (Some {| acc_id := "64f0c3"; acc_name := "Bob"; acc_email := "bob@example.com";
                   acc_role := "user"; acc_isActive := false |})
  | Some "ffffff" => inl "MongoNetworkError"
  | _ => inr None
  end.

(** ** [error.middleware.js] *)

(** The error handed to [next(error)], as the middleware reads it: the own
    enumerable properties [name], [code] and [statusCode] that [{...err}]
    copies (undefined when the error has none), [err.message], and the
    messages of the values of [err.errors] when there is such an object.
    The middleware also writes the error to the console. *)
Record js_error := {
  err_name : option string;
  err_code : option Z;
  err_statusCode : option Z;
  err_message : string;
  err_errors : option (list string)
}.

(** The middleware answers, or [Object.values(err.errors)] throws a
    TypeError that goes to [next].  [res.status(c).json(...)] is taken to
    send the status [c] it is given. *)
Inductive error_outcome :=
| ErrorRespond (status : Z) (body : json)
| NextTypeError.

(** [new Error(message)] with [error.statusCode] assigned: its [name] reads
    'Error' and it has no [code]. *)
Definition new_Error (message : string) (statusCode : Z) : js_error :=
  {| err_name := Some "Error"; err_code := None; err_statusCode := Some statusCode;
     err_message := message; err_errors := None |}.

Definition name_is (error : js_error) (n : string) : bool :=
  match err_name error with
  | Some m => String.eqb m n
  | None => false
  end.

Definition errorMiddleware (err : js_error) : error_outcome :=
  let error := err in
  let error :=
    if name_is error "CastError" then new_Error "Resource not found" 404 else error in
  let error :=
    match err_code error with
    | Some 11000 => new_Error "Duplicate field value entered" 400
    | _ => error
    end in
  let answer (error : js_error) :=
    let status :=
      match err_statusCode error with
      | Some 0 | None => 500
      | Some statusCode => statusCode
      end in
    ErrorRespond status (JObj [ ("success", JBool false);
                                ("message", JStr (err_message error)) ]) in
  if name_is error "ValidationError" then
    match err_errors err with
    | Some message => answer (new_Error (String.concat ", " message) 400)
    | None => NextTypeError
    end
  else answer error.

(** ** Collections the limiter keeps *)

(** At most one window for an identifier. *)
Definition one_window_each (c : list doc) : Prop := NoDup (map identifier c).

(** The identifiers that have a stored window, each of them once. *)
Definition stored_identifiers (c : list doc) : list string :=
  remove_dups (map identifier c).

(** No window was last used before it began, nor after the last reading of
    the clock. *)
Definition timestamps_ordered (w : World) : Prop :=
  Forall (fun d => windowStart d <= lastRequest d /\ lastRequest d <= clock w)
         (collection w).

(** Every stored count is between 1 and [Q]. *)
Definition counts_within (Q : Z) (c : list doc) : Prop :=
  Forall (fun d => 1 <= count d <= Q) c.

(** What the handling of one request billed to [i] does to the collection:
    nothing; a first window is created; the request is counted in the live
    window; or the elapsed window is rolled over. *)
Inductive store_effect (p : policy) (i : string) (w w' : World) : Prop :=
| Untouched :
    collection w' = collection w ->
    store_effect p i w w'
| Created (now : Z) :
    first_with i (collection w) = None ->
    clock w <= now <= clock w' ->
    collection w' = collection w ++ [Doc (next_oid w) i 1 now now] ->
    store_effect p i w w'
| Counted (d : doc) (now : Z) :
    first_with i (collection w) = Some d ->
    count d < p_maxRequests p ->
    clock w <= now <= clock w' ->
    collection w' =
      map (apply_save (set_lastRequest now (set_count (count d + 1) (loaded d))))
          (collection w) ->
    store_effect p i w w'
| RolledOver (d : doc) (t1 t2 : Z) :
    first_with i (collection w) = Some d ->
    clock w <= t1 <= t2 -> t2 <= clock w' ->
    collection w' =
      map (apply_save (set_lastRequest t2 (set_windowStart t1 (set_count 1 (loaded d)))))
          (collection w) ->
    store_effect p i w w'.

(** * Properties of the embedding *)

(** ** The embedding at work *)

Example loopback_normalised :
  address_identifier {| req_user := None; req_ip := Some "::1"; req_connection := None |}
  = "localhost".
Proof. reflexivity. Qed.

Example remote_address_used :
  address_identifier
    {| req_user := None; req_ip := None;
       req_connection := Some {| remoteAddress := Some "198.51.100.4" |} |}
  = "198.51.100.4".
Proof. reflexivity. Qed.

Example no_address_not_billed :
  billed "ip" {| req_user := None; req_ip := Some ""; req_connection := None |} = None.
Proof. reflexivity. Qed.

Example hybrid_prefers_user :
  billed "hybrid"
         {| req_user := Some (User.mk None (Some "64f0c2")); req_ip := Some "203.0.113.7";
            req_connection := None |}
  = Some "64f0c2".
Proof. reflexivity. Qed.

Example ceil_of_quotient :
  Math_ceil_div 55750 1000 = 56 /\ Math_ceil_div 56000 1000 = 56 /\ Math_ceil_div 1 1000 = 1.
Proof. repeat split. Qed.

(** Quota 2: two requests go through, the third is answered 429. *)
Example third_request_rejected :
  let p := Policy 60000 2 "Too many requests" false false "ip" in
  let x := {| incoming := {| req_user := None; req_ip := Some "203.0.113.7";
                             req_connection := None |};
              answered_json := Some 200 |} in
  fst (run (serve_all p [x; x; x]) (empty_world 1000 [5; 5; 5; 5; 5]%nat)) =
  inr [ Next (rate_headers 2 1 61005 (incoming x)) None;
        Next (rate_headers 2 0 61005 (incoming x))
             (Some (loaded (Doc 0 "203.0.113.7" 2 1010 1005)));
        Respond 429 (rejection p 61005 1020 (incoming x)) ].
Proof. reflexivity. Qed.

(** With [skipSuccessfulRequests] the later [res.json] at status 200 takes
    the counted request back. *)
Example successful_request_not_counted :
  let p := Policy 60000 2 "Too many requests" true false "ip" in
  let x := {| incoming := {| req_user := None; req_ip := Some "203.0.113.7";
                             req_connection := None |};
              answered_json := Some 200 |} in
  collection (snd (run (serve_all p [x; x]) (empty_world 1000 [5; 5; 5]%nat))) =
  [Doc 0 "203.0.113.7" 1 1010 1005].
Proof. reflexivity. Qed.


(** ** Running programs *)

Lemma run_bind {A B : Type} (p : Prog A) (f : A -> Prog B) (w : World) :
  run (bind p f) w =
  match run p w with
  | (inr a, w1) => run (f a) w1
  | (inl e, w1) => (inl e, w1)
  end.
Proof.
  revert w.
  induction p as [a | e | k IH | l k IH | R q k IH | i c l s k IH | r k IH];
    intros w; simpl; auto.
  - destruct (read_clock w); apply IH.
  - destruct (store_read q w); apply IH.
  - destruct (store_create i c l s w); apply IH.
  - destruct (store_save r w); apply IH.
Qed.

Lemma run_try_catch {A : Type} (p : Prog A) (h : exn -> Prog A) (w : World) :
  run (try_catch p h) w =
  match run p w with
  | (inr a, w1) => (inr a, w1)
  | (inl e, w1) => run (h e) w1
  end.
Proof.
  revert w.
  induction p as [a | e | k IH | l k IH | R q k IH | i c l s k IH | r k IH];
    intros w; simpl; auto.
  - destruct (read_clock w); apply IH.
  - destruct (store_read q w); apply IH.
  - destruct (store_create i c l s w); apply IH.
  - destruct (store_save r w); apply IH.
Qed.

Lemma run_date_now (w : World) :
  run date_now w = let (t, w1) := read_clock w in (inr t, w1).
Proof. simpl. destruct (read_clock w). reflexivity. Qed.

Lemma run_query {R : Type} (q : list doc -> R) (w : World) :
  run (query q) w = store_read q w.
Proof. unfold query. simpl. destruct (store_read q w) as [[e | a] w1]; reflexivity. Qed.

Lemma run_create (i : string) (c l s : Z) (w : World) :
  run (create i c l s) w = store_create i c l s w.
Proof. unfold create. simpl. destruct (store_create i c l s w) as [[e | a] w1]; reflexivity. Qed.

Lemma run_save (r : document) (w : World) : run (save r) w = store_save r w.
Proof. unfold save. simpl. destruct (store_save r w) as [[e | a] w1]; reflexivity. Qed.

Lemma run_findOne (i : string) (w w0 : World) :
  reach_store w = (true, w0) ->
  run (findOne i) w = (inr (option_map loaded (first_with i (collection w0))), w0).
Proof. intros H. unfold findOne, query. simpl. unfold store_read. rewrite H. reflexivity. Qed.

Lemma run_isWindowExpired (r : document) (windowMs : Z) (w w1 : World) (t : Z) :
  read_clock w = (t, w1) ->
  run (isWindowExpired r windowMs) w = (inr (windowMs <=? t - windowStart (fields r)), w1).
Proof. intros H. unfold isWindowExpired. simpl. rewrite H. reflexivity. Qed.

Lemma run_resetWindow (r : document) (w w1 w2 : World) (t1 t2 : Z) :
  read_clock w = (t1, w1) ->
  read_clock w1 = (t2, w2) ->
  run (resetWindow r) w = (inr (set_lastRequest t2 (set_windowStart t1 (set_count 1 r))), w2).
Proof. intros H1 H2. unfold resetWindow. simpl. rewrite H1, H2. reflexivity. Qed.

(** ** The clock and the store *)

Lemma read_clock_spec (w : World) (t : Z) (w1 : World) :
  read_clock w = (t, w1) ->
  clock w <= t /\ clock w1 = t /\ t <= horizon w1 /\ horizon w1 = horizon w /\
  collection w1 = collection w /\ next_oid w1 = next_oid w /\
  outages w1 = outages w /\ failed_ops w1 = failed_ops w /\ console w1 = console w.
Proof.
  unfold read_clock, horizon. destruct w as [c n t0 ds os fo co]; simpl.
  destruct ds as [| d ds]; intros [= <- <-]; simpl; repeat split;
    rewrite ?Nat2Z.inj_add; lia.
Qed.

Lemma read_clock_keeps (w : World) :
  healthy w ->
  healthy (snd (read_clock w)) /\ collection (snd (read_clock w)) = collection w.
Proof.
  intros Hw. destruct (read_clock w) as [t w1] eqn:Hc. simpl.
  destruct (read_clock_spec w t w1 Hc) as (_ & _ & _ & _ & Hcoll & _ & Hout & _).
  unfold healthy in *. split; congruence.
Qed.

Lemma reach_store_spec (w w1 : World) (ok : bool) :
  reach_store w = (ok, w1) ->
  collection w1 = collection w /\ next_oid w1 = next_oid w /\ clock w1 = clock w /\
  ticks w1 = ticks w /\ console w1 = console w /\
  failed_ops w1 = (if ok then failed_ops w else S (failed_ops w)).
Proof.
  unfold reach_store. destruct w as [c n t ds os fo co]; simpl.
  destruct os as [| [|] os]; intros [= <- <-]; simpl; repeat split.
Qed.

Lemma reach_store_healthy (w : World) : healthy w -> reach_store w = (true, w).
Proof. unfold healthy, reach_store. intros ->. reflexivity. Qed.

Lemma store_read_healthy {R : Type} (q : list doc -> R) (w : World) :
  healthy w -> store_read q w = (inr (q (collection w)), w).
Proof. intros H. unfold store_read. rewrite (reach_store_healthy w H). reflexivity. Qed.

Lemma store_create_healthy (i : string) (c l s : Z) (w : World) :
  healthy w ->
  store_create i c l s w =
  (inr (loaded (Doc (next_oid w) i c l s)),
   mkWorld (collection w ++ [Doc (next_oid w) i c l s]) (S (next_oid w)) (clock w) (ticks w)
           (outages w) (failed_ops w) (console w)).
Proof. intros H. unfold store_create. rewrite (reach_store_healthy w H). reflexivity. Qed.

Lemma store_create_spec (i : string) (c l s : Z) (w w1 : World) (res : exn + document) :
  store_create i c l s w = (res, w1) ->
  console w1 = console w /\ clock w1 = clock w /\ ticks w1 = ticks w /\
  match res with
  | inl _ => failed_ops w1 = S (failed_ops w) /\ collection w1 = collection w
  | inr _ =>
      failed_ops w1 = failed_ops w /\
      collection w1 = collection w ++ [Doc (next_oid w) i c l s]
  end.
Proof.
  unfold store_create. destruct (reach_store w) as [[|] w0] eqn:Hr;
    apply reach_store_spec in Hr as (Hc & Hn & Hk & Ht & Hco & Hf);
    intros [= <- <-]; simpl; rewrite ?Hc, ?Hn; auto.
Qed.

Lemma existsb_id (c : list doc) (d : doc) :
  In d c -> existsb (fun e => Nat.eqb (_id e) (_id d)) c = true.
Proof.
  intros Hin. apply existsb_exists. exists d. split; [assumption | apply Nat.eqb_refl].
Qed.

Lemma store_save_healthy (r : document) (w : World) (d : doc) :
  healthy w -> In d (collection w) -> _id (fields r) = _id d ->
  store_save r w =
  (inr (loaded (fields r)), with_collection (map (apply_save r) (collection w)) w).
Proof.
  intros H Hin Hid. unfold store_save. rewrite (reach_store_healthy w H).
  rewrite Hid, (existsb_id _ _ Hin). reflexivity.
Qed.

Lemma store_save_spec (r : document) (w w1 : World) (res : exn + document) :
  store_save r w = (res, w1) ->
  console w1 = console w /\ clock w1 = clock w /\ ticks w1 = ticks w /\
  match res with
  | inl _ => failed_ops w1 = S (failed_ops w) /\ collection w1 = collection w
  | inr r' =>
      failed_ops w1 = failed_ops w /\ r' = loaded (fields r) /\
      collection w1 = map (apply_save r) (collection w)
  end.
Proof.
  unfold store_save. destruct (reach_store w) as [[|] w0] eqn:Hr;
    apply reach_store_spec in Hr as (Hc & _ & Hk & Ht & Hco & Hf).
  - destruct (existsb _ _); intros [= <- <-]; simpl; rewrite ?Hc; auto 10.
  - intros [= <- <-]. auto.
Qed.

Lemma run_save_healthy (r : document) (w : World) (d : doc) :
  healthy w -> In d (collection w) -> _id (fields r) = _id d ->
  run (save r) w =
  (inr (loaded (fields r)), with_collection (map (apply_save r) (collection w)) w).
Proof.
  intros H Hin Hid. unfold save. simpl. rewrite (store_save_healthy r w d H Hin Hid).
  reflexivity.
Qed.

(** ** Stored documents *)

Lemma first_with_elem (i : string) (c : list doc) (d : doc) :
  first_with i c = Some d -> In d c /\ identifier d = i.
Proof.
  unfold first_with. intros H. apply find_some in H as [Hin Heq].
  split; [assumption | now apply String.eqb_eq].
Qed.

Lemma first_with_map (f : doc -> doc) (i : string) (c : list doc) :
  (forall d, identifier (f d) = identifier d) ->
  first_with i (map f c) = option_map f (first_with i c).
Proof.
  intros Hf. unfold first_with. induction c as [| d c IH]; simpl; [reflexivity |].
  rewrite Hf. destruct (String.eqb (identifier d) i); [reflexivity | exact IH].
Qed.

Lemma first_with_app_None (i : string) (c1 c2 : list doc) :
  first_with i c1 = None -> first_with i (c1 ++ c2) = first_with i c2.
Proof.
  unfold first_with. induction c1 as [| e c1 IH]; simpl; [reflexivity |].
  destruct (String.eqb (identifier e) i); [discriminate | auto].
Qed.

Lemma apply_save_identifier (r : document) (d : doc) :
  identifier (apply_save r d) = identifier d.
Proof.
  unfold apply_save. destruct (Nat.eqb (_id d) (_id (fields r))); [| reflexivity].
  induction (modifiedPaths r) as [| q qs IH]; simpl; [reflexivity |].
  destruct q; simpl; exact IH.
Qed.

Lemma apply_save_other (r : document) (e : doc) :
  _id e <> _id (fields r) -> apply_save r e = e.
Proof.
  intros Hne. unfold apply_save. apply Nat.eqb_neq in Hne. rewrite Hne. reflexivity.
Qed.

Lemma apply_save_count_lastRequest (d : doc) (c l : Z) :
  apply_save (set_lastRequest l (set_count c (loaded d))) d =
  Doc (_id d) (identifier d) c l (windowStart d).
Proof. unfold apply_save. simpl. rewrite Nat.eqb_refl. reflexivity. Qed.

(** Recording every assignment, or only those that change a value, stores
    the same when the document saved onto is the one that was loaded: for
    the assignments of the counting path, of [resetWindow] and of the
    replacement of [res.json]. *)
Lemma save_onto_loaded (d : doc) (c l t1 t2 : Z) :
  apply_save (assign_lastRequest l (assign_count c (loaded d))) d =
  apply_save (set_lastRequest l (set_count c (loaded d))) d /\
  apply_save (assign_lastRequest t2 (assign_windowStart t1 (assign_count 1 (loaded d)))) d =
  apply_save (set_lastRequest t2 (set_windowStart t1 (set_count 1 (loaded d)))) d /\
  apply_save (assign_count c (loaded d)) d = apply_save (set_count c (loaded d)) d /\
  fields (assign_lastRequest l (assign_count c (loaded d))) =
  fields (set_lastRequest l (set_count c (loaded d))) /\
  fields (assign_lastRequest t2 (assign_windowStart t1 (assign_count 1 (loaded d)))) =
  fields (set_lastRequest t2 (set_windowStart t1 (set_count 1 (loaded d)))).
Proof.
  unfold assign_lastRequest, assign_windowStart, assign_count, apply_save.
  repeat split;
    repeat (cbn -[Z.eqb];
            match goal with
            | |- context [Z.eqb ?a ?b] => destruct (Z.eqb_spec a b)
            end);
    cbn -[Z.eqb]; rewrite ?Nat.eqb_refl; destruct d; simpl in *; subst; reflexivity.
Qed.

Lemma apply_save_reset (d : doc) (t1 t2 : Z) :
  apply_save (set_lastRequest t2 (set_windowStart t1 (set_count 1 (loaded d)))) d =
  Doc (_id d) (identifier d) 1 t2 t1.
Proof. unfold apply_save. simpl. rewrite Nat.eqb_refl. reflexivity. Qed.

Lemma unique_ids_eq (c : list doc) (d e : doc) :
  unique_ids c -> In d c -> In e c -> _id e = _id d -> e = d.
Proof.
  unfold unique_ids. induction c as [| x c IH]; simpl; [tauto |].
  intros Hnd Hd He Hid. inversion Hnd as [| ? ? Hx Hnd']; subst.
  assert (Hmem : forall y, In y c -> ~ _id y = _id x).
  { intros y Hy Heq. apply Hx. rewrite <- Heq. apply list_elem_of_In.
    apply in_map. exact Hy. }
  destruct Hd as [<- | Hd], He as [<- | He]; auto.
  - exfalso. apply (Hmem e He). exact Hid.
  - exfalso. apply (Hmem d Hd). symmetry. exact Hid.
Qed.

Lemma lookup_In (c : list doc) (k : nat) (d : doc) : c !! k = Some d -> In d c.
Proof. intros H. apply list_elem_of_In. apply (list_elem_of_lookup_2 c k d H). Qed.

Lemma lookup_map (f : doc -> doc) (c : list doc) (k : nat) (d : doc) :
  c !! k = Some d -> map f c !! k = Some (f d).
Proof.
  intros H. change (map f c) with (f <$> c). rewrite list_lookup_fmap, H. reflexivity.
Qed.

(** ** [Math.ceil] of a quotient *)

Lemma Math_ceil_div_spec (x d : Z) :
  0 < d ->
  (Math_ceil_div x d - 1) * d < x <= Math_ceil_div x d * d.
Proof.
  intros Hd. unfold Math_ceil_div.
  pose proof (Z.div_mod (- x) d) as Hdm.
  pose proof (Z.mod_pos_bound (- x) d Hd) as Hb.
  nia.
Qed.

Lemma Math_ceil_div_bounds (x d n : Z) :
  0 < d -> 0 < x <= n * d -> 0 < Math_ceil_div x d <= n.
Proof.
  intros Hd Hx. pose proof (Math_ceil_div_spec x d Hd) as Hs. nia.
Qed.

(** ** Which identifier a request is billed to *)

Lemma address_identifier_truthy (req : request) :
  truthy (Some (address_identifier req)) = true.
Proof.
  unfold address_identifier.
  destruct (js_or (js_or (req_ip req) (c ← req_connection req; remoteAddress c))
                  (Some "unknown")) as [s |] eqn:Hs.
  - assert (Ht : truthy (Some s) = true).
    { unfold js_or in Hs at 1.
      destruct (truthy (js_or (req_ip req) (c ← req_connection req; remoteAddress c)))
        eqn:Ht.
      - rewrite Hs in Ht. exact Ht.
      - injection Hs as <-. reflexivity. }
    simpl default.
    destruct (String.eqb s "::1" || String.eqb s "127.0.0.1"); [reflexivity | exact Ht].
  - unfold js_or in Hs at 1.
    destruct (truthy (js_or (req_ip req) (c ← req_connection req; remoteAddress c)))
      eqn:Ht; [| discriminate]. rewrite Hs in Ht. discriminate.
Qed.

Lemma usable_address (req : request) :
  usable (Some (address_identifier req)) =
  if String.eqb (address_identifier req) "unknown" then None
  else Some (address_identifier req).
Proof. unfold usable. rewrite address_identifier_truthy. reflexivity. Qed.

Lemma resolve_without_user (type : string) (req : request) :
  req_user req = None ->
  resolve type req = Identifier (Some (address_identifier req)).
Proof.
  intros Hu. unfold resolve, has_user. rewrite Hu. simpl.
  rewrite andb_false_r, orb_true_r. reflexivity.
Qed.

(** ** One request while the store can be reached *)

(** Settles, from the hypotheses, the comparisons a handler branches on. *)
Ltac settle_leb :=
  repeat match goal with
         | |- context [?a <=? ?b] =>
             first [ replace (a <=? b) with true by (symmetry; apply Z.leb_le; lia)
                   | replace (a <=? b) with false by (symmetry; apply Z.leb_gt; lia) ]
         end.

Lemma rateLimiter_billed (p : policy) (req : request) (i : string) (w w1 : World) (now : Z) :
  billed (p_type p) req = Some i ->
  read_clock w = (now, w1) ->
  run (rateLimiter p req) w =
  match run (check_and_count p req now i) w1 with
  | (inr out, w2) => (inr out, w2)
  | (inl e, w2) => (inr (Next [] None), log (RateLimitingError e) w2)
  end.
Proof.
  intros Hb Hc. unfold rateLimiter. rewrite run_try_catch, run_bind, run_date_now, Hc.
  unfold billed in Hb. destruct (resolve (p_type p) req) as [| v]; [discriminate |].
  rewrite Hb. destruct (run (check_and_count p req now i) w1) as [[e | out] w2]; reflexivity.
Qed.

Lemma rateLimiter_skipped (p : policy) (req : request) (w w1 : World) (now : Z) :
  billed (p_type p) req = None ->
  read_clock w = (now, w1) ->
  run (rateLimiter p req) w = (inr (Next [] None), w1).
Proof.
  intros Hb Hc. unfold rateLimiter. rewrite run_try_catch, run_bind, run_date_now, Hc.
  unfold billed in Hb. destruct (resolve (p_type p) req) as [| v]; [reflexivity |].
  rewrite Hb. reflexivity.
Qed.

Lemma check_create (p : policy) (req : request) (now : Z) (i : string) (w : World) :
  healthy w ->
  first_with i (collection w) = None ->
  run (check_and_count p req now i) w =
  (inr (Next (rate_headers (p_maxRequests p) (p_maxRequests p - 1) (now + p_windowMs p) req)
             None),
   mkWorld (collection w ++ [Doc (next_oid w) i 1 now now]) (S (next_oid w)) (clock w)
           (ticks w) (outages w) (failed_ops w) (console w)).
Proof.
  intros Hw Hnone. unfold check_and_count, findOne, query. simpl.
  rewrite (store_read_healthy _ w Hw), Hnone. simpl.
  rewrite (store_create_healthy _ _ _ _ w Hw). reflexivity.
Qed.

(** The stored window is live and full: the request is rejected and the
    store is only read. *)
Lemma check_reject (p : policy) (req : request) (now : Z) (i : string)
      (w w0 w1 : World) (d : doc) (t : Z) :
  reach_store w = (true, w0) ->
  first_with i (collection w0) = Some d ->
  read_clock w0 = (t, w1) ->
  t - windowStart d < p_windowMs p ->
  p_maxRequests p <= count d ->
  run (check_and_count p req now i) w =
  (inr (Respond 429 (rejection p (windowStart d + p_windowMs p) now req)), w1).
Proof.
  intros Hr Hd Hc Hlive Hfull. unfold check_and_count.
  rewrite run_bind, (run_findOne i w w0 Hr), Hd. simpl option_map. cbv iota beta.
  rewrite run_bind, (run_isWindowExpired _ _ w0 w1 t Hc). simpl fields.
  settle_leb.
  reflexivity.
Qed.

(** The stored window is live and not full: the request is counted. *)
Lemma check_count (p : policy) (req : request) (now : Z) (i : string)
      (w w1 : World) (d : doc) (t : Z) :
  healthy w ->
  first_with i (collection w) = Some d ->
  read_clock w = (t, w1) ->
  t - windowStart d < p_windowMs p ->
  count d < p_maxRequests p ->
  let r := set_lastRequest now (set_count (count d + 1) (loaded d)) in
  run (check_and_count p req now i) w =
  (inr (Next (rate_headers (p_maxRequests p) (Z.max 0 (p_maxRequests p - (count d + 1)))
                (windowStart d + p_windowMs p) req)
             (Some (loaded (fields r)))),
   with_collection (map (apply_save r) (collection w)) w1).
Proof.
  intros Hw Hd Hc Hlive Hunder r. unfold check_and_count.
  rewrite run_bind, (run_findOne i w w (reach_store_healthy w Hw)), Hd.
  simpl option_map. cbv iota beta.
  rewrite run_bind, (run_isWindowExpired _ _ w w1 t Hc). simpl fields.
  settle_leb.
  cbv zeta. fold r.
  destruct (read_clock_spec w t w1 Hc) as (_ & _ & _ & _ & Hcoll & _ & Hout & _).
  assert (Hw1 : healthy w1) by (unfold healthy in *; congruence).
  apply first_with_elem in Hd as [Hin _]. rewrite <- Hcoll in Hin.
  rewrite run_bind, (run_save_healthy r w1 d Hw1 Hin eq_refl).
  simpl. rewrite Hcoll. reflexivity.
Qed.

(** The stored window has elapsed: it is rolled over. *)
Lemma check_rollover (p : policy) (req : request) (now : Z) (i : string)
      (w w1 w2 w3 : World) (d : doc) (t t1 t2 : Z) :
  healthy w ->
  first_with i (collection w) = Some d ->
  read_clock w = (t, w1) ->
  p_windowMs p <= t - windowStart d ->
  read_clock w1 = (t1, w2) ->
  read_clock w2 = (t2, w3) ->
  let r := set_lastRequest t2 (set_windowStart t1 (set_count 1 (loaded d))) in
  run (check_and_count p req now i) w =
  (inr (Next (rate_headers (p_maxRequests p) (p_maxRequests p - 1) (now + p_windowMs p) req)
             None),
   with_collection (map (apply_save r) (collection w)) w3).
Proof.
  intros Hw Hd Hc Hexp Hc1 Hc2 r. unfold check_and_count.
  rewrite run_bind, (run_findOne i w w (reach_store_healthy w Hw)), Hd.
  simpl option_map. cbv iota beta.
  rewrite run_bind, (run_isWindowExpired _ _ w w1 t Hc). simpl fields.
  settle_leb.
  rewrite run_bind, (run_resetWindow _ w1 w2 w3 t1 t2 Hc1 Hc2). fold r.
  destruct (read_clock_spec w t w1 Hc) as (_ & _ & _ & _ & Hcoll & _ & Hout & _).
  destruct (read_clock_spec w1 t1 w2 Hc1) as (_ & _ & _ & _ & Hcoll1 & _ & Hout1 & _).
  destruct (read_clock_spec w2 t2 w3 Hc2) as (_ & _ & _ & _ & Hcoll2 & _ & Hout2 & _).
  assert (Hw3 : healthy w3) by (unfold healthy in *; congruence).
  apply first_with_elem in Hd as [Hin _].
  assert (Hin3 : In d (collection w3)) by congruence.
  rewrite run_bind, (run_save_healthy r w3 d Hw3 Hin3 eq_refl).
  simpl. replace (collection w3) with (collection w) by congruence. reflexivity.
Qed.

(** ** One request, whatever the store does *)

(** What one pass through lines 58-147 can do: an operation of the store
    that fails leaves through the exception and changes nothing; otherwise
    the answer carries the limiter's headers or is the 429 body, and the
    collection is unchanged, or has one more document, or has the found
    document saved with a [windowStart] that is not earlier. *)
Lemma check_and_count_post (p : policy) (req : request) (now : Z) (i : string)
      (w w' : World) (res : exn + outcome) :
  run (check_and_count p req now i) w = (res, w') ->
  console w' = console w /\
  match res with
  | inl e => failed_ops w' = S (failed_ops w) /\ collection w' = collection w
  | inr out =>
      failed_ops w' = failed_ops w /\
      ((exists l r t jo, out = Next (rate_headers l r t req) jo) \/
       (exists rt, out = Respond 429 (rejection p rt now req))) /\
      (collection w' = collection w \/
       (exists n, collection w' = collection w ++ [Doc n i 1 now now]) \/
       (exists d r, first_with i (collection w) = Some d /\
                    collection w' = map (apply_save r) (collection w) /\
                    (r = set_lastRequest now (set_count (count d + 1) (loaded d)) \/
                     exists t t1 t2,
                       p_windowMs p <= t - windowStart d /\ t <= t1 /\
                       r = set_lastRequest t2 (set_windowStart t1 (set_count 1 (loaded d))) /\
                       out = Next (rate_headers (p_maxRequests p) (p_maxRequests p - 1)
                                     (now + p_windowMs p) req) None)))
  end.
Proof.
  intros Hrun. unfold check_and_count in Hrun.
  rewrite run_bind in Hrun. unfold findOne in Hrun. rewrite run_query in Hrun.
  unfold store_read in Hrun.
  destruct (reach_store w) as [[|] w0] eqn:Hr;
    apply reach_store_spec in Hr as (Hc & _ & Hk & Ht & Hco & Hf);
    [| injection Hrun as <- <-; auto].
  destruct (first_with i (collection w0)) as [d |] eqn:Hd; simpl option_map in Hrun;
    cbv beta iota in Hrun.
  - rewrite run_bind in Hrun.
    destruct (read_clock w0) as [t w1] eqn:Hc1.
    rewrite (run_isWindowExpired _ _ w0 w1 t Hc1) in Hrun. simpl fields in Hrun.
    destruct (read_clock_spec w0 t w1 Hc1) as (Hle1 & _ & _ & _ & Hcoll1 & _ & _ & Hf1 & Hco1).
    destruct (Z.leb_spec (p_windowMs p) (t - windowStart d)) as [Hexp | Hlive].
    + destruct (read_clock w1) as [t1 w2] eqn:Hc2.
      destruct (read_clock w2) as [t2 w3] eqn:Hc3.
      rewrite run_bind, (run_resetWindow _ w1 w2 w3 t1 t2 Hc2 Hc3) in Hrun.
      destruct (read_clock_spec w1 t1 w2 Hc2) as (Hle2 & Hck2 & _ & _ & Hcoll2 & _ & _ & Hf2 & Hco2).
      destruct (read_clock_spec w2 t2 w3 Hc3) as (Hle3 & _ & _ & _ & Hcoll3 & _ & _ & Hf3 & Hco3).
      rewrite run_bind, run_save in Hrun.
      destruct (store_save _ w3) as [[e | r'] w4] eqn:Hs;
        apply store_save_spec in Hs as (Hco4 & _ & _ & Hres);
        injection Hrun as <- <-.
      * destruct Hres as [Hf4 Hcoll4]. split; [congruence |]. split; congruence.
      * destruct Hres as (Hf4 & _ & Hcoll4). split; [congruence |].
        split; [congruence |]. split; [left; eauto 6 |].
        right. right.
        exists d, (set_lastRequest t2 (set_windowStart t1 (set_count 1 (loaded d)))).
        split; [congruence |]. split; [rewrite Hcoll4; congruence |].
        right. exists t, t1, t2. split; [exact Hexp |].
        pose proof (read_clock_spec w0 t w1 Hc1) as (_ & Hck1 & _).
        split; [lia | split; reflexivity].
    + destruct (Z.leb_spec (p_maxRequests p) (count d)) as [Hfull | Hunder].
      * injection Hrun as <- <-. split; [congruence |]. split; [congruence |].
        split; [right; eauto |]. left. congruence.
      * cbv zeta in Hrun. rewrite run_bind, run_save in Hrun.
        destruct (store_save _ w1) as [[e | r'] w4] eqn:Hs;
          apply store_save_spec in Hs as (Hco4 & _ & _ & Hres);
          injection Hrun as <- <-.
        -- destruct Hres as [Hf4 Hcoll4]. split; [congruence |]. split; congruence.
        -- destruct Hres as (Hf4 & -> & Hcoll4). split; [congruence |].
           split; [congruence |]. split; [left; eauto 6 |].
           right. right.
           exists d, (set_lastRequest now (set_count (count d + 1) (loaded d))).
           split; [congruence |]. split; [rewrite Hcoll4; congruence |].
           left. reflexivity.
  - rewrite run_bind, run_create in Hrun.
    destruct (store_create _ _ _ _ w0) as [[e | r'] w4] eqn:Hs;
      apply store_create_spec in Hs as (Hco4 & _ & _ & Hres);
      injection Hrun as <- <-.
    + destruct Hres as [Hf4 Hcoll4]. split; [congruence |]. split; congruence.
    + destruct Hres as (Hf4 & Hcoll4). split; [congruence |].
      split; [congruence |]. split; [left; eauto 6 |].
      right. left. eexists. rewrite Hcoll4, Hc. reflexivity.
Qed.

(** The middleware always ends through [next()] or the 429 answer, never
    through an exception; an operation of the store that fails is logged and
    the request goes on without headers. *)
Lemma rateLimiter_post (p : policy) (req : request) (w : World) :
  exists (out : outcome) (w' : World),
    run (rateLimiter p req) w = (inr out, w') /\
    ((failed_ops w' = failed_ops w /\ console w' = console w /\
      (out = Next [] None \/
       (exists l r t jo, out = Next (rate_headers l r t req) jo) \/
       (exists rt now, out = Respond 429 (rejection p rt now req))) /\
      (collection w' = collection w \/
       (exists n i, billed (p_type p) req = Some i /\
                    collection w' =
                    collection w ++ [Doc n i 1 (fst (read_clock w)) (fst (read_clock w))]) \/
       (exists i d r,
           billed (p_type p) req = Some i /\
           first_with i (collection w) = Some d /\
           collection w' = map (apply_save r) (collection w) /\
           (r = set_lastRequest (fst (read_clock w)) (set_count (count d + 1) (loaded d)) \/
            exists t t1 t2,
              p_windowMs p <= t - windowStart d /\ t <= t1 /\
              r = set_lastRequest t2 (set_windowStart t1 (set_count 1 (loaded d))) /\
              out = Next (rate_headers (p_maxRequests p) (p_maxRequests p - 1)
                            (fst (read_clock w) + p_windowMs p) req) None)))) \/
     (failed_ops w' = S (failed_ops w) /\ out = Next [] None /\
      collection w' = collection w /\
      exists e, console w' = RateLimitingError e :: console w)).
Proof.
  destruct (read_clock w) as [now w1] eqn:Hc. simpl fst.
  destruct (read_clock_spec w now w1 Hc) as (_ & _ & _ & _ & Hcoll & _ & _ & Hf & Hco).
  destruct (billed (p_type p) req) as [i |] eqn:Hb.
  - rewrite (rateLimiter_billed p req i w w1 now Hb Hc).
    destruct (run (check_and_count p req now i) w1) as [[e | out] w2] eqn:Hrun;
      apply check_and_count_post in Hrun as (Hco2 & Hres).
    + destruct Hres as [Hf2 Hcoll2]. do 2 eexists. split; [reflexivity |]. right.
      simpl. repeat split; try congruence. exists e. congruence.
    + destruct Hres as (Hf2 & Hshape & Heff). do 2 eexists. split; [reflexivity |]. left.
      split; [congruence |]. split; [congruence |]. split.
      * destruct Hshape as [Hn | [rt Hr]]; [right; left; exact Hn |].
        right. right. eauto.
      * rewrite <- Hcoll.
        destruct Heff as [He | [[n He] | (d & r & Hd & He & Hr)]]; [auto | |].
        -- right. left. exists n, i. auto.
        -- right. right. exists i, d, r. auto.
  - rewrite (rateLimiter_skipped p req w w1 now Hb Hc). do 2 eexists.
    split; [reflexivity |]. left. auto 10.
Qed.

Lemma res_json_post (p : policy) (r : document) (statusCode : Z) (w : World) :
  exists w',
    run (res_json p r statusCode) w = (inr tt, w') /\
    ((failed_ops w' = failed_ops w /\ console w' = console w) \/
     (failed_ops w' = S (failed_ops w) /\ collection w' = collection w /\
      exists e, console w' = DecrementFailed e :: console w)).
Proof.
  unfold res_json.
  destruct (negb (p_skipSuccessfulRequests p) && negb (p_skipFailedRequests p));
    [exists w; split; [reflexivity | left; auto] |].
  match goal with
  | |- context [if ?b then _ else _] =>
      destruct b; [| exists w; split; [reflexivity | left; auto]]
  end.
  simpl.
  destruct (store_save (set_count (count (fields r) - 1) r) w) as [[e | r'] w1] eqn:Hs;
    apply store_save_spec in Hs as (Hco & _ & _ & Hres); simpl.
  - destruct Hres as [Hf Hcoll]. eexists. split; [reflexivity |]. right. simpl.
    split; [exact Hf |]. split; [exact Hcoll |]. exists e. congruence.
  - destruct Hres as (Hf & _ & _). exists w1. split; [reflexivity |]. left. auto.
Qed.

(** ** Requests handled one after another *)

(** Requests billed to one identifier [i] under a policy [p] that counts
    every request. *)
Section OneIdentifier.

Variable p : policy.
Variable i : string.
Hypothesis Hcounts : counts_all p.

Lemma run_res_json_counts_all (r : document) (statusCode : Z) (w : World) :
  run (res_json p r statusCode) w = (inr tt, w).
Proof. destruct Hcounts as [H1 H2]. unfold res_json. rewrite H1, H2. reflexivity. Qed.

Lemma run_serve (x : exchange) (w w1 : World) (out : outcome) :
  run (rateLimiter p (incoming x)) w = (inr out, w1) ->
  run (serve p x) w = (inr out, w1).
Proof.
  intros Hrun. unfold serve. rewrite run_bind, Hrun.
  destruct out as [hs [r |] | e | st b]; try reflexivity.
  destruct (answered_json x) as [code |]; try reflexivity.
  rewrite run_bind, (run_res_json_counts_all r code w1). reflexivity.
Qed.

Lemma serve_create (x : exchange) (w w1 : World) (now : Z) :
  billed (p_type p) (incoming x) = Some i ->
  healthy w ->
  first_with i (collection w) = None ->
  read_clock w = (now, w1) ->
  horizon w < now + p_windowMs p ->
  exists w',
    run (serve p x) w =
    (inr (Next (rate_headers (p_maxRequests p) (p_maxRequests p - 1) (now + p_windowMs p)
                  (incoming x)) None), w') /\
    live w' i 1 now (p_windowMs p) /\
    map identifier (collection w') = map identifier (collection w) ++ [i].
Proof.
  intros Hb Hw Hnone Hc Hh.
  destruct (read_clock_spec w now w1 Hc) as (_ & Hclk & _ & Hhor & Hcoll & _ & Hout & _).
  assert (Hw1 : healthy w1) by (unfold healthy in *; congruence).
  eexists. split; [| split].
  - apply (run_serve x w). rewrite (rateLimiter_billed p _ i w w1 now Hb Hc).
    rewrite (check_create p _ now i w1 Hw1) by congruence. reflexivity.
  - unfold live, healthy, horizon in *. simpl. repeat split; try lia; try assumption.
    exists (Doc (next_oid w1) i 1 now now). rewrite Hcoll.
    rewrite (first_with_app_None i _ _ Hnone). unfold first_with. simpl.
    rewrite String.eqb_refl. auto.
  - simpl. rewrite map_app, Hcoll. reflexivity.
Qed.

Lemma serve_count (x : exchange) (w : World) (c ws : Z) :
  billed (p_type p) (incoming x) = Some i ->
  live w i c ws (p_windowMs p) ->
  c < p_maxRequests p ->
  exists jo w',
    run (serve p x) w =
    (inr (Next (rate_headers (p_maxRequests p) (Z.max 0 (p_maxRequests p - (c + 1)))
                  (ws + p_windowMs p) (incoming x)) jo), w') /\
    live w' i (c + 1) ws (p_windowMs p) /\
    map identifier (collection w') = map identifier (collection w).
Proof.
  intros Hb (Hw & (d & Hd & Hcnt & Hws) & Hclk & Hhor) Hunder.
  destruct (read_clock w) as [now w1] eqn:Hc.
  destruct (read_clock w1) as [t w2] eqn:Hc1.
  destruct (read_clock_spec w now w1 Hc) as (Hle & Hck & _ & Hh & Hcoll & _ & Hout & _).
  destruct (read_clock_spec w1 t w2 Hc1) as (Hle1 & Hck1 & Hth & Hh1 & Hcoll1 & _ & Hout1 & _).
  assert (Hw1 : healthy w1) by (unfold healthy in *; congruence).
  assert (Hd1 : first_with i (collection w1) = Some d) by congruence.
  do 2 eexists. split; [| split].
  - apply (run_serve x w). rewrite (rateLimiter_billed p _ i w w1 now Hb Hc).
    rewrite (check_count p _ now i w1 w2 d t Hw1 Hd1 Hc1) by lia.
    rewrite Hcnt, Hws. reflexivity.
  - unfold live, healthy, horizon in *. simpl. repeat split; try lia; try congruence.
    rewrite (first_with_map _ i _ (apply_save_identifier _)), Hd1. simpl.
    rewrite apply_save_count_lastRequest. eexists. split; [reflexivity |]. simpl. lia.
  - simpl. rewrite map_map, Hcoll. apply map_ext. intros e. apply apply_save_identifier.
Qed.

Lemma serve_reject (x : exchange) (w : World) (c ws : Z) :
  billed (p_type p) (incoming x) = Some i ->
  live w i c ws (p_windowMs p) ->
  p_maxRequests p <= c ->
  exists now w',
    run (serve p x) w =
    (inr (Respond 429 (rejection p (ws + p_windowMs p) now (incoming x))), w') /\
    ws <= now < ws + p_windowMs p /\
    collection w' = collection w /\
    live w' i c ws (p_windowMs p).
Proof.
  intros Hb (Hw & (d & Hd & Hcnt & Hws) & Hclk & Hhor) Hover.
  destruct (read_clock w) as [now w1] eqn:Hc.
  destruct (read_clock w1) as [t w2] eqn:Hc1.
  destruct (read_clock_spec w now w1 Hc) as (Hle & Hck & Hnh & Hh & Hcoll & _ & Hout & _).
  destruct (read_clock_spec w1 t w2 Hc1) as (Hle1 & Hck1 & Hth & Hh1 & Hcoll1 & _ & Hout1 & _).
  assert (Hw1 : healthy w1) by (unfold healthy in *; congruence).
  assert (Hd1 : first_with i (collection w1) = Some d) by congruence.
  exists now, w2. split; [| split; [| split]].
  - apply (run_serve x w). rewrite (rateLimiter_billed p _ i w w1 now Hb Hc).
    rewrite (check_reject p _ now i w1 w1 w2 d t (reach_store_healthy w1 Hw1) Hd1 Hc1) by lia.
    rewrite Hws. reflexivity.
  - lia.
  - congruence.
  - unfold live, healthy in *. repeat split; try lia; try congruence.
    exists d. repeat split; congruence.
Qed.

Lemma run_serve_all_cons (x : exchange) (xs : list exchange)
      (w w1 w2 : World) (out : outcome) (outs : list outcome) :
  run (serve p x) w = (inr out, w1) ->
  run (serve_all p xs) w1 = (inr outs, w2) ->
  run (serve_all p (x :: xs)) w = (inr (out :: outs), w2).
Proof.
  intros H1 H2.
  change (serve_all p (x :: xs))
    with (bind (serve p x) (fun o => bind (serve_all p xs) (fun os => Ret (o :: os)))).
  rewrite run_bind, H1. cbv beta iota.
  rewrite run_bind, H2. reflexivity.
Qed.

Lemma serve_all_live (xs : list exchange) :
  Forall (fun x => billed (p_type p) (incoming x) = Some i) xs ->
  forall (w : World) (c ws : Z),
    live w i c ws (p_windowMs p) ->
    exists outs w',
      run (serve_all p xs) w = (inr outs, w') /\
      length outs = length xs /\
      live w' i (Z.max c (Z.min (c + Z.of_nat (length xs)) (p_maxRequests p))) ws
           (p_windowMs p) /\
      forall (n : nat) (x : exchange),
        xs !! n = Some x ->
        (c + Z.of_nat n < p_maxRequests p ->
         exists jo,
           outs !! n =
           Some (Next (rate_headers (p_maxRequests p)
                         (p_maxRequests p - (c + Z.of_nat n + 1))
                         (ws + p_windowMs p) (incoming x)) jo)) /\
        (p_maxRequests p <= c + Z.of_nat n ->
         exists now,
           ws <= now < ws + p_windowMs p /\
           outs !! n =
           Some (Respond 429 (rejection p (ws + p_windowMs p) now (incoming x)))).
Proof.
  intros Hall. induction Hall as [| x xs Hx Hall IH]; intros w c ws Hlive.
  - exists [], w. split; [reflexivity |]. split; [reflexivity |]. split.
    + simpl length. replace (Z.max c (Z.min (c + Z.of_nat 0) (p_maxRequests p))) with c by lia.
      exact Hlive.
    + intros n x Hx. rewrite lookup_nil in Hx. discriminate.
  - destruct (Z.lt_ge_cases c (p_maxRequests p)) as [Hunder | Hover].
    + destruct (serve_count x w c ws Hx Hlive Hunder) as (jo & w1 & Hrun & Hlive1 & _).
      destruct (IH w1 (c + 1) ws Hlive1) as (outs & w2 & Hruns & Hlen & Hlive2 & Hout).
      eexists. exists w2. split; [exact (run_serve_all_cons x xs w w1 w2 _ outs Hrun Hruns) |].
      split; [simpl; congruence |]. split.
      * replace (Z.max c (Z.min (c + Z.of_nat (length (x :: xs))) (p_maxRequests p)))
          with (Z.max (c + 1) (Z.min (c + 1 + Z.of_nat (length xs)) (p_maxRequests p)))
          by (simpl length; lia).
        exact Hlive2.
      * intros [| n] y Hy.
        -- injection Hy as <-. split; [| lia]. intros _. exists jo. simpl.
           do 3 f_equal. lia.
        -- simpl in Hy. destruct (Hout n y Hy) as [Ha Hr]. split.
           ++ intros Hlt. destruct Ha as [jo' Hjo]; [lia |]. exists jo'. simpl.
              rewrite Hjo. do 4 f_equal. lia.
           ++ intros Hge. destruct Hr as (now & Hnow & Hjo); [lia |]. exists now. auto.
    + destruct (serve_reject x w c ws Hx Hlive Hover)
        as (now & w1 & Hrun & Hnow & _ & Hlive1).
      destruct (IH w1 c ws Hlive1) as (outs & w2 & Hruns & Hlen & Hlive2 & Hout).
      eexists. exists w2. split; [exact (run_serve_all_cons x xs w w1 w2 _ outs Hrun Hruns) |].
      split; [simpl; congruence |]. split.
      * replace (Z.max c (Z.min (c + Z.of_nat (length (x :: xs))) (p_maxRequests p)))
          with (Z.max c (Z.min (c + Z.of_nat (length xs)) (p_maxRequests p)))
          by (simpl length; lia).
        exact Hlive2.
      * intros [| n] y Hy.
        -- injection Hy as <-. split; [lia |]. intros _. exists now. auto.
        -- simpl in Hy. destruct (Hout n y Hy) as [Ha Hr]. split; [lia |].
           intros _. destruct Hr as (now' & Hnow' & Hjo); [lia |]. exists now'. auto.
Qed.

(** The same, starting from a store with no window for the identifier. *)
Lemma serve_all_fresh (x : exchange) (xs : list exchange) (w w1 : World) (now : Z) :
  1 <= p_maxRequests p ->
  Forall (fun x => billed (p_type p) (incoming x) = Some i) (x :: xs) ->
  healthy w ->
  first_with i (collection w) = None ->
  read_clock w = (now, w1) ->
  horizon w < now + p_windowMs p ->
  exists outs w',
    run (serve_all p (x :: xs)) w = (inr outs, w') /\
    length outs = length (x :: xs) /\
    live w' i (Z.min (Z.of_nat (length (x :: xs))) (p_maxRequests p)) now (p_windowMs p) /\
    forall (n : nat) (y : exchange),
      (x :: xs) !! n = Some y ->
      (Z.of_nat n < p_maxRequests p ->
       exists jo,
         outs !! n =
         Some (Next (rate_headers (p_maxRequests p) (p_maxRequests p - 1 - Z.of_nat n)
                       (now + p_windowMs p) (incoming y)) jo)) /\
      (p_maxRequests p <= Z.of_nat n ->
       exists t,
         now <= t < now + p_windowMs p /\
         outs !! n = Some (Respond 429 (rejection p (now + p_windowMs p) t (incoming y)))).
Proof.
  intros HQ Hall Hw Hnone Hc Hh.
  apply Forall_cons in Hall as [Hx Hall].
  destruct (serve_create x w w1 now Hx Hw Hnone Hc Hh) as (w2 & Hrun & Hlive & _).
  destruct (serve_all_live xs Hall w2 1 now Hlive)
    as (outs & w3 & Hruns & Hlen & Hlive3 & Hout).
  eexists. exists w3.
  split; [exact (run_serve_all_cons x xs w w2 w3 _ outs Hrun Hruns) |].
  split; [simpl; congruence |]. split.
  - replace (Z.min (Z.of_nat (length (x :: xs))) (p_maxRequests p))
      with (Z.max 1 (Z.min (1 + Z.of_nat (length xs)) (p_maxRequests p)))
      by (simpl length; lia).
    exact Hlive3.
  - intros [| n] y Hy.
    + injection Hy as <-. split; [| lia]. intros _. exists None. simpl.
      do 3 f_equal. lia.
    + simpl in Hy. destruct (Hout n y Hy) as [Ha Hr]. split.
      * intros Hlt. destruct Ha as [jo Hjo]; [lia |]. exists jo.
        change ((?o :: outs) !! S n) with (outs !! n).
        rewrite Hjo. do 3 f_equal. lia.
      * intros Hge. destruct Hr as (t & Ht & Hjo); [lia |]. exists t. auto.
Qed.

End OneIdentifier.

(** ** Counting outcomes *)

Lemma tally_prefix (f : outcome -> bool) (outs : list outcome) (q : nat) :
  (forall n o, outs !! n = Some o ->
               ((n < q)%nat -> f o = true) /\ ((q <= n)%nat -> f o = false)) ->
  tally f outs = Nat.min q (length outs).
Proof.
  unfold tally. revert q. induction outs as [| o outs IH]; intros q H; simpl.
  - rewrite Nat.min_0_r. reflexivity.
  - destruct q as [| q].
    + rewrite (proj2 (H 0%nat o eq_refl) ltac:(lia)).
      rewrite (IH 0%nat); [reflexivity |].
      intros n o' Hn. split; [lia |]. intros _. apply (H (S n) o' Hn). lia.
    + rewrite (proj1 (H 0%nat o eq_refl) ltac:(lia)). simpl.
      rewrite (IH q); [reflexivity |].
      intros n o' Hn. destruct (H (S n) o' Hn) as [Ha Hb]. split; intros; [apply Ha | apply Hb]; lia.
Qed.

Lemma tally_suffix (f : outcome -> bool) (outs : list outcome) (q : nat) :
  (forall n o, outs !! n = Some o ->
               ((n < q)%nat -> f o = false) /\ ((q <= n)%nat -> f o = true)) ->
  tally f outs = (length outs - q)%nat.
Proof.
  unfold tally. revert q. induction outs as [| o outs IH]; intros q H; simpl.
  - reflexivity.
  - destruct q as [| q].
    + rewrite (proj2 (H 0%nat o eq_refl) ltac:(lia)). simpl.
      rewrite (IH 0%nat); [lia |].
      intros n o' Hn. split; [lia |]. intros _. apply (H (S n) o' Hn). lia.
    + rewrite (proj1 (H 0%nat o eq_refl) ltac:(lia)).
      rewrite (IH q); [reflexivity |].
      intros n o' Hn. destruct (H (S n) o' Hn) as [Ha Hb]. split; intros; [apply Ha | apply Hb]; lia.
Qed.

(** ** The statistics *)

Lemma getUserRateLimit_found (req : request) (u : User.t) (i : string) (d : doc) (w : World) :
  healthy w ->
  req_user req = Some u -> User.id u = Some i -> truthy (Some i) = true ->
  first_with i (collection w) = Some d ->
  run (getUserRateLimit req) w =
  (inr (Respond 200
          (JObj [ ("success", JBool true);
                  ("data", JObj [ ("currentUsage", JNum (count d));
                                  ("limit", JNum 60);
                                  ("remaining", JNum (Z.max 0 (60 - count d)));
                                  ("resetTime", JDate (windowStart d + 60000));
                                  ("windowMs", JNum 60000);
                                  ("lastRequest", JDate (lastRequest d)) ]) ])),
   snd (read_clock w)).
Proof.
  intros Hw Hu Hi Ht Hd. unfold getUserRateLimit. rewrite run_try_catch, Hu. simpl mbind.
  rewrite Hi, Ht. simpl negb. cbv iota.
  rewrite run_bind, (run_findOne i w w (reach_store_healthy w Hw)), Hd. simpl option_map.
  cbv iota beta. rewrite run_bind, run_date_now.
  destruct (read_clock w) as [now w1]. reflexivity.
Qed.

Lemma getUserRateLimit_absent (req : request) (u : User.t) (i : string) (w : World) :
  healthy w ->
  req_user req = Some u -> User.id u = Some i -> truthy (Some i) = true ->
  first_with i (collection w) = None ->
  run (getUserRateLimit req) w =
  (inr (Respond 200
          (JObj [ ("success", JBool true);
                  ("data", JObj [ ("currentUsage", JNum 0);
                                  ("limit", JNum 60);
                                  ("remaining", JNum 60);
                                  ("resetTime", JDate (fst (read_clock w) + 60000));
                                  ("windowMs", JNum 60000) ]) ])),
   snd (read_clock w)).
Proof.
  intros Hw Hu Hi Ht Hd. unfold getUserRateLimit. rewrite run_try_catch, Hu. simpl mbind.
  rewrite Hi, Ht. simpl negb. cbv iota.
  rewrite run_bind, (run_findOne i w w (reach_store_healthy w Hw)), Hd. simpl option_map.
  cbv iota beta. rewrite run_bind, run_date_now.
  destruct (read_clock w) as [now w1]. reflexivity.
Qed.

#[local] Instance later_total : Total later.
Proof. intros a b. unfold later. lia. Qed.

#[local] Instance later_trans : Transitive later.
Proof. intros a b c. unfold later. lia. Qed.

Lemma find_recent_spec (c : list doc) :
  exists rest,
    find_recent c ++ rest ≡ₚ c /\
    StronglySorted later (find_recent c ++ rest) /\
    length (find_recent c) = Nat.min 10 (length c).
Proof.
  unfold find_recent. exists (drop 10 (merge_sort later c)).
  rewrite take_drop. split; [apply merge_sort_Permutation |].
  split; [apply StronglySorted_merge_sort; apply _ |].
  rewrite length_take. rewrite (Permutation_length (merge_sort_Permutation later c)).
  reflexivity.
Qed.

Lemma run_getAllRateLimitStats (req : request) (w : World) :
  healthy w ->
  run (getAllRateLimitStats req) w =
  (inr (Respond 200
          (JObj [ ("success", JBool true);
                  ("data",
                   JObj [ ("summary",
                           match aggregate_group (collection w) with
                           | s :: _ => s
                           | [] => JObj [ ("totalUsers", JNum 0);
                                          ("totalRequests", JNum 0);
                                          ("avgRequestsPerUser", JNum 0) ]
                           end);
                          ("recentActivity",
                           JArr (map select (find_recent (collection w)))) ]) ])), w).
Proof.
  intros Hw. unfold getAllRateLimitStats.
  rewrite run_try_catch, run_bind, run_query, (store_read_healthy _ w Hw).
  cbv beta iota. rewrite run_bind, run_query, (store_read_healthy _ w Hw). reflexivity.
Qed.

Lemma getAllRateLimitStats_reads (req : request) (w : World) :
  collection (snd (run (getAllRateLimitStats req) w)) = collection w.
Proof.
  unfold getAllRateLimitStats. rewrite run_try_catch, run_bind, run_query.
  unfold store_read at 1.
  destruct (reach_store w) as [[|] w0] eqn:Hr;
    apply reach_store_spec in Hr as (Hc & _); [| simpl; exact Hc].
  cbv beta iota. rewrite run_bind, run_query. unfold store_read.
  destruct (reach_store w0) as [[|] w1] eqn:Hr1;
    apply reach_store_spec in Hr1 as (Hc1 & _); simpl; congruence.
Qed.

(** * The claims *)

(** C1: with a window of 60000 ms and a quota of 60 (and every request
    counted), sixty-one requests billed to one identifier that has no stored
    window, all handled before the window that the first one opens has
    elapsed: request number [n] of the first sixty is let through with
    [X-RateLimit-Remaining] [59 - n] (59, 58, ..., 0), limit 60 and reset time
    the start of the window plus 60000; the sixty-first is answered 429 with
    [remaining] 0 and [retryAfter] at most 60; the stored window then holds
    count 60 and began at the first request. *)
Theorem C1_sixty_then_rejected
        (p : policy) (i : string) (xs : list exchange) (w : World) :
  p_windowMs p = 60000 ->
  p_maxRequests p = 60 ->
  counts_all p ->
  length xs = 61%nat ->
  Forall (fun x => billed (p_type p) (incoming x) = Some i) xs ->
  healthy w ->
  first_with i (collection w) = None ->
  horizon w < fst (read_clock w) + 60000 ->
  exists (outs : list outcome) (w' : World),
    run (serve_all p xs) w = (inr outs, w') /\
    (forall (n : nat) (x : exchange),
        (n < 60)%nat -> xs !! n = Some x ->
        exists jo,
          outs !! n =
          Some (Next [ ("X-RateLimit-Limit", JNum 60);
                       ("X-RateLimit-Remaining", JNum (59 - Z.of_nat n));
                       ("X-RateLimit-Reset", JDate (fst (read_clock w) + 60000));
                       ("X-RateLimit-Type", JStr (limiter_type (incoming x))) ] jo)) /\
    (exists (x : exchange) (retryAfter : Z),
        xs !! 60%nat = Some x /\
        outs !! 60%nat =
        Some (Respond 429
                (JObj [ ("success", JBool false);
                        ("message", JStr (p_message p));
                        ("error", JStr "RATE_LIMIT_EXCEEDED");
                        ("retryAfter", JNum retryAfter);
                        ("limit", JNum 60);
                        ("remaining", JNum 0);
                        ("resetTime", JDate (fst (read_clock w) + 60000));
                        ("type", JStr (limiter_type (incoming x))) ])) /\
        0 < retryAfter <= 60) /\
    (exists d, first_with i (collection w') = Some d /\
               count d = 60 /\ windowStart d = fst (read_clock w)).
Proof.
  intros HW HQ Hp Hlen Hall Hw Hnone Hh.
  destruct xs as [| x xs]; [discriminate |].
  destruct (read_clock w) as [now w1] eqn:Hc. simpl fst in *.
  destruct (serve_all_fresh p i Hp x xs w w1 now ltac:(lia) Hall Hw Hnone Hc ltac:(lia))
    as (outs & w' & Hrun & Hlen' & Hlive & Hout).
  rewrite HW, HQ in *. rewrite Hlen in Hlive.
  exists outs, w'. split; [exact Hrun |]. split; [| split].
  - intros n y Hn Hy. destruct (Hout n y Hy) as [Ha _].
    destruct Ha as [jo Hjo]; [lia |]. exists jo. rewrite Hjo.
    unfold rate_headers. replace (60 - 1 - Z.of_nat n) with (59 - Z.of_nat n) by lia.
    reflexivity.
  - destruct (lookup_lt_is_Some_2 (x :: xs) 60) as [y Hy]; [lia |].
    destruct (Hout 60%nat y Hy) as [_ Hr].
    destruct Hr as (t & Ht & Hjo); [lia |].
    exists y, (Math_ceil_div (now + 60000 - t) 1000). split; [exact Hy |].
    split; [rewrite Hjo; unfold rejection; rewrite HQ; reflexivity |].
    apply Math_ceil_div_bounds; lia.
  - destruct Hlive as (_ & (d & Hd & Hcnt & Hws) & _). exists d. auto.
Qed.

Lemma C1_witness :
  let p := Policy 60000 60 "Too many requests. Please slow down." false false "ip" in
  let x := {| incoming := {| req_user := None; req_ip := Some "203.0.113.7";
                             req_connection := None |};
              answered_json := Some 200 |} in
  exists (outs : list outcome) (w' : World),
    run (serve_all p (repeat x 61)) (empty_world 1000 (repeat 7%nat 130)) = (inr outs, w') /\
    exists d, first_with "203.0.113.7" (collection w') = Some d /\ count d = 60.
Proof.
  intros p x.
  destruct (C1_sixty_then_rejected p "203.0.113.7" (repeat x 61)
              (empty_world 1000 (repeat 7%nat 130)))
    as (outs & w' & Hrun & _ & _ & d & Hd & Hcnt & _).
  - reflexivity.
  - reflexivity.
  - split; reflexivity.
  - reflexivity.
  - repeat constructor.
  - reflexivity.
  - reflexivity.
  - vm_compute. reflexivity.
  - exists outs, w'. split; [exact Hrun |]. exists d. split; assumption.
Defined.

(** C2: a request billed to an identifier whose stored window is still live
    when [isWindowExpired] reads the clock (age below [windowMs]) and whose
    stored count has reached [maxRequests] is answered with status 429 and
    the body [{success: false, message, error: "RATE_LIMIT_EXCEEDED",
    retryAfter, limit, remaining: 0, resetTime, type}], where [resetTime] is
    [windowStart + windowMs], [retryAfter] is the ceiling of
    [(resetTime - now) / 1000] and [type] is "ip" or "token"; the
    collection is left as it was, so the stored window keeps its count,
    [windowStart] and [lastRequest]. *)
Theorem C2_reject_leaves_window
        (p : policy) (req : request) (i : string) (d : doc)
        (w w0 w1 w2 : World) (now t : Z) :
  billed (p_type p) req = Some i ->
  first_with i (collection w) = Some d ->
  read_clock w = (now, w0) ->
  reach_store w0 = (true, w1) ->
  read_clock w1 = (t, w2) ->
  t - windowStart d < p_windowMs p ->
  p_maxRequests p <= count d ->
  let resetAt := windowStart d + p_windowMs p in
  let retryAfter := Math_ceil_div (resetAt - now) 1000 in
  run (rateLimiter p req) w =
  (inr (Respond 429
          (JObj [ ("success", JBool false);
                  ("message", JStr (p_message p));
                  ("error", JStr "RATE_LIMIT_EXCEEDED");
                  ("retryAfter", JNum retryAfter);
                  ("limit", JNum (p_maxRequests p));
                  ("remaining", JNum 0);
                  ("resetTime", JDate resetAt);
                  ("type", JStr (limiter_type req)) ])), w2) /\
  (retryAfter - 1) * 1000 < resetAt - now <= retryAfter * 1000 /\
  (limiter_type req = "ip" \/ limiter_type req = "token") /\
  collection w2 = collection w /\
  first_with i (collection w2) = Some d.
Proof.
  intros Hb Hd Hc Hr Hc1 Hlive Hfull resetAt retryAfter.
  destruct (read_clock_spec w now w0 Hc) as (_ & _ & _ & _ & Hcoll & _).
  destruct (reach_store_spec w0 w1 true Hr) as (Hcoll0 & _).
  destruct (read_clock_spec w1 t w2 Hc1) as (_ & _ & _ & _ & Hcoll1 & _).
  assert (Hd1 : first_with i (collection w1) = Some d) by congruence.
  assert (Hsame : collection w2 = collection w) by congruence.
  split; [| split; [| split; [| split]]].
  - rewrite (rateLimiter_billed p req i w w0 now Hb Hc).
    rewrite (check_reject p req now i w0 w1 w2 d t Hr Hd1 Hc1 Hlive Hfull). reflexivity.
  - apply Math_ceil_div_spec. lia.
  - unfold limiter_type. destruct (has_user req); auto.
  - exact Hsame.
  - rewrite Hsame. exact Hd.
Qed.

Lemma C2_witness :
  let p := Policy 60000 2 "Too many requests. Please slow down." false false "hybrid" in
  let req := {| req_user := Some (User.mk (Some "64f0c2") (Some "64f0c2"));
                req_ip := Some "203.0.113.7"; req_connection := None |} in
  let d := Doc 0 "64f0c2" 2 4000 1000 in
  let w := mkWorld [d] 1 5000 [250%nat; 10%nat] [] 0 [] in
  exists w',
    run (rateLimiter p req) w =
    (inr (Respond 429
            (JObj [ ("success", JBool false);
                    ("message", JStr "Too many requests. Please slow down.");
                    ("error", JStr "RATE_LIMIT_EXCEEDED");
                    ("retryAfter", JNum 56);
                    ("limit", JNum 2);
                    ("remaining", JNum 0);
                    ("resetTime", JDate 61000);
                    ("type", JStr "token") ])), w') /\
    collection w' = [d].
Proof.
  intros p req d w.
  pose proof (C2_reject_leaves_window p req "64f0c2" d w
                (mkWorld [d] 1 5250 [10%nat] [] 0 [])
                (mkWorld [d] 1 5250 [10%nat] [] 0 [])
                (mkWorld [d] 1 5260 [] [] 0 []) 5250 5260
                eq_refl eq_refl eq_refl eq_refl eq_refl eq_refl) as H.
  destruct H as (Hrun & _ & _ & Hcoll & _).
  - vm_compute. discriminate.
  - exists (mkWorld [d] 1 5260 [] [] 0 []). split; [exact Hrun | exact Hcoll].
Defined.

(** C3, as the code has it: [findOne] and [save]/[create] are two
    operations of the store with an [await] between them, and nothing makes
    the pair atomic.  When the requests of one identifier are handled one
    after another, under a policy that counts every request (neither
    [skipSuccessfulRequests] nor [skipFailedRequests]), while the store can
    be reached and starting with no window stored for the identifier, [N]
    requests against [maxRequests = Q], with [1 <= Q < N], within the window
    the first one opens, give exactly [Q] requests let through and [N - Q]
    answered 429, and the stored count ends at [Q]. *)
Theorem C3_one_at_a_time_exact
        (p : policy) (i : string) (xs : list exchange) (w : World) :
  counts_all p ->
  1 <= p_maxRequests p < Z.of_nat (length xs) ->
  Forall (fun x => billed (p_type p) (incoming x) = Some i) xs ->
  healthy w ->
  first_with i (collection w) = None ->
  horizon w < fst (read_clock w) + p_windowMs p ->
  exists (outs : list outcome) (w' : World),
    run (serve_all p xs) w = (inr outs, w') /\
    Z.of_nat (tally let_through outs) = p_maxRequests p /\
    Z.of_nat (tally rejected outs) = Z.of_nat (length xs) - p_maxRequests p /\
    exists d, first_with i (collection w') = Some d /\ count d = p_maxRequests p.
Proof.
  intros Hp [HQ HN] Hall Hw Hnone Hh.
  destruct xs as [| x xs]; [simpl in HN; lia |].
  destruct (read_clock w) as [now w1] eqn:Hc. simpl fst in Hh.
  destruct (serve_all_fresh p i Hp x xs w w1 now HQ Hall Hw Hnone Hc Hh)
    as (outs & w' & Hrun & Hlen & Hlive & Hout).
  exists outs, w'. split; [exact Hrun |].
  assert (Hcases : forall n o, outs !! n = Some o ->
            ((n < Z.to_nat (p_maxRequests p))%nat ->
             let_through o = true /\ rejected o = false) /\
            ((Z.to_nat (p_maxRequests p) <= n)%nat ->
             let_through o = false /\ rejected o = true)).
  { intros n o Ho.
    destruct (lookup_lt_is_Some_2 (x :: xs) n) as [y Hy].
    { rewrite <- Hlen. apply (lookup_lt_Some outs n o Ho). }
    destruct (Hout n y Hy) as [Ha Hr]. split; intros Hn.
    - destruct Ha as [jo Hjo]; [lia |]. rewrite Hjo in Ho. injection Ho as <-. auto.
    - destruct Hr as (t & _ & Hjo); [lia |]. rewrite Hjo in Ho. injection Ho as <-. auto. }
  split; [| split].
  - rewrite (tally_prefix let_through outs (Z.to_nat (p_maxRequests p))).
    + rewrite Hlen. lia.
    + intros n o Ho. destruct (Hcases n o Ho) as [Ha Hr].
      split; intros Hn; [apply Ha | apply Hr]; exact Hn.
  - rewrite (tally_suffix rejected outs (Z.to_nat (p_maxRequests p))).
    + rewrite Hlen. lia.
    + intros n o Ho. destruct (Hcases n o Ho) as [Ha Hr].
      split; intros Hn; [apply Ha | apply Hr]; exact Hn.
  - destruct Hlive as (_ & (d & Hd & Hcnt & _) & _). exists d. split; [exact Hd |].
    rewrite Hcnt. lia.
Qed.

Lemma C3_witness :
  let p := Policy 60000 3 "Too many registration attempts. Please wait before trying again."
                  false false "ip" in
  let x := {| incoming := {| req_user := None; req_ip := Some "203.0.113.7";
                             req_connection := None |};
              answered_json := Some 201 |} in
  exists (outs : list outcome) (w' : World),
    run (serve_all p [x; x; x; x; x]) (empty_world 1000 (repeat 7%nat 10)) = (inr outs, w') /\
    tally let_through outs = 3%nat /\ tally rejected outs = 2%nat.
Proof.
  intros p x.
  destruct (C3_one_at_a_time_exact p "203.0.113.7" [x; x; x; x; x]
              (empty_world 1000 (repeat 7%nat 10)))
    as (outs & w' & Hrun & Hthrough & Hrej & _).
  - split; reflexivity.
  - simpl. lia.
  - repeat constructor.
  - reflexivity.
  - reflexivity.
  - vm_compute. reflexivity.
  - exists outs, w'. split; [exact Hrun |]. simpl in Hthrough, Hrej. lia.
Defined.

(** C3 as stated fails: two requests of one address in flight together,
    with both [findOne] answered before either write.  Against a quota of 1
    and an empty store both requests are let through and none is rejected,
    where the claim has one of each, and the collection ends with two
    windows for the address.  Against a quota of 2 and a stored count of 1
    both read the count 1, both are let through and both save the count 2:
    three requests have gone through in the window. *)
Lemma C3_race_lets_both_through :
  let req := {| req_user := None; req_ip := Some "203.0.113.7"; req_connection := None |} in
  (let p := Policy 60000 1 "Too many requests from this IP address." false false "ip" in
   let result :=
     concurrently p [req; req] [0; 1; 0; 1]%nat (empty_world 1000 [5%nat; 5%nat]) in
   let outs := omap (fun o => o) (fst result) in
   length outs = 2%nat /\
   tally let_through outs = 2%nat /\
   tally rejected outs = 0%nat /\
   Z.of_nat (tally let_through outs) <> p_maxRequests p /\
   map identifier (collection (snd result)) = ["203.0.113.7"; "203.0.113.7"]) /\
  (let p := Policy 60000 2 "Too many requests from this IP address." false false "ip" in
   let w := mkWorld [Doc 0 "203.0.113.7" 1 900 900] 1 1000 (repeat 5%nat 4) [] 0 [] in
   let result := concurrently p [req; req] [0; 1; 0; 1]%nat w in
   let outs := omap (fun o => o) (fst result) in
   tally let_through outs = 2%nat /\
   tally rejected outs = 0%nat /\
   map count (collection (snd result)) = [2]).
Proof. vm_compute. repeat split; discriminate. Qed.

(** C4, as the code has it: under the strategy "token" a request without
    [req.user] takes the branch of the network address, as under the
    strategy "ip": it is billed to the normalised address and handled by the
    same program.  It is passed on unlimited, with the store not consulted
    and no header set, only when no address is available (the identifier is
    'unknown'). *)
Theorem C4_token_without_user_uses_address (p : policy) (req : request) :
  p_type p = "token" ->
  req_user req = None ->
  resolve (p_type p) req = Identifier (Some (address_identifier req)) /\
  billed (p_type p) req = billed "ip" req /\
  billed (p_type p) req =
    (if String.eqb (address_identifier req) "unknown" then None
     else Some (address_identifier req)) /\
  rateLimiter p req =
    rateLimiter (Policy (p_windowMs p) (p_maxRequests p) (p_message p)
                        (p_skipSuccessfulRequests p) (p_skipFailedRequests p) "ip") req /\
  (forall w : World,
      address_identifier req = "unknown" ->
      run (rateLimiter p req) w = (inr (Next [] None), snd (read_clock w)) /\
      collection (snd (read_clock w)) = collection w /\
      outages (snd (read_clock w)) = outages w).
Proof.
  intros Hty Hu.
  assert (Hres : resolve (p_type p) req = Identifier (Some (address_identifier req)))
    by (apply resolve_without_user; exact Hu).
  assert (Hip : resolve "ip" req = Identifier (Some (address_identifier req)))
    by (apply resolve_without_user; exact Hu).
  assert (Hb : billed (p_type p) req = usable (Some (address_identifier req)))
    by (unfold billed; rewrite Hres; reflexivity).
  split; [exact Hres |]. split; [| split; [| split]].
  - rewrite Hb. unfold billed. rewrite Hip. reflexivity.
  - rewrite Hb. apply usable_address.
  - unfold rateLimiter. simpl p_type. rewrite Hres, Hip. destruct p. reflexivity.
  - intros w Haddr. destruct (read_clock w) as [now w1] eqn:Hc. simpl snd.
    destruct (read_clock_spec w now w1 Hc) as (_ & _ & _ & _ & Hcoll & _ & Hout & _).
    split; [| split; assumption].
    apply (rateLimiter_skipped p req w w1 now); [| exact Hc].
    rewrite Hb, usable_address, Haddr. reflexivity.
Qed.

Lemma C4_witness :
  let p := Policy 60000 60 "Too many requests. Please slow down." false false "token" in
  let req := {| req_user := None; req_ip := Some "::1"; req_connection := None |} in
  billed (p_type p) req = Some "localhost".
Proof.
  intros p req.
  destruct (C4_token_without_user_uses_address p req eq_refl eq_refl) as (_ & _ & Hb & _).
  rewrite Hb. reflexivity.
Defined.

(** C4 as stated fails: under the strategy "token" a request without
    [req.user] coming from 203.0.113.7 is not skipped.  It is billed to that
    address, a window is created for it in the store, and the rate-limit
    headers are set, with type "ip". *)
Lemma C4_token_without_user_is_limited :
  let p := Policy 60000 60 "Too many requests. Please slow down." false false "token" in
  let req := {| req_user := None; req_ip := Some "203.0.113.7"; req_connection := None |} in
  billed (p_type p) req = Some "203.0.113.7" /\
  billed (p_type p) req <> None /\
  run (rateLimiter p req) (empty_world 1000 []) =
  (inr (Next [ ("X-RateLimit-Limit", JNum 60);
               ("X-RateLimit-Remaining", JNum 59);
               ("X-RateLimit-Reset", JDate 61000);
               ("X-RateLimit-Type", JStr "ip") ] None),
   mkWorld [Doc 0 "203.0.113.7" 1 1000 1000] 1 1000 [] [] 0 []).
Proof. vm_compute. repeat split; discriminate. Qed.

(** C5, as the code has it: when a request is handled from start to end
    with no other handler in between, with a positive window length,
    handling it never moves the [windowStart] of a stored window backward.
    A stored window advances only when it is the window the request is
    billed to and the new start is at least one window length after the old
    one; its count is then 1 and the request goes through with the headers
    [X-RateLimit-Limit: maxRequests],
    [X-RateLimit-Remaining: maxRequests - 1],
    [X-RateLimit-Reset: now + windowMs] and [X-RateLimit-Type].  While the
    store can be reached, the window the request is billed to advances
    exactly when its age, at the reading of the clock taken by
    [isWindowExpired], is at least [windowMs]. *)
Theorem C5_window_start_advances_on_rollover (p : policy) (req : request) (w : World) :
  0 < p_windowMs p ->
  unique_ids (collection w) ->
  exists (out : outcome) (w' : World),
    run (rateLimiter p req) w = (inr out, w') /\
    (forall (k : nat) (d : doc),
        collection w !! k = Some d ->
        exists d',
          collection w' !! k = Some d' /\
          _id d' = _id d /\ identifier d' = identifier d /\
          windowStart d <= windowStart d' /\
          (windowStart d < windowStart d' ->
           billed (p_type p) req = Some (identifier d) /\
           first_with (identifier d) (collection w) = Some d /\
           p_windowMs p <= windowStart d' - windowStart d /\
           count d' = 1 /\
           out = Next [ ("X-RateLimit-Limit", JNum (p_maxRequests p));
                        ("X-RateLimit-Remaining", JNum (p_maxRequests p - 1));
                        ("X-RateLimit-Reset",
                         JDate (fst (read_clock w) + p_windowMs p));
                        ("X-RateLimit-Type",
                         JStr (if has_user req then "token" else "ip")) ] None)) /\
    (forall (i : string) (d : doc),
        healthy w ->
        billed (p_type p) req = Some i ->
        first_with i (collection w) = Some d ->
        let age := fst (read_clock (snd (read_clock w))) - windowStart d in
        exists d',
          first_with i (collection w') = Some d' /\
          (windowStart d < windowStart d' <-> p_windowMs p <= age)).
Proof.
  intros HW Huniq.
  destruct (rateLimiter_post p req w) as (out & w' & Hrun & Hcases).
  exists out, w'. split; [exact Hrun |]. split.
  - intros k e Hk.
    assert (Hsame : collection w' !! k = Some e ->
                    exists d', collection w' !! k = Some d' /\
                      _id d' = _id e /\ identifier d' = identifier e /\
                      windowStart e <= windowStart d' /\
                      (windowStart e < windowStart d' ->
                       billed (p_type p) req = Some (identifier e) /\
                       first_with (identifier e) (collection w) = Some e /\
                       p_windowMs p <= windowStart d' - windowStart e /\
                       count d' = 1 /\
                       out = Next [ ("X-RateLimit-Limit", JNum (p_maxRequests p));
                                    ("X-RateLimit-Remaining", JNum (p_maxRequests p - 1));
                                    ("X-RateLimit-Reset",
                                     JDate (fst (read_clock w) + p_windowMs p));
                                    ("X-RateLimit-Type",
                                     JStr (if has_user req then "token" else "ip")) ]
                                  None)).
    { intros H. exists e. split; [exact H |]. repeat split; try lia; intros; exfalso; lia. }
    destruct Hcases as [(_ & _ & _ & Heff) | (_ & _ & Hcoll & _)];
      [| apply Hsame; congruence].
    destruct Heff as [Hcoll | [(n & i & _ & Hcoll) | (i & d & r & Hb & Hd & Hcoll & Hr)]].
    + apply Hsame. congruence.
    + apply Hsame. rewrite Hcoll. apply lookup_app_l_Some. exact Hk.
    + pose proof (first_with_elem i _ d Hd) as [Hin Hi].
      assert (Hid : _id (fields r) = _id d)
        by (destruct Hr as [-> | (t & t1 & t2 & _ & _ & -> & _)]; reflexivity).
      destruct (Nat.eq_dec (_id e) (_id d)) as [Heq | Hne].
      * assert (e = d) by (apply (unique_ids_eq _ d e Huniq Hin (lookup_In _ k e Hk) Heq)).
        subst e. rewrite Hcoll.
        destruct Hr as [-> | (t & t1 & t2 & Hexp & Hle & -> & Hout)].
        -- exists (apply_save (set_lastRequest (fst (read_clock w))
                                (set_count (count d + 1) (loaded d))) d).
           split; [apply lookup_map; exact Hk |].
           rewrite apply_save_count_lastRequest. simpl.
           repeat split; try lia; intros; exfalso; lia.
        -- exists (apply_save (set_lastRequest t2 (set_windowStart t1
                                (set_count 1 (loaded d)))) d).
           split; [apply lookup_map; exact Hk |].
           rewrite apply_save_reset. simpl.
           repeat split; try lia; try congruence.
           rewrite Hout. reflexivity.
      * apply Hsame. rewrite Hcoll, (lookup_map _ _ k e Hk).
        rewrite apply_save_other by congruence. reflexivity.
  - intros i d Hw Hb Hd age. subst age.
    destruct (read_clock w) as [now w1] eqn:Hc. simpl snd.
    destruct (read_clock w1) as [t w2] eqn:Hc1. simpl fst.
    destruct (read_clock_spec w now w1 Hc) as (_ & _ & _ & _ & Hcoll & _ & Hout & _).
    destruct (read_clock_spec w1 t w2 Hc1) as (_ & Hck1 & _ & _ & Hcoll1 & _ & Hout1 & _).
    assert (Hw1 : healthy w1) by (unfold healthy in *; congruence).
    assert (Hd1 : first_with i (collection w1) = Some d) by congruence.
    rewrite (rateLimiter_billed p req i w w1 now Hb Hc) in Hrun.
    destruct (Z.le_gt_cases (p_windowMs p) (t - windowStart d)) as [Hexp | Hlive].
    + destruct (read_clock w2) as [t1 w3] eqn:Hc2.
      destruct (read_clock w3) as [t2 w4] eqn:Hc3.
      destruct (read_clock_spec w2 t1 w3 Hc2) as (Hle2 & _).
      rewrite (check_rollover p req now i w1 w2 w3 w4 d t t1 t2 Hw1 Hd1 Hc1 Hexp Hc2 Hc3)
        in Hrun.
      injection Hrun as _ <-. simpl collection.
      rewrite (first_with_map _ i _ (apply_save_identifier _)), Hd1. simpl option_map.
      rewrite apply_save_reset. eexists. split; [reflexivity |]. simpl. lia.
    + destruct (Z.le_gt_cases (p_maxRequests p) (count d)) as [Hfull | Hunder].
      * rewrite (check_reject p req now i w1 w1 w2 d t (reach_store_healthy w1 Hw1)
                   Hd1 Hc1 Hlive Hfull) in Hrun.
        injection Hrun as _ <-. exists d. split; [congruence | lia].
      * rewrite (check_count p req now i w1 w2 d t Hw1 Hd1 Hc1 Hlive Hunder) in Hrun.
        injection Hrun as _ <-. simpl collection.
        rewrite (first_with_map _ i _ (apply_save_identifier _)), Hd1. simpl option_map.
        rewrite apply_save_count_lastRequest. eexists. split; [reflexivity |]. simpl. lia.
Qed.

(** A window that began at 500 is found at 70005 under a window length of
    60000: it is rolled over, and the other window is untouched. *)
Lemma C5_witness :
  let p := Policy 60000 20 "Too many requests from this IP address." false false "ip" in
  let req := {| req_user := None; req_ip := Some "203.0.113.7"; req_connection := None |} in
  let w := mkWorld [Doc 0 "203.0.113.7" 5 900 500; Doc 1 "198.51.100.4" 2 100 100] 2
                   70000 [5%nat; 5%nat; 5%nat; 5%nat] [] 0 [] in
  exists (out : outcome) (w' : World),
    run (rateLimiter p req) w = (inr out, w') /\
    collection w' = [Doc 0 "203.0.113.7" 1 70020 70015; Doc 1 "198.51.100.4" 2 100 100] /\
    out = Next [ ("X-RateLimit-Limit", JNum 20);
                 ("X-RateLimit-Remaining", JNum 19);
                 ("X-RateLimit-Reset", JDate 130005);
                 ("X-RateLimit-Type", JStr "ip") ] None /\
    exists d', first_with "203.0.113.7" (collection w') = Some d' /\
               500 < windowStart d'.
Proof.
  intros p req w.
  destruct (C5_window_start_advances_on_rollover p req w)
    as (out & w' & Hrun & Hmove & Hadv).
  - reflexivity.
  - unfold unique_ids. simpl. apply (bool_decide_unpack _). vm_compute. exact I.
  - destruct (Hadv "203.0.113.7" (Doc 0 "203.0.113.7" 5 900 500) eq_refl eq_refl eq_refl)
      as (d' & Hd' & Hiff).
    assert (Hcoll : collection w' =
                    [Doc 0 "203.0.113.7" 1 70020 70015; Doc 1 "198.51.100.4" 2 100 100]).
    { pose proof Hrun as Hrun'. vm_compute in Hrun'. injection Hrun' as _ <-. reflexivity. }
    exists out, w'. split; [exact Hrun |]. split; [exact Hcoll |]. split.
    + destruct (Hmove 0%nat (Doc 0 "203.0.113.7" 5 900 500) eq_refl)
        as (d0 & Hk & _ & _ & _ & Hmoved).
      rewrite Hcoll in Hk. injection Hk as <-.
      destruct Hmoved as (_ & _ & _ & _ & Hout); [simpl; lia |]. exact Hout.
    + exists d'. split; [exact Hd' |]. apply Hiff. vm_compute. discriminate.
Defined.

(** C5 as stated fails for requests in flight together.  Two requests of
    one address find the same elapsed window (begun at 500, count 5, found
    after 70000 under a window length of 60000); each handler reads the clock
    for its new window when its [findOne] is answered and saves later.
    When the second handler's [save] is answered first, the stored
    [windowStart] is 70035 and the first handler's [save] then moves it back
    to 70020.  When the first handler's [save] is answered first, the second
    one rolls over a window that began 15 ms before, and the stored count is
    1 although two requests have gone through in that window. *)
Lemma C5_race_moves_window_start_back :
  let p := Policy 60000 20 "Too many requests from this IP address." false false "ip" in
  let req := {| req_user := None; req_ip := Some "203.0.113.7"; req_connection := None |} in
  let w := mkWorld [Doc 0 "203.0.113.7" 5 900 500] 1 70000 (repeat 5%nat 8) [] 0 [] in
  (let before := concurrently p [req; req] [0; 1; 1]%nat w in
   let after := concurrently p [req; req] [0; 1; 1; 0]%nat w in
   map windowStart (collection (snd before)) = [70035] /\
   map windowStart (collection (snd after)) = [70020] /\
   tally let_through (omap (fun o => o) (fst after)) = 2%nat) /\
  (let before := concurrently p [req; req] [0; 1; 0]%nat w in
   let after := concurrently p [req; req] [0; 1; 0; 1]%nat w in
   map windowStart (collection (snd before)) = [70020] /\
   map windowStart (collection (snd after)) = [70035] /\
   70035 - 70020 < p_windowMs p /\
   map count (collection (snd after)) = [1] /\
   tally let_through (omap (fun o => o) (fst after)) = 2%nat).
Proof. vm_compute. repeat split. Qed.

(** C6: a request whose address is "::1" and one whose address is
    "127.0.0.1" are both billed, under the strategy "ip", to the identifier
    "localhost" and are handled by the same program when they agree on
    [req.user].  Handling either adds no window under another identifier;
    and one of each, handled within one window against a quota of at least
    2, leave a single window "localhost" with count 2. *)
Theorem C6_loopback_one_bucket (p : policy) (x1 x2 : exchange) (w : World) :
  p_type p = "ip" ->
  req_ip (incoming x1) = Some "::1" ->
  req_ip (incoming x2) = Some "127.0.0.1" ->
  billed (p_type p) (incoming x1) = Some "localhost" /\
  billed (p_type p) (incoming x2) = Some "localhost" /\
  (has_user (incoming x1) = has_user (incoming x2) ->
   rateLimiter p (incoming x1) = rateLimiter p (incoming x2)) /\
  (forall x, x = x1 \/ x = x2 ->
     exists out w',
       run (rateLimiter p (incoming x)) w = (inr out, w') /\
       (map identifier (collection w') = map identifier (collection w) \/
        map identifier (collection w') = map identifier (collection w) ++ ["localhost"])) /\
  (counts_all p -> 2 <= p_maxRequests p -> healthy w ->
   first_with "localhost" (collection w) = None ->
   horizon w < fst (read_clock w) + p_windowMs p ->
   exists outs w',
     run (serve_all p [x1; x2]) w = (inr outs, w') /\
     tally let_through outs = 2%nat /\
     map identifier (collection w') = map identifier (collection w) ++ ["localhost"] /\
     exists d, first_with "localhost" (collection w') = Some d /\ count d = 2).
Proof.
  intros Hty H1 H2.
  assert (Ha1 : address_identifier (incoming x1) = "localhost")
    by (unfold address_identifier, js_or; rewrite H1; reflexivity).
  assert (Ha2 : address_identifier (incoming x2) = "localhost")
    by (unfold address_identifier, js_or; rewrite H2; reflexivity).
  assert (Hr : forall req, resolve (p_type p) req = Identifier (Some (address_identifier req)))
    by (intros req; rewrite Hty; reflexivity).
  assert (Hb1 : billed (p_type p) (incoming x1) = Some "localhost")
    by (unfold billed; rewrite Hr, Ha1; reflexivity).
  assert (Hb2 : billed (p_type p) (incoming x2) = Some "localhost")
    by (unfold billed; rewrite Hr, Ha2; reflexivity).
  split; [exact Hb1 |]. split; [exact Hb2 |]. split; [| split].
  - intros Hu. unfold rateLimiter, check_and_count, rate_headers, rejection, limiter_type.
    rewrite !Hr, Ha1, Ha2, Hu. reflexivity.
  - intros x Hx.
    assert (Hb : billed (p_type p) (incoming x) = Some "localhost")
      by (destruct Hx as [-> | ->]; assumption).
    destruct (rateLimiter_post p (incoming x) w) as (out & w' & Hrun & Hcases).
    exists out, w'. split; [exact Hrun |].
    destruct Hcases as [(_ & _ & _ & Heff) | (_ & _ & Hcoll & _)]; [| left; congruence].
    destruct Heff as [Hcoll | [(n & i & Hi & Hcoll) | (i & d & r & _ & _ & Hcoll & _)]].
    + left. congruence.
    + right. rewrite Hcoll, map_app. simpl. congruence.
    + left. rewrite Hcoll, map_map. apply map_ext. intros e. apply apply_save_identifier.
  - intros Hp HQ Hw Hnone Hh.
    destruct (read_clock w) as [now w1] eqn:Hc. simpl fst in Hh.
    destruct (serve_create p "localhost" Hp x1 w w1 now Hb1 Hw Hnone Hc Hh)
      as (wa & Hrun1 & Hlive1 & Hids1).
    destruct (serve_count p "localhost" Hp x2 wa 1 now Hb2 Hlive1 ltac:(lia))
      as (jo & wb & Hrun2 & Hlive2 & Hids2).
    do 2 eexists. split; [| split; [| split]].
    + eapply run_serve_all_cons; [exact Hrun1 |].
      eapply run_serve_all_cons; [exact Hrun2 | reflexivity].
    + reflexivity.
    + congruence.
    + destruct Hlive2 as (_ & (d & Hd & Hcnt & _) & _). exists d. split; [exact Hd | lia].
Qed.

Lemma C6_witness :
  let p := Policy 60000 20 "Too many requests from this IP address." false false "ip" in
  let x1 := {| incoming := {| req_user := None; req_ip := Some "::1";
                              req_connection := None |};
               answered_json := Some 200 |} in
  let x2 := {| incoming := {| req_user := None; req_ip := Some "127.0.0.1";
                              req_connection := Some {| remoteAddress := Some "127.0.0.1" |} |};
               answered_json := None |} in
  exists outs w',
    run (serve_all p [x1; x2]) (empty_world 1000 [5%nat; 5%nat; 5%nat]) = (inr outs, w') /\
    map identifier (collection w') = ["localhost"] /\
    exists d, first_with "localhost" (collection w') = Some d /\ count d = 2.
Proof.
  intros p x1 x2.
  destruct (C6_loopback_one_bucket p x1 x2 (empty_world 1000 [5%nat; 5%nat; 5%nat])
              eq_refl eq_refl eq_refl) as (_ & _ & _ & _ & Hboth).
  destruct Hboth as (outs & w' & Hrun & _ & Hids & Hd).
  - split; reflexivity.
  - vm_compute. discriminate.
  - reflexivity.
  - reflexivity.
  - vm_compute. reflexivity.
  - exists outs, w'. split; [exact Hrun |]. split; [exact Hids | exact Hd].
Defined.

(** C7: the middleware never ends through an exception.  Whenever an
    operation of the store fails while a request is handled, the request is
    passed on with [next()] and no rate-limit header, the error is written
    to the console, and the collection is as before.  The counter that the
    replaced [res.json] decrements later is saved without being awaited: a
    failure there is written to the console and nothing is thrown either. *)
Theorem C7_fail_open (p : policy) (req : request) (w : World) :
  (exists (out : outcome) (w' : World),
      run (rateLimiter p req) w = (inr out, w') /\
      (failed_ops w' <> failed_ops w ->
       out = Next [] None /\
       collection w' = collection w /\
       exists e, console w' = RateLimitingError e :: console w)) /\
  (forall (r : document) (statusCode : Z),
      exists w',
        run (res_json p r statusCode) w = (inr tt, w') /\
        (failed_ops w' <> failed_ops w ->
         collection w' = collection w /\
         exists e, console w' = DecrementFailed e :: console w)).
Proof.
  split.
  - destruct (rateLimiter_post p req w) as (out & w' & Hrun & [Hok | Hfail]).
    + exists out, w'. split; [exact Hrun |]. intros Hne. destruct Hok as [Hf _]. congruence.
    + exists out, w'. split; [exact Hrun |]. intros _.
      destruct Hfail as (_ & Hout & Hcoll & He). auto.
  - intros r statusCode.
    destruct (res_json_post p r statusCode w) as (w' & Hrun & [Hok | Hfail]).
    + exists w'. split; [exact Hrun |]. intros Hne. destruct Hok as [Hf _]. congruence.
    + exists w'. split; [exact Hrun |]. intros _. destruct Hfail as (_ & Hcoll & He). auto.
Qed.

(** The store goes down between [findOne] and [save]: the request still
    goes through, without headers, and the error is on the console. *)
Lemma C7_witness :
  let p := Policy 60000 60 "Too many requests. Please slow down." false false "ip" in
  let req := {| req_user := None; req_ip := Some "203.0.113.7"; req_connection := None |} in
  let w := mkWorld [Doc 0 "203.0.113.7" 3 900 500] 1 1000 [5%nat; 5%nat] [false; true] 0 [] in
  exists w',
    run (rateLimiter p req) w = (inr (Next [] None), w') /\
    collection w' = collection w /\
    console w' = [RateLimitingError StoreUnavailable].
Proof.
  intros p req w.
  destruct (C7_fail_open p req w) as [(out & w' & Hrun & Hfail) _].
  assert (Hw' : w' = mkWorld [Doc 0 "203.0.113.7" 3 900 500] 1 1010 [] [] 1
                       [RateLimitingError StoreUnavailable])
    by (vm_compute in Hrun; congruence).
  destruct Hfail as (Hout & Hcoll & _); [rewrite Hw'; simpl; discriminate |].
  exists w'. split; [rewrite Hrun, Hout; reflexivity |].
  split; [exact Hcoll | rewrite Hw'; reflexivity].
Defined.

(** C8, as the code has it: [getUserRateLimit] only reads the store.  For a
    signed-in user whose window is stored, two calls in a row with nothing
    in between give the same answer, computed from the stored window alone.
    When no window is stored, each call answers [currentUsage] 0, [limit]
    60, [remaining] 60, [windowMs] 60000, no [lastRequest], and a
    [resetTime] of 60000 ms after the clock reading of that call: the two
    answers are the same exactly when the two readings are. *)
Theorem C8_usage_twice (req : request) (u : User.t) (i : string) (w : World) :
  healthy w ->
  req_user req = Some u -> User.id u = Some i -> truthy (Some i) = true ->
  let first := run (getUserRateLimit req) w in
  let second := run (getUserRateLimit req) (snd first) in
  collection (snd first) = collection w /\
  collection (snd second) = collection w /\
  (forall d, first_with i (collection w) = Some d ->
     fst first = fst second /\
     fst first =
     inr (Respond 200
            (JObj [ ("success", JBool true);
                    ("data", JObj [ ("currentUsage", JNum (count d));
                                    ("limit", JNum 60);
                                    ("remaining", JNum (Z.max 0 (60 - count d)));
                                    ("resetTime", JDate (windowStart d + 60000));
                                    ("windowMs", JNum 60000);
                                    ("lastRequest", JDate (lastRequest d)) ]) ]))) /\
  (first_with i (collection w) = None ->
     let fresh t :=
       Respond 200
         (JObj [ ("success", JBool true);
                 ("data", JObj [ ("currentUsage", JNum 0);
                                 ("limit", JNum 60);
                                 ("remaining", JNum 60);
                                 ("resetTime", JDate (t + 60000));
                                 ("windowMs", JNum 60000) ]) ]) in
     let t1 := fst (read_clock w) in
     let t2 := fst (read_clock (snd (read_clock w))) in
     fst first = inr (fresh t1) /\
     fst second = inr (fresh t2) /\
     t1 <= t2 /\
     (fst first = fst second <-> t1 = t2)).
Proof.
  intros Hw Hu Hi Ht first second.
  destruct (read_clock_keeps w Hw) as [Hw1 Hcoll1].
  destruct (read_clock_keeps _ Hw1) as [Hw2 Hcoll2].
  assert (Hfirst : snd first = snd (read_clock w)).
  { subst first. destruct (first_with i (collection w)) as [d |] eqn:Hd.
    - rewrite (getUserRateLimit_found req u i d w Hw Hu Hi Ht Hd). reflexivity.
    - rewrite (getUserRateLimit_absent req u i w Hw Hu Hi Ht Hd). reflexivity. }
  assert (Hsecond : snd second = snd (read_clock (snd (read_clock w)))).
  { subst second. rewrite Hfirst.
    destruct (first_with i (collection w)) as [d |] eqn:Hd.
    - rewrite (getUserRateLimit_found req u i d _ Hw1 Hu Hi Ht) by congruence. reflexivity.
    - rewrite (getUserRateLimit_absent req u i _ Hw1 Hu Hi Ht) by congruence. reflexivity. }
  split; [congruence |]. split; [congruence |]. split.
  - intros d Hd. subst second. rewrite Hfirst. subst first.
    rewrite (getUserRateLimit_found req u i d w Hw Hu Hi Ht Hd).
    rewrite (getUserRateLimit_found req u i d _ Hw1 Hu Hi Ht) by congruence.
    split; reflexivity.
  - intros Hd fresh t1 t2. subst second. rewrite Hfirst. subst first.
    rewrite (getUserRateLimit_absent req u i w Hw Hu Hi Ht Hd).
    rewrite (getUserRateLimit_absent req u i _ Hw1 Hu Hi Ht) by congruence.
    simpl fst. split; [reflexivity |]. split; [reflexivity |]. split.
    + subst t1 t2. destruct (read_clock w) as [a w1] eqn:Hc. simpl.
      destruct (read_clock w1) as [b w2] eqn:Hc1. simpl.
      destruct (read_clock_spec w a w1 Hc) as (_ & Hck & _).
      destruct (read_clock_spec w1 b w2 Hc1) as (Hle & _). lia.
    + subst fresh. split.
      * intros H. injection H as H. fold t1 t2 in H. lia.
      * intros H. fold t1 t2. rewrite H. reflexivity.
Qed.

Lemma C8_witness :
  let req := {| req_user := Some (User.mk (Some "64f0c2") (Some "64f0c2"));
                req_ip := Some "203.0.113.7"; req_connection := None |} in
  let w := mkWorld [Doc 0 "64f0c2" 15 14000 1000] 1 15000 [5%nat; 5%nat] [] 0 [] in
  fst (run (getUserRateLimit req) w) =
  fst (run (getUserRateLimit req) (snd (run (getUserRateLimit req) w))).
Proof.
  intros req w.
  destruct (C8_usage_twice req (User.mk (Some "64f0c2") (Some "64f0c2")) "64f0c2" w
              eq_refl eq_refl eq_refl eq_refl) as (_ & _ & Hsame & _).
  exact (proj1 (Hsame (Doc 0 "64f0c2" 15 14000 1000) eq_refl)).
Defined.

(** C8 as stated fails where no window is stored: the first call reads the
    clock at 1005 and the second at 1010, and their [resetTime]s differ. *)
Lemma C8_absent_window_answers_differ :
  let req := {| req_user := Some (User.mk (Some "64f0c2") (Some "64f0c2"));
                req_ip := Some "203.0.113.7"; req_connection := None |} in
  let w := empty_world 1000 [5%nat; 5%nat] in
  let first := run (getUserRateLimit req) w in
  let second := run (getUserRateLimit req) (snd first) in
  collection (snd first) = collection w /\
  member "resetTime"
    (match fst first with
     | inr (Respond _ (JObj [_; (_, JObj data)])) => data
     | _ => []
     end) = Some (JDate 61005) /\
  member "resetTime"
    (match fst second with
     | inr (Respond _ (JObj [_; (_, JObj data)])) => data
     | _ => []
     end) = Some (JDate 61010) /\
  fst first <> fst second.
Proof. vm_compute. repeat split; discriminate. Qed.

Lemma total_count_sum (c : list doc) :
  total_count c = fold_right Z.add 0 (map count c).
Proof. induction c as [| d c IH]; simpl; [reflexivity | rewrite <- IH; reflexivity]. Qed.

Lemma remove_dups_length_le (l : list string) :
  (length (remove_dups l) <= length l)%nat.
Proof.
  induction l as [| x l IH]; simpl; [lia |].
  case_decide; simpl; lia.
Qed.

Lemma remove_dups_length_NoDup (l : list string) :
  length (remove_dups l) = length l <-> NoDup l.
Proof.
  induction l as [| x l IH]; simpl.
  - split; [intros _; constructor | reflexivity].
  - pose proof (remove_dups_length_le l) as Hle.
    case_decide as Hin; [| rename Hin into Hnin]; simpl.
    + split; [intros H; lia |].
      intros H. apply NoDup_cons in H as [Hx _].
      exfalso. apply Hx. exact Hin.
    + split.
      * intros H. apply NoDup_cons. split.
        -- exact Hnin.
        -- apply IH. lia.
      * intros H. apply NoDup_cons in H as [_ Hl]. f_equal. apply IH. exact Hl.
Qed.

(** C9, as the code has it: [getAllRateLimitStats] leaves the collection as
    it is, whatever the store does.  While the store can be reached it
    answers 200 with [recentActivity] one entry
    [{_id, identifier, count, lastRequest}] for each of the stored windows
    taken latest [lastRequest] first, the first ten of them (all of them
    when there are fewer), and with a [summary] whose [totalUsers] is the
    number of stored windows, [totalRequests] the sum of their counts and
    [avgRequestsPerUser] the one divided by the other; for an empty
    collection the summary is [{totalUsers: 0, totalRequests: 0,
    avgRequestsPerUser: 0}].  The number of stored windows is never less
    than the number of stored identifiers, and it is that number exactly
    when no identifier has two windows. *)
Theorem C9_global_statistics (req : request) (w : World) :
  collection (snd (run (getAllRateLimitStats req) w)) = collection w /\
  (healthy w ->
   exists (summary : list (string * json)) (recent rest : list doc),
     run (getAllRateLimitStats req) w =
     (inr (Respond 200
             (JObj [ ("success", JBool true);
                     ("data",
                      JObj [ ("summary", JObj summary);
                             ("recentActivity",
                              JArr (map (fun d =>
                                           JObj [ ("_id", JId (_id d));
                                                  ("identifier", JStr (identifier d));
                                                  ("count", JNum (count d));
                                                  ("lastRequest", JDate (lastRequest d)) ])
                                        recent)) ]) ])),
      w) /\
     recent ++ rest ≡ₚ collection w /\
     StronglySorted (fun a b => lastRequest b <= lastRequest a) (recent ++ rest) /\
     length recent = Nat.min 10 (length (collection w)) /\
     member "totalUsers" summary = Some (JNum (Z.of_nat (length (collection w)))) /\
     (length (stored_identifiers (collection w)) <= length (collection w))%nat /\
     (length (stored_identifiers (collection w)) = length (collection w) <->
      one_window_each (collection w)) /\
     member "totalRequests" summary =
       Some (JNum (fold_right Z.add 0 (map count (collection w)))) /\
     member "avgRequestsPerUser" summary =
       Some (match collection w with
             | [] => JNum 0
             | _ :: _ => JDiv (fold_right Z.add 0 (map count (collection w)))
                              (Z.of_nat (length (collection w)))
             end) /\
     (collection w = [] ->
      summary = [ ("totalUsers", JNum 0); ("totalRequests", JNum 0);
                  ("avgRequestsPerUser", JNum 0) ])).
Proof.
  split; [apply getAllRateLimitStats_reads |].
  intros Hw. destruct (find_recent_spec (collection w)) as (rest & Hperm & Hsorted & Hlen).
  rewrite (run_getAllRateLimitStats req w Hw).
  assert (Hids : (length (stored_identifiers (collection w)) <= length (collection w))%nat /\
                 (length (stored_identifiers (collection w)) = length (collection w) <->
                  one_window_each (collection w))).
  { unfold stored_identifiers, one_window_each. split.
    - rewrite <- (length_map identifier (collection w)). apply remove_dups_length_le.
    - rewrite <- (length_map identifier (collection w)).
      apply remove_dups_length_NoDup. }
  destruct Hids as [Hle Hiff].
  rewrite <- total_count_sum.
  destruct (collection w) as [| d c] eqn:Hc.
  - exists [ ("totalUsers", JNum 0); ("totalRequests", JNum 0);
             ("avgRequestsPerUser", JNum 0) ], (find_recent []), rest.
    split; [reflexivity |]. split; [exact Hperm |]. split; [exact Hsorted |].
    split; [exact Hlen |]. split; [reflexivity |]. split; [exact Hle |].
    split; [exact Hiff |]. split; [reflexivity |]. split; [reflexivity |]. reflexivity.
  - eexists _, (find_recent (d :: c)), rest.
    split; [unfold aggregate_group; reflexivity |].
    split; [exact Hperm |]. split; [exact Hsorted |].
    split; [exact Hlen |]. split; [reflexivity |]. split; [exact Hle |].
    split; [exact Hiff |]. split; [reflexivity |]. split; [reflexivity |]. discriminate.
Qed.

Lemma C9_witness :
  let req := {| req_user := Some (User.mk (Some "64f0c2") (Some "64f0c2"));
                req_ip := Some "203.0.113.7"; req_connection := None |} in
  let w := mkWorld [Doc 0 "64f0c2" 3 1400 1000; Doc 1 "localhost" 4 2000 1500;
                    Doc 2 "203.0.113.7" 1 1700 1700] 3 2500 [] [] 0 [] in
  exists summary,
    run (getAllRateLimitStats req) w =
    (inr (Respond 200
            (JObj [ ("success", JBool true);
                    ("data",
                     JObj [ ("summary", JObj summary);
                            ("recentActivity",
                             JArr [ JObj [ ("_id", JId 1); ("identifier", JStr "localhost");
                                           ("count", JNum 4); ("lastRequest", JDate 2000) ];
                                    JObj [ ("_id", JId 2); ("identifier", JStr "203.0.113.7");
                                           ("count", JNum 1); ("lastRequest", JDate 1700) ];
                                    JObj [ ("_id", JId 0); ("identifier", JStr "64f0c2");
                                           ("count", JNum 3); ("lastRequest", JDate 1400) ] ])
                          ]) ])),
     w) /\
    member "totalUsers" summary = Some (JNum 3) /\
    length (stored_identifiers (collection w)) = 3%nat /\
    member "totalRequests" summary = Some (JNum 8) /\
    member "avgRequestsPerUser" summary = Some (JDiv 8 3).
Proof.
  intros req w.
  destruct (C9_global_statistics req w) as [_ H].
  destruct (H eq_refl)
    as (summary & recent & rest & Hrun & _ & _ & _ & Husers & _ & Hiff & Hreq & Havg & _).
  exists summary. split; [| split; [exact Husers | split; [| split; [exact Hreq | exact Havg]]]].
  - rewrite Hrun. pose proof Hrun as Hrun'. vm_compute in Hrun'.
    injection Hrun' as _ Hrec. repeat f_equal. symmetry. exact Hrec.
  - apply Hiff. unfold one_window_each. apply (bool_decide_unpack _). vm_compute. exact I.
Defined.

(** C9 as stated fails for [totalUsers]: it counts the stored windows, not
    the identifiers.  After two first requests of one address have been in
    flight together (both [findOne] answered before either [create]), the
    collection holds two windows for the one address, and the statistics
    report two users and a mean of one request for each, where one
    identifier has made two requests. *)
Lemma C9_two_windows_one_identifier :
  let p := Policy 60000 20 "Too many requests from this IP address." false false "ip" in
  let req := {| req_user := None; req_ip := Some "203.0.113.7"; req_connection := None |} in
  let w := snd (concurrently p [req; req] [0; 1; 0; 1]%nat
                             (empty_world 1000 [5%nat; 5%nat])) in
  healthy w /\
  stored_identifiers (collection w) = ["203.0.113.7"] /\
  exists recentActivity,
    fst (run (getAllRateLimitStats req) w) =
    inr (Respond 200
           (JObj [ ("success", JBool true);
                   ("data", JObj [ ("summary",
                                    JObj [ ("_id", JNull);
                                           ("totalUsers", JNum 2);
                                           ("totalRequests", JNum 2);
                                           ("avgRequestsPerUser", JDiv 2 2) ]);
                                   ("recentActivity", recentActivity) ]) ])) /\
    2 <> Z.of_nat (length (stored_identifiers (collection w))).
Proof. vm_compute. split; [reflexivity |]. split; [reflexivity |]. eexists. split; [reflexivity | discriminate]. Qed.



(** * Further properties *)

(** ** What one request does to the collection *)

Lemma check_and_count_effect (p : policy) (req : request) (now : Z) (i : string)
      (w w' : World) (res : exn + outcome) :
  clock w <= now ->
  run (check_and_count p req now i) w = (res, w') ->
  clock w <= clock w' /\
  match res with
  | inl _ => collection w' = collection w
  | inr out =>
      (now <= clock w' -> store_effect p i w w') /\
      match out with
      | Next _ (Some r) => modifiedPaths r = []
      | _ => True
      end
  end.
Proof.
  intros Hnow Hrun. unfold check_and_count in Hrun.
  rewrite run_bind in Hrun. unfold findOne in Hrun. rewrite run_query in Hrun.
  unfold store_read in Hrun.
  destruct (reach_store w) as [[|] w0] eqn:Hr;
    apply reach_store_spec in Hr as (Hc & Hn & Hk & Ht & Hco & Hf);
    [| injection Hrun as <- <-; split; [lia | exact Hc]].
  destruct (first_with i (collection w0)) as [d |] eqn:Hd; simpl option_map in Hrun;
    cbv beta iota in Hrun.
  - rewrite run_bind in Hrun.
    destruct (read_clock w0) as [t w1] eqn:Hc1.
    rewrite (run_isWindowExpired _ _ w0 w1 t Hc1) in Hrun. simpl fields in Hrun.
    destruct (read_clock_spec w0 t w1 Hc1) as (Hle1 & Hck1 & _ & _ & Hcoll1 & Hn1 & _).
    destruct (Z.leb_spec (p_windowMs p) (t - windowStart d)) as [Hexp | Hlive].
    + destruct (read_clock w1) as [t1 w2] eqn:Hc2.
      destruct (read_clock w2) as [t2 w3] eqn:Hc3.
      rewrite run_bind, (run_resetWindow _ w1 w2 w3 t1 t2 Hc2 Hc3) in Hrun.
      destruct (read_clock_spec w1 t1 w2 Hc2) as (Hle2 & Hck2 & _ & _ & Hcoll2 & Hn2 & _).
      destruct (read_clock_spec w2 t2 w3 Hc3) as (Hle3 & Hck3 & _ & _ & Hcoll3 & Hn3 & _).
      rewrite run_bind, run_save in Hrun.
      destruct (store_save _ w3) as [[e | r'] w4] eqn:Hs.
      * pose proof Hs as Hs'. apply store_save_spec in Hs' as (_ & Hck4 & _ & _ & Hcoll4).
        injection Hrun as <- <-. split; [lia | congruence].
      * pose proof Hs as Hs'. apply store_save_spec in Hs' as (_ & Hck4 & _ & _ & _ & Hcoll4).
        injection Hrun as <- <-. split; [lia |]. split; [| exact I].
        intros _. apply (RolledOver p i w w4 d t1 t2); [congruence | lia | lia |].
        rewrite Hcoll4. congruence.
    + destruct (Z.leb_spec (p_maxRequests p) (count d)) as [Hfull | Hunder].
      * injection Hrun as <- <-. split; [lia |]. split; [| exact I].
        intros _. apply Untouched. congruence.
      * cbv zeta in Hrun. rewrite run_bind, run_save in Hrun.
        destruct (store_save _ w1) as [[e | r'] w4] eqn:Hs.
        -- pose proof Hs as Hs'. apply store_save_spec in Hs' as (_ & Hck4 & _ & _ & Hcoll4).
           injection Hrun as <- <-. split; [lia | congruence].
        -- pose proof Hs as Hs'.
           apply store_save_spec in Hs' as (_ & Hck4 & _ & _ & Hr' & Hcoll4).
           injection Hrun as <- <-. split; [lia |].
           split; [| rewrite Hr'; reflexivity].
           intros Hlate. apply (Counted p i w w4 d now); [congruence | lia | lia |].
           rewrite Hcoll4. congruence.
  - rewrite run_bind, run_create in Hrun.
    destruct (store_create _ _ _ _ w0) as [[e | r'] w4] eqn:Hs.
    + pose proof Hs as Hs'. apply store_create_spec in Hs' as (_ & Hck4 & _ & _ & Hcoll4).
      injection Hrun as <- <-. split; [lia | congruence].
    + pose proof Hs as Hs'. apply store_create_spec in Hs' as (_ & Hck4 & _ & _ & Hcoll4).
      injection Hrun as <- <-. split; [lia |]. split; [| exact I].
      intros Hlate. apply (Created p i w w4 now); [congruence | lia |].
      rewrite Hcoll4, Hc, Hn. reflexivity.
Qed.

Lemma store_effect_since (p : policy) (i : string) (w w1 w' : World) :
  clock w <= clock w1 ->
  collection w1 = collection w ->
  next_oid w1 = next_oid w ->
  store_effect p i w1 w' ->
  store_effect p i w w'.
Proof.
  intros Hclk Hcoll Hn [Hu | now Hnone Hnow Hc | d now Hd Hlt Hnow Hc | d t1 t2 Hd Ht Ht2 Hc].
  - apply Untouched. congruence.
  - apply (Created p i w w' now); [congruence | lia | congruence].
  - apply (Counted p i w w' d now); [congruence | exact Hlt | lia | congruence].
  - apply (RolledOver p i w w' d t1 t2); [congruence | lia | exact Ht2 | congruence].
Qed.

(** The middleware seen from the collection. *)
Lemma rateLimiter_effect (p : policy) (req : request) (w : World) :
  exists (out : outcome) (w' : World),
    run (rateLimiter p req) w = (inr out, w') /\
    clock w <= clock w' /\
    (forall i, billed (p_type p) req = Some i -> store_effect p i w w') /\
    (billed (p_type p) req = None -> collection w' = collection w) /\
    match out with
    | Next _ (Some r) => modifiedPaths r = []
    | _ => True
    end.
Proof.
  destruct (read_clock w) as [now w1] eqn:Hc.
  destruct (read_clock_spec w now w1 Hc) as (Hle & Hck & _ & _ & Hcoll & Hn & _).
  destruct (billed (p_type p) req) as [i |] eqn:Hb.
  - rewrite (rateLimiter_billed p req i w w1 now Hb Hc).
    destruct (run (check_and_count p req now i) w1) as [[e | out] w2] eqn:Hrun;
      apply check_and_count_effect in Hrun as (Hclk & Hres); try lia.
    + do 2 eexists. split; [reflexivity |]. simpl. split; [lia |].
      split; [| split; [discriminate | exact I]].
      intros j _. apply Untouched. simpl. congruence.
    + destruct Hres as [Heff Hr]. do 2 eexists. split; [reflexivity |].
      split; [lia |]. split; [| split; [discriminate | exact Hr]].
      intros j [= <-]. apply (store_effect_since p i w w1 w2); try lia; try assumption.
      apply Heff. lia.
  - rewrite (rateLimiter_skipped p req w w1 now Hb Hc). do 2 eexists.
    split; [reflexivity |]. split; [lia |]. split; [discriminate |]. split; [| exact I].
    intros _. exact Hcoll.
Qed.

Lemma res_json_effect (p : policy) (r : document) (statusCode : Z) (w : World) :
  exists w',
    run (res_json p r statusCode) w = (inr tt, w') /\
    clock w' = clock w /\
    (collection w' = collection w \/
     (skipped p statusCode = true /\
      collection w' =
        map (apply_save (set_count (count (fields r) - 1) r)) (collection w))).
Proof.
  unfold res_json, skipped.
  destruct (negb (p_skipSuccessfulRequests p) && negb (p_skipFailedRequests p));
    [exists w; split; [reflexivity | split; [reflexivity | left; reflexivity]] |].
  match goal with
  | |- context [if ?b then _ else _] =>
      destruct b eqn:Hb;
      [| exists w; split; [reflexivity | split; [reflexivity | left; reflexivity]]]
  end.
  simpl.
  destruct (store_save (set_count (count (fields r) - 1) r) w) as [[e | r'] w1] eqn:Hs;
    apply store_save_spec in Hs as (Hco & Hck & _ & Hres); simpl.
  - destruct Hres as [_ Hcoll]. eexists. split; [reflexivity |]. simpl. auto.
  - destruct Hres as (_ & _ & Hcoll). exists w1. split; [reflexivity |]. auto.
Qed.

(** A request served: the middleware, then perhaps the replaced
    [res.json]. *)
Lemma serve_effect (p : policy) (x : exchange) (w : World) :
  exists (out : outcome) (w1 w2 : World),
    run (rateLimiter p (incoming x)) w = (inr out, w1) /\
    run (serve p x) w = (inr out, w2) /\
    clock w2 = clock w1 /\
    (collection w2 = collection w1 \/
     exists hs r statusCode,
       out = Next hs (Some r) /\ modifiedPaths r = [] /\
       answered_json x = Some statusCode /\ skipped p statusCode = true /\
       collection w2 =
         map (apply_save (set_count (count (fields r) - 1) r)) (collection w1)).
Proof.
  destruct (rateLimiter_effect p (incoming x) w) as (out & w1 & Hrun & _ & _ & _ & Hr).
  unfold serve. rewrite run_bind, Hrun.
  destruct out as [hs [r |] | e | st b];
    try (eexists; exists w1, w1; split; [reflexivity |]; split; [reflexivity |];
         split; [reflexivity |]; left; reflexivity).
  destruct (answered_json x) as [code |];
    [| eexists; exists w1, w1; split; [reflexivity |]; split; [reflexivity |];
       split; [reflexivity |]; left; reflexivity].
  destruct (res_json_effect p r code w1) as (w2 & Hj & Hck & Heff).
  exists (Next hs (Some r)), w1, w2. split; [reflexivity |].
  split; [rewrite run_bind, Hj; reflexivity |]. split; [exact Hck |].
  destruct Heff as [Hsame | [Hsk Hcoll]]; [left; exact Hsame |].
  right. exists hs, r, code. auto.
Qed.

(** ** What [save()] writes *)

Lemma apply_save_counted (e d : doc) (c l : Z) :
  apply_save (set_lastRequest l (set_count c (loaded d))) e =
  if Nat.eqb (_id e) (_id d) then Doc (_id e) (identifier e) c l (windowStart e) else e.
Proof. unfold apply_save. simpl. destruct (Nat.eqb (_id e) (_id d)); reflexivity. Qed.

Lemma apply_save_rolled (e d : doc) (t1 t2 : Z) :
  apply_save (set_lastRequest t2 (set_windowStart t1 (set_count 1 (loaded d)))) e =
  if Nat.eqb (_id e) (_id d) then Doc (_id e) (identifier e) 1 t2 t1 else e.
Proof. unfold apply_save. simpl. destruct (Nat.eqb (_id e) (_id d)); reflexivity. Qed.

Lemma apply_save_taken (e : doc) (r : document) (v : Z) :
  modifiedPaths r = [] ->
  apply_save (set_count v r) e =
  if Nat.eqb (_id e) (_id (fields r))
  then Doc (_id e) (identifier e) v (lastRequest e) (windowStart e) else e.
Proof.
  intros Hm. unfold apply_save. simpl. rewrite Hm.
  destruct (Nat.eqb (_id e) (_id (fields r))); reflexivity.
Qed.

Lemma apply_save_id (r : document) (d : doc) : _id (apply_save r d) = _id d.
Proof.
  unfold apply_save. destruct (Nat.eqb (_id d) (_id (fields r))); [| reflexivity].
  induction (modifiedPaths r) as [| q qs IH]; simpl; [reflexivity |].
  destruct q; simpl; exact IH.
Qed.

Lemma map_identifier_saved (r : document) (c : list doc) :
  map identifier (map (apply_save r) c) = map identifier c.
Proof. rewrite map_map. apply map_ext. intros e. apply apply_save_identifier. Qed.

Lemma first_with_None (i : string) (c : list doc) :
  first_with i c = None -> i ∉ map identifier c.
Proof.
  unfold first_with. intros Hnone Hin. apply list_elem_of_In, in_map_iff in Hin.
  destruct Hin as (d & Hid & Hd).
  pose proof (find_none _ _ Hnone d Hd) as Hf. simpl in Hf.
  apply String.eqb_neq in Hf. congruence.
Qed.

(** ** Invariants of the collection *)

Lemma Forall_map_intro (P Q : doc -> Prop) (f : doc -> doc) (c : list doc) :
  (forall d, P d -> Q (f d)) -> Forall P c -> Forall Q (map f c).
Proof.
  intros Hf Hc. induction Hc as [| d c Hd Hc IH]; simpl; constructor; auto.
Qed.

Lemma first_with_Forall (P : doc -> Prop) (i : string) (c : list doc) (d : doc) :
  Forall P c -> first_with i c = Some d -> P d.
Proof.
  intros Hc Hd. apply first_with_elem in Hd as [Hin _].
  apply list_elem_of_In in Hin. exact (proj1 (Forall_forall P c) Hc d Hin).
Qed.

Lemma store_effect_identifiers (p : policy) (i : string) (w w' : World) :
  store_effect p i w w' ->
  map identifier (collection w') = map identifier (collection w) \/
  (first_with i (collection w) = None /\
   map identifier (collection w') = map identifier (collection w) ++ [i]).
Proof.
  intros [Hu | now Hnone Hnow Hc | d now Hd Hlt Hnow Hc | d t1 t2 Hd Ht Ht2 Hc].
  - left. congruence.
  - right. split; [exact Hnone |]. rewrite Hc, map_app. reflexivity.
  - left. rewrite Hc. apply map_identifier_saved.
  - left. rewrite Hc. apply map_identifier_saved.
Qed.

Lemma serve_identifiers (p : policy) (x : exchange) (w : World) :
  let c' := collection (snd (run (serve p x) w)) in
  map identifier c' = map identifier (collection w) \/
  exists i, billed (p_type p) (incoming x) = Some i /\
            first_with i (collection w) = None /\
            map identifier c' = map identifier (collection w) ++ [i].
Proof.
  destruct (serve_effect p x w) as (out & w1 & w2 & Hrun & Hserve & _ & Hjson).
  destruct (rateLimiter_effect p (incoming x) w) as (out' & w1' & Hrun' & _ & Heff & Hnone & _).
  rewrite Hrun in Hrun'. injection Hrun' as <- <-.
  rewrite Hserve. simpl.
  assert (Hids : map identifier (collection w2) = map identifier (collection w1)).
  { destruct Hjson as [-> | (hs & r & code & _ & _ & _ & _ & ->)];
      [reflexivity | apply map_identifier_saved]. }
  rewrite Hids.
  destruct (billed (p_type p) (incoming x)) as [i |] eqn:Hb.
  - destruct (store_effect_identifiers p i w w1 (Heff i eq_refl)) as [Hsame | [Hn Happ]];
      [left; exact Hsame | right; exists i; auto].
  - left. rewrite (Hnone eq_refl). reflexivity.
Qed.

Lemma serve_keeps_one_window_each (p : policy) (x : exchange) (w : World) :
  one_window_each (collection w) ->
  one_window_each (collection (snd (run (serve p x) w))).
Proof.
  unfold one_window_each. intros Hnd.
  destruct (serve_identifiers p x w) as [-> | (i & _ & Hnone & ->)]; [exact Hnd |].
  apply NoDup_app. split; [exact Hnd |]. split; [| apply NoDup_singleton].
  intros j Hj Hji. apply list_elem_of_singleton in Hji. subst j.
  exact (first_with_None i _ Hnone Hj).
Qed.

Lemma serve_returns (p : policy) (x : exchange) (w : World) :
  exists out w', run (serve p x) w = (inr out, w').
Proof.
  destruct (serve_effect p x w) as (out & w1 & w2 & _ & Hserve & _).
  exists out, w2. exact Hserve.
Qed.

Lemma serve_each_cons (p : policy) (x : exchange) (pxs : list (policy * exchange))
      (w : World) :
  snd (run (serve_each ((p, x) :: pxs)) w) =
  snd (run (serve_each pxs) (snd (run (serve p x) w))).
Proof.
  destruct (serve_returns p x w) as (out & w1 & Hout).
  change (serve_each ((p, x) :: pxs))
    with (bind (serve p x) (fun o => bind (serve_each pxs) (fun os => Ret (o :: os)))).
  rewrite run_bind, Hout. cbv beta iota. rewrite run_bind. simpl snd.
  destruct (run (serve_each pxs) w1) as [[e | outs] w2]; reflexivity.
Qed.

(** What every request keeps, every sequence of requests keeps. *)
Lemma serve_each_invariant (Ok : policy -> Prop) (I : World -> Prop) :
  (forall p x w, Ok p -> I w -> I (snd (run (serve p x) w))) ->
  forall pxs w, Forall (fun px => Ok (fst px)) pxs -> I w ->
                I (snd (run (serve_each pxs) w)).
Proof.
  intros Hstep pxs. induction pxs as [| [p x] pxs IH]; intros w Hok Hw; [exact Hw |].
  apply Forall_cons in Hok as [Hp Hok].
  rewrite serve_each_cons. apply IH; [exact Hok |]. apply Hstep; [exact Hp | exact Hw].
Qed.

(** Requests handled one after another, under whatever policies, skip
    flags and outages of the store, never give an identifier a second
    window: a window is created only when [findOne] found none, and a save
    changes no identifier. *)
Theorem one_window_each_kept (pxs : list (policy * exchange)) (w : World) :
  one_window_each (collection w) ->
  one_window_each (collection (snd (run (serve_each pxs) w))).
Proof.
  intros Hw.
  apply (serve_each_invariant (fun _ => True) (fun w => one_window_each (collection w)));
    [| apply Forall_forall; auto | exact Hw].
  intros p x w0 _. apply serve_keeps_one_window_each.
Qed.

Lemma one_window_each_kept_witness :
  let registration :=
    Policy 60000 3 "Too many registration attempts. Please wait before trying again."
           false false "ip" in
  let strict :=
    Policy 60000 10 "Rate limit exceeded for sensitive operations." true false "hybrid" in
  let anonymous := {| req_user := None; req_ip := Some "203.0.113.7";
                      req_connection := None |} in
  let signed_in := {| req_user := Some (User.mk (Some "64f0c2") (Some "64f0c2"));
                      req_ip := Some "203.0.113.7"; req_connection := None |} in
  let run_of :=
    run (serve_each [ (registration, {| incoming := anonymous; answered_json := None |});
                      (strict, {| incoming := signed_in; answered_json := Some 200 |});
                      (strict, {| incoming := anonymous; answered_json := Some 404 |});
                      (strict, {| incoming := signed_in; answered_json := Some 200 |}) ])
        (empty_world 1000 (repeat 5%nat 8)) in
  one_window_each (collection (snd run_of)) /\
  map identifier (collection (snd run_of)) = ["203.0.113.7"; "64f0c2"].
Proof.
  intros registration strict anonymous signed_in run_of. split; [| reflexivity].
  apply one_window_each_kept. unfold one_window_each. simpl. apply NoDup_nil_2.
Defined.

Lemma serve_keeps_timestamps_ordered (p : policy) (x : exchange) (w : World) :
  timestamps_ordered w -> timestamps_ordered (snd (run (serve p x) w)).
Proof.
  unfold timestamps_ordered. intros Hw.
  destruct (serve_effect p x w) as (out & w1 & w2 & Hrun & Hserve & Hck2 & Hjson).
  destruct (rateLimiter_effect p (incoming x) w)
    as (out' & w1' & Hrun' & Hclk & Heff & Hnone & Hr).
  rewrite Hrun in Hrun'. injection Hrun' as <- <-.
  rewrite Hserve. simpl snd.
  assert (Hgrow : Forall (fun d => windowStart d <= lastRequest d /\ lastRequest d <= clock w1)
                         (collection w)).
  { eapply Forall_impl; [exact Hw |]. simpl. intros d [H1 H2]. split; lia. }
  assert (H1 : Forall (fun d => windowStart d <= lastRequest d /\ lastRequest d <= clock w1)
                      (collection w1)).
  { destruct (billed (p_type p) (incoming x)) as [i |] eqn:Hb;
      [| rewrite (Hnone eq_refl); exact Hgrow].
    destruct (Heff i eq_refl)
      as [Hu | now Hn Hnow Hc | d now Hd Hlt Hnow Hc | d t1 t2 Hd Ht Ht2 Hc]; rewrite ?Hu, ?Hc.
    - exact Hgrow.
    - apply Forall_app. split; [exact Hgrow |]. repeat constructor; simpl; lia.
    - eapply Forall_map_intro; [| exact Hw]. simpl. intros e [He1 He2].
      rewrite apply_save_counted. destruct (Nat.eqb (_id e) (_id d)); simpl; split; lia.
    - eapply Forall_map_intro; [| exact Hw]. simpl. intros e [He1 He2].
      rewrite apply_save_rolled. destruct (Nat.eqb (_id e) (_id d)); simpl; split; lia. }
  rewrite Hck2.
  destruct Hjson as [-> | (hs & r & code & _ & Hm & _ & _ & ->)]; [exact H1 |].
  eapply Forall_map_intro; [| exact H1]. simpl. intros e He.
  rewrite (apply_save_taken e r _ Hm).
  destruct (Nat.eqb (_id e) (_id (fields r))); simpl; exact He.
Qed.

(** Requests handled one after another, under whatever policies, skip
    flags and outages, keep every stored window with [windowStart] no later
    than [lastRequest], and [lastRequest] no later than the clock. *)
Theorem timestamps_ordered_kept (pxs : list (policy * exchange)) (w : World) :
  timestamps_ordered w ->
  timestamps_ordered (snd (run (serve_each pxs) w)).
Proof.
  intros Hw.
  apply (serve_each_invariant (fun _ => True) timestamps_ordered);
    [| apply Forall_forall; auto | exact Hw].
  intros p x w0 _. apply serve_keeps_timestamps_ordered.
Qed.

Lemma timestamps_ordered_kept_witness :
  let strict := Policy 1000 10 "Rate limit exceeded for sensitive operations." false true
                       "hybrid" in
  let x := {| incoming := {| req_user := None; req_ip := Some "203.0.113.7";
                             req_connection := None |};
              answered_json := Some 404 |} in
  let w := mkWorld [Doc 0 "203.0.113.7" 4 900 500] 1 1000 [300%nat; 5%nat; 400%nat]
                   [] 0 [] in
  timestamps_ordered (snd (run (serve_each [(strict, x); (strict, x)]) w)).
Proof.
  intros strict x w. apply timestamps_ordered_kept.
  unfold timestamps_ordered. simpl. repeat constructor; simpl; lia.
Defined.

Lemma counts_all_not_skipped (p : policy) (statusCode : Z) :
  counts_all p -> skipped p statusCode = false.
Proof.
  intros [H1 H2]. unfold skipped. rewrite H1, H2, !andb_false_r. reflexivity.
Qed.

Lemma serve_keeps_counts_within (Q : Z) (p : policy) (x : exchange) (w : World) :
  counts_all p /\ 1 <= p_maxRequests p <= Q ->
  counts_within Q (collection w) ->
  counts_within Q (collection (snd (run (serve p x) w))).
Proof.
  unfold counts_within. intros [Hp HQ] Hw.
  destruct (serve_effect p x w) as (out & w1 & w2 & Hrun & Hserve & _ & Hjson).
  destruct (rateLimiter_effect p (incoming x) w)
    as (out' & w1' & Hrun' & _ & Heff & Hnone & _).
  rewrite Hrun in Hrun'. injection Hrun' as <- <-.
  rewrite Hserve. simpl snd.
  destruct Hjson as [-> | (_ & _ & code & _ & _ & _ & Hsk & _)];
    [| rewrite (counts_all_not_skipped p code Hp) in Hsk; discriminate].
  destruct (billed (p_type p) (incoming x)) as [i |] eqn:Hb;
    [| rewrite (Hnone eq_refl); exact Hw].
  destruct (Heff i eq_refl)
    as [Hu | now Hn Hnow Hc | d now Hd Hlt Hnow Hc | d t1 t2 Hd Ht Ht2 Hc]; rewrite ?Hu, ?Hc.
  - exact Hw.
  - apply Forall_app. split; [exact Hw |]. repeat constructor; simpl; lia.
  - pose proof (first_with_Forall _ i _ d Hw Hd) as Hcd. simpl in Hcd.
    eapply Forall_map_intro; [| exact Hw]. simpl. intros e He.
    rewrite apply_save_counted. destruct (Nat.eqb (_id e) (_id d)); simpl; lia.
  - eapply Forall_map_intro; [| exact Hw]. simpl. intros e He.
    rewrite apply_save_rolled. destruct (Nat.eqb (_id e) (_id d)); simpl; lia.
Qed.

(** When every policy in use counts every request and has a quota between
    1 and [Q], requests handled one after another leave every stored count
    between 1 and [Q], whatever the outages of the store. *)
Theorem counts_within_kept (Q : Z) (pxs : list (policy * exchange)) (w : World) :
  Forall (fun px => counts_all (fst px) /\ 1 <= p_maxRequests (fst px) <= Q) pxs ->
  counts_within Q (collection w) ->
  counts_within Q (collection (snd (run (serve_each pxs) w))).
Proof.
  intros Hok Hw.
  apply (serve_each_invariant (fun p => counts_all p /\ 1 <= p_maxRequests p <= Q)
                              (fun w => counts_within Q (collection w)));
    [| exact Hok | exact Hw].
  intros p x w0. apply serve_keeps_counts_within.
Qed.

Lemma counts_within_kept_witness :
  let general := Policy 60000 60 "Too many requests. Please slow down." false false "hybrid" in
  let strict :=
    Policy 60000 10 "Rate limit exceeded for sensitive operations." false false "hybrid" in
  let x := {| incoming := {| req_user := Some (User.mk (Some "64f0c2") (Some "64f0c2"));
                             req_ip := Some "203.0.113.7"; req_connection := None |};
              answered_json := Some 200 |} in
  let w := mkWorld [Doc 0 "64f0c2" 9 900 500] 1 1000 (repeat 5%nat 8) [false; true] 0 [] in
  counts_within 60 (collection (snd (run (serve_each [(general, x); (strict, x); (general, x);
                                                      (strict, x)]) w))) /\
  map count (collection (snd (run (serve_each [(general, x); (strict, x); (general, x);
                                              (strict, x)]) w))) = [11].
Proof.
  intros general strict x w. split; [| reflexivity].
  apply counts_within_kept.
  - repeat constructor; simpl; lia.
  - unfold counts_within. simpl. repeat constructor; simpl; lia.
Defined.

(** ** Requests taken back by the replaced [res.json] *)

Lemma run_res_json_healthy (p : policy) (r : document) (statusCode : Z) (w : World) (d : doc) :
  healthy w -> In d (collection w) -> _id (fields r) = _id d ->
  run (res_json p r statusCode) w =
  (inr tt,
   if skipped p statusCode
   then with_collection
          (map (apply_save (set_count (count (fields r) - 1) r)) (collection w)) w
   else w).
Proof.
  intros Hw Hin Hid. unfold res_json, skipped.
  destruct (p_skipSuccessfulRequests p), (p_skipFailedRequests p),
    ((200 <=? statusCode) && (statusCode <? 400)); simpl; try reflexivity;
    rewrite (store_save_healthy (set_count (count (fields r) - 1) r) w d Hw Hin Hid);
    reflexivity.
Qed.

(** Whether the request of [x] is taken back after it was counted. *)
Lemma serve_counted (p : policy) (x : exchange) (i : string) (w : World) (c ws : Z) :
  billed (p_type p) (incoming x) = Some i ->
  live w i c ws (p_windowMs p) ->
  c < p_maxRequests p ->
  let taken_back :=
    match answered_json x with
    | Some statusCode => skipped p statusCode
    | None => false
    end in
  exists jo w',
    run (serve p x) w =
    (inr (Next (rate_headers (p_maxRequests p) (Z.max 0 (p_maxRequests p - (c + 1)))
                  (ws + p_windowMs p) (incoming x)) jo), w') /\
    live w' i (if taken_back then c else c + 1) ws (p_windowMs p).
Proof.
  intros Hb (Hw & (d & Hd & Hcnt & Hws) & Hclk & Hhor) Hunder taken_back. subst c ws.
  destruct (read_clock w) as [now w1] eqn:Hc.
  destruct (read_clock w1) as [t w2] eqn:Hc1.
  destruct (read_clock_spec w now w1 Hc) as (Hle & Hck & _ & Hh & Hcoll & _ & Hout & _).
  destruct (read_clock_spec w1 t w2 Hc1) as (Hle1 & Hck1 & Hth & Hh1 & Hcoll1 & _ & Hout1 & _).
  assert (Hw1 : healthy w1) by (unfold healthy in *; congruence).
  assert (Hw2 : healthy w2) by (unfold healthy in *; congruence).
  assert (Hd1 : first_with i (collection w1) = Some d) by congruence.
  pose proof (first_with_elem i _ d Hd1) as [Hin1 _].
  set (r := set_lastRequest now (set_count (count d + 1) (loaded d))).
  set (wa := with_collection (map (apply_save r) (collection w1)) w2).
  assert (Hrun : run (rateLimiter p (incoming x)) w =
                 (inr (Next (rate_headers (p_maxRequests p)
                               (Z.max 0 (p_maxRequests p - (count d + 1)))
                               (windowStart d + p_windowMs p) (incoming x))
                            (Some (loaded (fields r)))), wa)).
  { rewrite (rateLimiter_billed p _ i w w1 now Hb Hc).
    rewrite (check_count p _ now i w1 w2 d t Hw1 Hd1 Hc1) by lia. reflexivity. }
  assert (Hda : first_with i (collection wa) =
                Some (Doc (_id d) (identifier d) (count d + 1) now (windowStart d))).
  { unfold wa. simpl. rewrite (first_with_map _ i _ (apply_save_identifier _)), Hd1. simpl.
    unfold r. rewrite apply_save_count_lastRequest. reflexivity. }
  assert (Hlivea : forall w' c', healthy w' -> clock w' = clock w2 -> ticks w' = ticks w2 ->
            first_with i (collection w') =
              Some (Doc (_id d) (identifier d) c' now (windowStart d)) ->
            live w' i c' (windowStart d) (p_windowMs p)).
  { intros w' c' Hh' Hck' Htk' Hd'. unfold live. split; [exact Hh' |].
    split; [eexists; split; [exact Hd' | split; reflexivity] |].
    unfold horizon in *. rewrite Hck', Htk'. lia. }
  unfold serve. rewrite run_bind, Hrun.
  destruct (answered_json x) as [code |]; subst taken_back.
  - assert (Hina : In (apply_save r d) (collection wa)).
    { unfold wa. simpl. apply in_map. exact Hin1. }
    rewrite run_bind,
      (run_res_json_healthy p (loaded (fields r)) code wa (apply_save r d) Hw2 Hina)
      by (rewrite apply_save_id; reflexivity).
    do 2 eexists. split; [reflexivity |].
    destruct (skipped p code).
    + apply Hlivea; try reflexivity; [exact Hw2 |]. simpl.
      rewrite (first_with_map _ i _ (apply_save_identifier _)).
      change (map (apply_save r) (collection w1)) with (collection wa). rewrite Hda. simpl.
      rewrite (apply_save_taken _ (loaded (fields r)) _ eq_refl). simpl.
      rewrite Nat.eqb_refl.
      replace (count d + 1 - 1) with (count d) by lia. reflexivity.
    + apply Hlivea; try reflexivity; assumption.
  - do 2 eexists. split; [reflexivity |]. apply Hlivea; try reflexivity; assumption.
Qed.



(** ** The request that opens a window *)

Lemma serve_opening (p : policy) (x : exchange) (w w1 : World) (hs : list (string * json)) :
  run (rateLimiter p (incoming x)) w = (inr (Next hs None), w1) ->
  run (serve p x) w = (inr (Next hs None), w1).
Proof. intros Hrun. unfold serve. rewrite run_bind, Hrun. reflexivity. Qed.



Lemma serve_creates (p : policy) (x : exchange) (i : string) (w w1 : World) (now : Z) :
  billed (p_type p) (incoming x) = Some i ->
  healthy w ->
  first_with i (collection w) = None ->
  read_clock w = (now, w1) ->
  horizon w < now + p_windowMs p ->
  exists w',
    run (serve p x) w =
    (inr (Next (rate_headers (p_maxRequests p) (p_maxRequests p - 1) (now + p_windowMs p)
                  (incoming x)) None), w') /\
    live w' i 1 now (p_windowMs p).
Proof.
  intros Hb Hw Hnone Hc Hh.
  destruct (read_clock_spec w now w1 Hc) as (_ & Hclk & _ & Hhor & Hcoll & _ & Hout & _).
  assert (Hw1 : healthy w1) by (unfold healthy in *; congruence).
  eexists. split.
  - apply serve_opening. rewrite (rateLimiter_billed p _ i w w1 now Hb Hc).
    rewrite (check_create p _ now i w1 Hw1) by congruence. reflexivity.
  - unfold live, healthy, horizon in *. simpl. repeat split; try lia; try assumption.
    exists (Doc (next_oid w1) i 1 now now). rewrite Hcoll.
    rewrite (first_with_app_None i _ _ Hnone). unfold first_with. simpl.
    rewrite String.eqb_refl. auto.
Qed.

Lemma serve_all_taken_back (p : policy) (i : string) (xs : list exchange) :
  2 <= p_maxRequests p ->
  Forall (fun x => billed (p_type p) (incoming x) = Some i /\
                   exists statusCode, answered_json x = Some statusCode /\
                                      skipped p statusCode = true) xs ->
  forall (w : World) (ws : Z),
    live w i 1 ws (p_windowMs p) ->
    exists outs w',
      run (serve_all p xs) w = (inr outs, w') /\
      length outs = length xs /\
      forallb let_through outs = true /\
      live w' i 1 ws (p_windowMs p).
Proof.
  intros HQ Hall. induction Hall as [| x xs (Hb & code & Hans & Hsk) Hall IH];
    intros w ws Hlive.
  - exists [], w. split; [reflexivity |]. split; [reflexivity |].
    split; [reflexivity | exact Hlive].
  - destruct (serve_counted p x i w 1 ws Hb Hlive ltac:(lia)) as (jo & w1 & Hrun & Hlive1).
    rewrite Hans, Hsk in Hlive1.
    destruct (IH w1 ws Hlive1) as (outs & w2 & Hruns & Hlen & Hthrough & Hlive2).
    eexists. exists w2.
    split; [exact (run_serve_all_cons p x xs w w1 w2 _ outs Hrun Hruns) |].
    split; [simpl; congruence |]. split; [exact Hthrough | exact Hlive2].
Qed.

(** Under a policy that skips the requests answered at some statuses, with
    a quota of at least 2: however many requests a caller makes within one
    window, when each is answered through [res.json] at a skipped status
    all of them go through, none is answered 429, and the stored count is 1
    at the end, the request that opened the window. *)
Theorem all_skipped_never_rejected
        (p : policy) (i : string) (x : exchange) (xs : list exchange) (w : World) :
  2 <= p_maxRequests p ->
  Forall (fun x => billed (p_type p) (incoming x) = Some i /\
                   exists statusCode, answered_json x = Some statusCode /\
                                      skipped p statusCode = true) (x :: xs) ->
  healthy w ->
  first_with i (collection w) = None ->
  horizon w < fst (read_clock w) + p_windowMs p ->
  exists outs w' d',
    run (serve_all p (x :: xs)) w = (inr outs, w') /\
    length outs = length (x :: xs) /\
    forallb let_through outs = true /\
    tally rejected outs = 0%nat /\
    first_with i (collection w') = Some d' /\ count d' = 1.
Proof.
  intros HQ Hall Hw Hnone Hh.
  apply Forall_cons in Hall as [[Hb _] Hall].
  destruct (read_clock w) as [now w1] eqn:Hc. simpl fst in Hh.
  destruct (serve_creates p x i w w1 now Hb Hw Hnone Hc Hh) as (w2 & Hrun & Hlive).
  destruct (serve_all_taken_back p i xs HQ Hall w2 now Hlive)
    as (outs & w3 & Hruns & Hlen & Hthrough & Hlive3).
  destruct Hlive3 as (_ & (d' & Hd' & Hcnt & _) & _).
  eexists. exists w3, d'.
  split; [exact (run_serve_all_cons p x xs w w2 w3 _ outs Hrun Hruns) |].
  split; [simpl; congruence |]. split; [exact Hthrough |].
  split; [| split; [exact Hd' | exact Hcnt]].
  unfold tally. simpl.
  clear - Hthrough. induction outs as [| o outs IH]; [reflexivity |].
  simpl in Hthrough. apply andb_true_iff in Hthrough as [Ho Hrest].
  simpl. destruct o as [hs jo | e | st b]; try discriminate. simpl. exact (IH Hrest).
Qed.

Lemma all_skipped_never_rejected_witness :
  let p := Policy 60000 2 "Too many requests" true false "ip" in
  let x := {| incoming := {| req_user := None; req_ip := Some "203.0.113.7";
                             req_connection := None |};
              answered_json := Some 200 |} in
  exists outs w',
    run (serve_all p (repeat x 8)) (empty_world 1000 (repeat 5%nat 20)) = (inr outs, w') /\
    forallb let_through outs = true /\ map count (collection w') = [1].
Proof.
  intros p x.
  destruct (all_skipped_never_rejected p "203.0.113.7" x (repeat x 7)
              (empty_world 1000 (repeat 5%nat 20)))
    as (outs & w' & d' & Hrun & _ & Hthrough & _).
  - simpl. lia.
  - repeat constructor; exists 200; split; reflexivity.
  - reflexivity.
  - reflexivity.
  - vm_compute. reflexivity.
  - exists outs, w'. split; [exact Hrun |]. split; [exact Hthrough |].
    vm_compute in Hrun. injection Hrun as _ <-. reflexivity.
Defined.

(** ** Two limiters on one route *)

Lemma run_serve_unanswered (p : policy) (req : request) (w : World) :
  run (serve p {| incoming := req; answered_json := None |}) w = run (rateLimiter p req) w.
Proof.
  unfold serve. rewrite run_bind. simpl incoming.
  destruct (run (rateLimiter p req) w) as [[e | out] w1]; [reflexivity |].
  destruct out as [hs [r |] | e | st b]; reflexivity.
Qed.

Lemma through_two (m1 m2 : request -> Prog outcome) (req : request) (w w1 w2 : World)
      (hs : list (string * json)) (jo : option document) (o2 : outcome) :
  run (m1 req) w = (inr (Next hs jo), w1) ->
  run (m2 req) w1 = (inr o2, w2) ->
  run (through [m1; m2] req) w = (inr [Next hs jo; o2], w2).
Proof.
  intros H1 H2. simpl through. rewrite run_bind, H1. cbv beta iota.
  rewrite run_bind, run_bind, H2. destruct o2 as [hs2 jo2 | e | st b]; reflexivity.
Qed.

Lemma through_stopped (m : request -> Prog outcome) (ms : list (request -> Prog outcome))
      (req : request) (w w1 : World) (o : outcome) :
  run (m req) w = (inr o, w1) ->
  let_through o = false ->
  run (through (m :: ms) req) w = (inr [o], w1).
Proof.
  intros H1 Ho. simpl through. rewrite run_bind, H1.
  destruct o as [hs jo | e | st b]; [discriminate | reflexivity | reflexivity].
Qed.

Lemma run_through_all_cons (ms : list (request -> Prog outcome)) (req : request)
      (reqs : list request) (w w1 w2 : World) (outs : list outcome)
      (rest : list (list outcome)) :
  run (through ms req) w = (inr outs, w1) ->
  run (through_all ms reqs) w1 = (inr rest, w2) ->
  run (through_all ms (req :: reqs)) w = (inr (outs :: rest), w2).
Proof.
  intros H1 H2.
  change (through_all ms (req :: reqs))
    with (bind (through ms req)
               (fun o => bind (through_all ms reqs) (fun os => Ret (o :: os)))).
  rewrite run_bind, H1. cbv beta iota. rewrite run_bind, H2. reflexivity.
Qed.

(** Two limiters whose policies count every request, share the window
    length and bill the request to the same identifier. *)
Section TwoLimiters.

Variables p1 p2 : policy.
Variable i : string.
Hypothesis Hcounts1 : counts_all p1.
Hypothesis Hcounts2 : counts_all p2.
Hypothesis Hwindow : p_windowMs p2 = p_windowMs p1.
Hypothesis Hquota : 2 <= p_maxRequests p2 <= p_maxRequests p1.

Let chain := [rateLimiter p1; rateLimiter p2].

Lemma both_count (req : request) (w : World) (c ws : Z) :
  billed (p_type p1) req = Some i -> billed (p_type p2) req = Some i ->
  live w i c ws (p_windowMs p1) ->
  c + 2 <= p_maxRequests p2 ->
  exists outs w',
    run (through chain req) w = (inr outs, w') /\
    passed chain outs = true /\
    live w' i (c + 2) ws (p_windowMs p1).
Proof.
  intros Hb1 Hb2 Hlive Hc.
  destruct (serve_count p1 i Hcounts1 {| incoming := req; answered_json := None |}
              w c ws Hb1 Hlive ltac:(lia)) as (jo1 & w1 & Hrun1 & Hlive1 & _).
  rewrite run_serve_unanswered in Hrun1. rewrite <- Hwindow in Hlive1.
  destruct (serve_count p2 i Hcounts2 {| incoming := req; answered_json := None |}
              w1 (c + 1) ws Hb2 Hlive1 ltac:(lia)) as (jo2 & w2 & Hrun2 & Hlive2 & _).
  rewrite run_serve_unanswered in Hrun2. rewrite Hwindow in Hlive2.
  do 2 eexists. split; [exact (through_two _ _ req w w1 w2 _ _ _ Hrun1 Hrun2) |].
  split; [reflexivity |].
  replace (c + 2) with (c + 1 + 1) by lia. exact Hlive2.
Qed.

Lemma one_rejects (req : request) (w : World) (c ws : Z) :
  billed (p_type p1) req = Some i -> billed (p_type p2) req = Some i ->
  live w i c ws (p_windowMs p1) ->
  p_maxRequests p2 < c + 2 ->
  exists outs w' c',
    run (through chain req) w = (inr outs, w') /\
    passed chain outs = false /\
    c <= c' /\
    live w' i c' ws (p_windowMs p1).
Proof.
  intros Hb1 Hb2 Hlive Hc.
  destruct (Z.lt_ge_cases c (p_maxRequests p1)) as [Hunder | Hover].
  - destruct (serve_count p1 i Hcounts1 {| incoming := req; answered_json := None |}
                w c ws Hb1 Hlive Hunder) as (jo1 & w1 & Hrun1 & Hlive1 & _).
    rewrite run_serve_unanswered in Hrun1. rewrite <- Hwindow in Hlive1.
    destruct (serve_reject p2 i Hcounts2 {| incoming := req; answered_json := None |}
                w1 (c + 1) ws Hb2 Hlive1 ltac:(lia)) as (now & w2 & Hrun2 & _ & _ & Hlive2).
    rewrite run_serve_unanswered in Hrun2. rewrite Hwindow in Hlive2.
    eexists. exists w2, (c + 1).
    split; [exact (through_two _ _ req w w1 w2 _ _ _ Hrun1 Hrun2) |].
    split; [reflexivity |]. split; [lia | exact Hlive2].
  - destruct (serve_reject p1 i Hcounts1 {| incoming := req; answered_json := None |}
                w c ws Hb1 Hlive Hover) as (now & w1 & Hrun1 & _ & _ & Hlive1).
    rewrite run_serve_unanswered in Hrun1.
    eexists. exists w1, c.
    split; [exact (through_stopped _ _ req w w1 _ Hrun1 eq_refl) |].
    split; [reflexivity |]. split; [lia | exact Hlive1].
Qed.

Lemma through_all_live (reqs : list request) :
  Forall (fun req => billed (p_type p1) req = Some i /\ billed (p_type p2) req = Some i)
         reqs ->
  forall (w : World) (c ws : Z),
    live w i c ws (p_windowMs p1) ->
    exists outss w',
      run (through_all chain reqs) w = (inr outss, w') /\
      length outss = length reqs /\
      forall (n : nat) (outs : list outcome),
        outss !! n = Some outs ->
        (passed chain outs = true <-> c + 2 * (Z.of_nat n + 1) <= p_maxRequests p2).
Proof.
  intros Hall. induction Hall as [| req reqs [Hb1 Hb2] Hall IH]; intros w c ws Hlive.
  - exists [], w. split; [reflexivity |]. split; [reflexivity |].
    intros n outs Hn. rewrite lookup_nil in Hn. discriminate.
  - destruct (Z.le_gt_cases (c + 2) (p_maxRequests p2)) as [Hc | Hc].
    + destruct (both_count req w c ws Hb1 Hb2 Hlive Hc) as (outs & w1 & Hrun & Hpass & Hlive1).
      destruct (IH w1 (c + 2) ws Hlive1) as (rest & w2 & Hruns & Hlen & Hrest).
      exists (outs :: rest), w2.
      split; [exact (run_through_all_cons _ req reqs w w1 w2 outs rest Hrun Hruns) |].
      split; [simpl; congruence |].
      intros [| n] o Ho.
      * injection Ho as <-. rewrite Hpass. split; [lia | reflexivity].
      * simpl in Ho. rewrite (Hrest n o Ho). lia.
    + destruct (one_rejects req w c ws Hb1 Hb2 Hlive ltac:(lia))
        as (outs & w1 & c' & Hrun & Hpass & Hle & Hlive1).
      destruct (IH w1 c' ws Hlive1) as (rest & w2 & Hruns & Hlen & Hrest).
      exists (outs :: rest), w2.
      split; [exact (run_through_all_cons _ req reqs w w1 w2 outs rest Hrun Hruns) |].
      split; [simpl; congruence |].
      intros [| n] o Ho.
      * injection Ho as <-. rewrite Hpass. split; [discriminate | lia].
      * simpl in Ho. rewrite (Hrest n o Ho). lia.
Qed.

Lemma through_first (req : request) (w w1 : World) (now : Z) :
  billed (p_type p1) req = Some i -> billed (p_type p2) req = Some i ->
  healthy w ->
  first_with i (collection w) = None ->
  read_clock w = (now, w1) ->
  horizon w < now + p_windowMs p1 ->
  exists outs w',
    run (through chain req) w = (inr outs, w') /\
    passed chain outs = true /\
    live w' i 2 now (p_windowMs p1).
Proof.
  intros Hb1 Hb2 Hw Hnone Hc Hh.
  destruct (serve_create p1 i Hcounts1 {| incoming := req; answered_json := None |}
              w w1 now Hb1 Hw Hnone Hc Hh) as (wa & Hrun1 & Hlive1 & _).
  rewrite run_serve_unanswered in Hrun1. rewrite <- Hwindow in Hlive1.
  destruct (serve_count p2 i Hcounts2 {| incoming := req; answered_json := None |}
              wa 1 now Hb2 Hlive1 ltac:(lia)) as (jo2 & wb & Hrun2 & Hlive2 & _).
  rewrite run_serve_unanswered in Hrun2. rewrite Hwindow in Hlive2.
  do 2 eexists. split; [exact (through_two _ _ req w wa wb _ _ _ Hrun1 Hrun2) |].
  split; [reflexivity | exact Hlive2].
Qed.

End TwoLimiters.

(** Two limiters in a row on one route, as [authRouter.use(ipRateLimiter)]
    followed by [ipRateLimiter] on the route, or [generalRateLimiter]
    followed by [strictRateLimiter]: both bill the same stored window, so
    each request that passes is counted twice.  With policies that count
    every request, have the same window length and quotas
    [2 <= Q2 <= Q1], of the requests made within one window, request number
    [n] (from 0) reaches the route's handler exactly when
    [2 * (n + 1) <= Q2]: half the quota of the second limiter. *)
Theorem two_limiters_halve_the_quota
        (p1 p2 : policy) (i : string) (req : request) (reqs : list request) (w : World) :
  counts_all p1 -> counts_all p2 ->
  p_windowMs p2 = p_windowMs p1 ->
  2 <= p_maxRequests p2 <= p_maxRequests p1 ->
  Forall (fun req => billed (p_type p1) req = Some i /\ billed (p_type p2) req = Some i)
         (req :: reqs) ->
  healthy w ->
  first_with i (collection w) = None ->
  horizon w < fst (read_clock w) + p_windowMs p1 ->
  exists outss w',
    run (through_all [rateLimiter p1; rateLimiter p2] (req :: reqs)) w = (inr outss, w') /\
    length outss = length (req :: reqs) /\
    forall (n : nat) (outs : list outcome),
      outss !! n = Some outs ->
      (passed [rateLimiter p1; rateLimiter p2] outs = true <->
       2 * (Z.of_nat n + 1) <= p_maxRequests p2).
Proof.
  intros Hc1 Hc2 HW HQ Hall Hw Hnone Hh.
  apply Forall_cons in Hall as [[Hb1 Hb2] Hall].
  destruct (read_clock w) as [now w1] eqn:Hc. simpl fst in Hh.
  destruct (through_first p1 p2 i Hc1 Hc2 HW HQ req w w1 now Hb1 Hb2 Hw Hnone Hc Hh)
    as (outs & wa & Hrun & Hpass & Hlive).
  destruct (through_all_live p1 p2 i Hc1 Hc2 HW HQ reqs Hall wa 2 now Hlive)
    as (rest & wb & Hruns & Hlen & Hrest).
  exists (outs :: rest), wb.
  split; [exact (run_through_all_cons _ req reqs w wa wb outs rest Hrun Hruns) |].
  split; [simpl; congruence |].
  intros [| n] o Ho.
  - injection Ho as <-. cbv zeta in Hpass. rewrite Hpass. split; [lia | reflexivity].
  - simpl in Ho. cbv zeta in Hrest. rewrite (Hrest n o Ho). lia.
Qed.

(** Sign-in attempts from one address go twice through [ipRateLimiter]
    (20 a minute): the first ten reach [signIn], the eleventh does not. *)
Lemma two_limiters_halve_the_quota_witness :
  let req := {| req_user := None; req_ip := Some "203.0.113.7"; req_connection := None |} in
  exists outss w',
    run (through_all [ipRateLimiter; ipRateLimiter] (repeat req 11))
        (empty_world 1000 (repeat 5%nat 40)) = (inr outss, w') /\
    map (passed [ipRateLimiter; ipRateLimiter]) outss =
      repeat true 10 ++ [false].
Proof.
  intros req.
  destruct (two_limiters_halve_the_quota
              (Policy 60000 20 "Too many requests from this IP address." false false "ip")
              (Policy 60000 20 "Too many requests from this IP address." false false "ip")
              "203.0.113.7" req (repeat req 10) (empty_world 1000 (repeat 5%nat 40)))
    as (outss & w' & Hrun & _ & _).
  - split; reflexivity.
  - split; reflexivity.
  - reflexivity.
  - simpl. lia.
  - repeat constructor.
  - reflexivity.
  - reflexivity.
  - vm_compute. reflexivity.
  - exists outss, w'. split; [exact Hrun |].
    vm_compute in Hrun. injection Hrun as <- _. reflexivity.
Defined.

(** A signed-in caller on a route behind [generalRateLimiter] (60 a
    minute) and [strictRateLimiter] (10 a minute): five requests a minute
    reach the handler. *)
Example general_then_strict :
  let req := {| req_user := Some (User.mk (Some "64f0c2") (Some "64f0c2"));
                req_ip := Some "203.0.113.7"; req_connection := None |} in
  map (passed [generalRateLimiter; strictRateLimiter])
      (match fst (run (through_all [generalRateLimiter; strictRateLimiter] (repeat req 7))
                      (empty_world 1000 (repeat 5%nat 40))) with
       | inr outss => outss
       | inl _ => []
       end) =
  [true; true; true; true; true; false; false].
Proof. reflexivity. Qed.

(** ** The strategies *)

Lemma rateLimiter_by_billed (p : policy) (req : request) :
  rateLimiter p req =
  try_catch
    (bind date_now
          (fun now => match billed (p_type p) req with
                      | None => Ret (Next [] None)
                      | Some identifier => check_and_count p req now identifier
                      end))
    (fun error => bind (console_error (RateLimitingError error))
                       (fun _ => Ret (Next [] None))).
Proof.
  unfold rateLimiter, billed. destruct (resolve (p_type p) req); reflexivity.
Qed.

Lemma billed_not_ip (type : string) (req : request) :
  type <> "ip" ->
  billed type req =
  if has_user req then usable (user_identifier req)
  else usable (Some (address_identifier req)).
Proof.
  intros Hip. apply String.eqb_neq in Hip. unfold billed, resolve. rewrite Hip.
  destruct (has_user req); simpl; rewrite ?andb_false_r, ?andb_true_r; [| reflexivity].
  destruct (String.eqb type "token"); [| reflexivity].
  destruct (truthy (user_identifier req)) eqn:Ht; simpl; [reflexivity |].
  unfold usable. destruct (user_identifier req) as [s |]; [| reflexivity].
  rewrite Ht. reflexivity.
Qed.



(** ** The usage endpoints *)

(** What the limiter has recorded, [getUserRateLimit] reads back: after
    [N] requests billed to the id of the signed-in user, handled within the
    window the first one opened under a policy with quota [Q] that counts
    every request, it answers [currentUsage] [min N Q], [remaining]
    [max 0 (60 - min N Q)] and [resetTime] the start of the window plus
    60000: the values of the limiter's own headers when the policy has
    quota 60 and window 60000, and not otherwise. *)
Theorem usage_reads_back
        (p : policy) (i : string) (u : User.t) (req : request)
        (x : exchange) (xs : list exchange) (w : World) :
  counts_all p ->
  1 <= p_maxRequests p ->
  Forall (fun x => billed (p_type p) (incoming x) = Some i) (x :: xs) ->
  healthy w ->
  first_with i (collection w) = None ->
  horizon w < fst (read_clock w) + p_windowMs p ->
  req_user req = Some u -> User.id u = Some i -> truthy (Some i) = true ->
  let usage := Z.min (Z.of_nat (length (x :: xs))) (p_maxRequests p) in
  exists outs w' last,
    run (serve_all p (x :: xs)) w = (inr outs, w') /\
    fst (run (getUserRateLimit req) w') =
    inr (Respond 200
           (JObj [ ("success", JBool true);
                   ("data", JObj [ ("currentUsage", JNum usage);
                                   ("limit", JNum 60);
                                   ("remaining", JNum (Z.max 0 (60 - usage)));
                                   ("resetTime", JDate (fst (read_clock w) + 60000));
                                   ("windowMs", JNum 60000);
                                   ("lastRequest", JDate last) ]) ])).
Proof.
  intros Hp HQ Hall Hw Hnone Hh Hu Hi Ht usage.
  destruct (read_clock w) as [now w1] eqn:Hc. simpl fst in *.
  destruct (serve_all_fresh p i Hp x xs w w1 now HQ Hall Hw Hnone Hc Hh)
    as (outs & w' & Hrun & _ & Hlive & _).
  destruct Hlive as (Hw' & (d & Hd & Hcnt & Hws) & _).
  exists outs, w', (lastRequest d). split; [exact Hrun |].
  rewrite (getUserRateLimit_found req u i d w' Hw' Hu Hi Ht Hd).
  simpl fst. subst usage. rewrite Hcnt, Hws. reflexivity.
Qed.

Lemma usage_reads_back_witness :
  let strict :=
    Policy 60000 10 "Rate limit exceeded for sensitive operations." false false "hybrid" in
  let req := {| req_user := Some (User.mk (Some "64f0c2") (Some "64f0c2"));
                req_ip := Some "203.0.113.7"; req_connection := None |} in
  let x := {| incoming := req; answered_json := Some 200 |} in
  exists outs w',
    run (serve_all strict (repeat x 12)) (empty_world 1000 (repeat 5%nat 30)) = (inr outs, w') /\
    tally rejected outs = 2%nat /\
    member "remaining"
      (match fst (run (getUserRateLimit req) w') with
       | inr (Respond _ (JObj [_; (_, JObj data)])) => data
       | _ => []
       end) = Some (JNum 50).
Proof.
  intros strict req x.
  destruct (usage_reads_back strict "64f0c2" (User.mk (Some "64f0c2") (Some "64f0c2")) req
              x (repeat x 11) (empty_world 1000 (repeat 5%nat 30)))
    as (outs & w' & last & Hrun & Husage).
  - split; reflexivity.
  - simpl. lia.
  - repeat constructor.
  - reflexivity.
  - reflexivity.
  - vm_compute. reflexivity.
  - reflexivity.
  - reflexivity.
  - reflexivity.
  - exists outs, w'. split; [exact Hrun |]. rewrite Husage. split; [| reflexivity].
    vm_compute in Hrun. injection Hrun as <- _. reflexivity.
Defined.

(** Without a user id on the request ([req.user] missing, or its [id]
    undefined or empty) [getUserRateLimit] answers 401 and does nothing
    else: it reads neither the store nor the clock, whatever their state. *)
Theorem usage_without_user_id (req : request) (w : World) :
  truthy (u ← req_user req; User.id u) = false ->
  run (getUserRateLimit req) w =
  (inr (Respond 401 (JObj [ ("success", JBool false);
                            ("message", JStr "Authentication required") ])), w).
Proof.
  intros Ht. unfold getUserRateLimit.
  destruct (u ← req_user req; User.id u) as [userId |]; [| reflexivity].
  rewrite Ht. reflexivity.
Qed.

Lemma usage_without_user_id_witness :
  let req := {| req_user := Some (User.mk None (Some "64f0c2"));
                req_ip := Some "203.0.113.7"; req_connection := None |} in
  let w := mkWorld [Doc 0 "64f0c2" 3 900 500] 1 1000 [5%nat] [true] 0 [] in
  billed "hybrid" req = Some "64f0c2" /\
  run (getUserRateLimit req) w =
  (inr (Respond 401 (JObj [ ("success", JBool false);
                            ("message", JStr "Authentication required") ])), w).
Proof.
  intros req w. split; [reflexivity |].
  apply (usage_without_user_id req w). reflexivity.
Defined.

(** Unlike the limiter, the two controllers do not answer when the store
    fails: an operation of the store that fails, the first or (for the
    statistics) the second, sends the error to [next(error)], with nothing
    written to the console and nothing stored; otherwise they answer 200. *)
Theorem controllers_hand_store_errors_on (req : request) (w : World) :
  (exists out w',
      run (getAllRateLimitStats req) w = (inr out, w') /\
      console w' = console w /\ collection w' = collection w /\
      (failed_ops w' = failed_ops w -> exists body, out = Respond 200 body) /\
      (failed_ops w' <> failed_ops w -> out = NextError StoreUnavailable)) /\
  (truthy (u ← req_user req; User.id u) = true ->
   exists out w',
     run (getUserRateLimit req) w = (inr out, w') /\
     console w' = console w /\ collection w' = collection w /\
     (failed_ops w' = failed_ops w -> exists body, out = Respond 200 body) /\
     (failed_ops w' <> failed_ops w -> out = NextError StoreUnavailable)).
Proof.
  split.
  - unfold getAllRateLimitStats. rewrite run_try_catch, run_bind, run_query.
    unfold store_read at 1.
    destruct (reach_store w) as [[|] w0] eqn:Hr;
      apply reach_store_spec in Hr as (Hc & _ & _ & _ & Hco & Hf).
    + cbv beta iota. rewrite run_bind, run_query. unfold store_read.
      destruct (reach_store w0) as [[|] w1] eqn:Hr1;
        apply reach_store_spec in Hr1 as (Hc1 & _ & _ & _ & Hco1 & Hf1).
      * do 2 eexists. split; [reflexivity |].
        split; [congruence |]. split; [congruence |].
        split; [intros _; eexists; reflexivity | intros Hne; congruence].
      * do 2 eexists. split; [reflexivity |].
        split; [congruence |]. split; [congruence |].
        split; [intros Heq; rewrite Hf1, Hf in Heq; lia | reflexivity].
    + do 2 eexists. split; [reflexivity |].
      split; [congruence |]. split; [congruence |].
      split; [intros Heq; rewrite Hf in Heq; lia | reflexivity].
  - intros Ht. unfold getUserRateLimit.
    destruct (u ← req_user req; User.id u) as [userId |]; [| discriminate].
    rewrite Ht. simpl negb. cbv iota. rewrite run_try_catch, run_bind.
    unfold findOne. rewrite run_query. unfold store_read.
    destruct (reach_store w) as [[|] w0] eqn:Hr;
      apply reach_store_spec in Hr as (Hc & _ & _ & _ & Hco & Hf).
    + destruct (read_clock w0) as [t w1] eqn:Hc1.
      destruct (read_clock_spec w0 t w1 Hc1) as (_ & _ & _ & _ & Hcoll1 & _ & _ & Hf1 & Hco1).
      destruct (first_with userId (collection w0)) as [d |]; simpl option_map;
        cbv beta iota; rewrite run_bind, run_date_now, Hc1;
        (do 2 eexists; split; [reflexivity |];
         split; [congruence |]; split; [congruence |];
         split; [intros _; eexists; reflexivity | intros Hne; congruence]).
    + do 2 eexists. split; [reflexivity |].
      split; [congruence |]. split; [congruence |].
      split; [intros Heq; rewrite Hf in Heq; lia | reflexivity].
Qed.

Lemma controllers_hand_store_errors_on_witness :
  let req := {| req_user := Some (User.mk (Some "64f0c2") (Some "64f0c2"));
                req_ip := Some "203.0.113.7"; req_connection := None |} in
  let w := mkWorld [Doc 0 "64f0c2" 3 900 500] 1 1000 [5%nat] [false; true] 0 [] in
  fst (run (getAllRateLimitStats req) w) = inr (NextError StoreUnavailable) /\
  exists body, fst (run (getUserRateLimit req) w) = inr (Respond 200 body).
Proof.
  intros req w.
  destruct (controllers_hand_store_errors_on req w) as [Hstats Husage].
  destruct Hstats as (out & w' & Hrun & _ & _ & _ & Hfail).
  destruct (Husage eq_refl) as (out2 & w2 & Hrun2 & _ & _ & Hok & _).
  split.
  - rewrite Hrun. simpl. f_equal. apply Hfail.
    vm_compute in Hrun. injection Hrun as _ <-. simpl. discriminate.
  - rewrite Hrun2. simpl. destruct Hok as [body Hbody]; [| exists body; congruence].
    vm_compute in Hrun2. injection Hrun2 as _ <-. reflexivity.
Defined.

(** ** [authenticate] *)

Example header_without_token :
  bearer_token "Bearer" = None /\ bearer_token "Bearer " = None /\
  bearer_token "Bearer  eyJ" = None /\ bearer_token "Basic eyJ" = None /\
  bearer_token "bearer eyJ" = None.
Proof. repeat split. Qed.

Example header_scheme_not_a_word :
  bearer_token "Bearer eyJ.a.b" = Some "eyJ.a.b" /\
  bearer_token "BearerToken eyJ.a.b ignored" = Some "eyJ.a.b".
Proof. repeat split. Qed.

Lemma split_on_none (sep : ascii) (s : string) :
  has_char sep s = false -> split_on sep s = [s].
Proof.
  induction s as [| c s IH]; simpl; [reflexivity |].
  intros H. apply orb_false_iff in H as [Hc Hs]. rewrite Hc, (IH Hs). reflexivity.
Qed.

Lemma split_on_first (sep : ascii) (a s : string) :
  has_char sep a = false ->
  split_on sep (a ++ String sep s) = a :: split_on sep s.
Proof.
  induction a as [| c a IH]; simpl.
  - intros _. rewrite Ascii.eqb_refl. reflexivity.
  - intros H. apply orb_false_iff in H as [Hc Ha]. rewrite Hc, (IH Ha). reflexivity.
Qed.

Lemma split_on_fields (sep : ascii) (s : string) :
  Forall (fun field => has_char sep field = false) (split_on sep s).
Proof.
  induction s as [| c s IH]; simpl.
  - repeat constructor.
  - destruct (Ascii.eqb c sep) eqn:Hc; [constructor; [reflexivity | exact IH] |].
    destruct (split_on sep s) as [| f fs]; [repeat constructor; simpl; rewrite Hc; reflexivity |].
    apply Forall_cons in IH as [Hf Hfs]. constructor; [| exact Hfs].
    simpl. rewrite Hc, Hf. reflexivity.
Qed.

Lemma authenticate_by_token
      (jwt_verify : string -> string + option string)
      (findById : option string -> string + option account)
      (authHeader : string) (req : request) :
  authenticate jwt_verify findById (Some authHeader) req =
  match bearer_token authHeader with
  | None =>
      if negb (truthy (Some authHeader)) || negb (String.prefix "Bearer" authHeader)
      then refusal 401
             "Authorization header missing or invalid format. Expected: Bearer <token>" false
      else refusal 401 "Token missing from authorization header" false
  | Some token =>
      authenticate jwt_verify findById (Some ("Bearer " ++ token)%string) req
  end.
Proof.
  unfold bearer_token.
  destruct (negb (truthy (Some authHeader)) || negb (String.prefix "Bearer" authHeader))
    eqn:Hhead.
  - unfold authenticate. rewrite Hhead. reflexivity.
  - pose proof (split_on_fields " "%char authHeader) as Hfields.
    destruct (split_on " "%char authHeader !! 1%nat) as [token |] eqn:Htok.
    + destruct (truthy (Some token)) eqn:Ht.
      * assert (Hns : has_char " "%char token = false).
        { apply (proj1 (Forall_forall _ _) Hfields token).
          apply (list_elem_of_lookup_2 _ 1%nat). exact Htok. }
        unfold authenticate at 2.
        change ("Bearer " ++ token)%string
          with ("Bearer" ++ String " "%char token)%string.
        rewrite (split_on_first " "%char "Bearer" token eq_refl), (split_on_none _ _ Hns).
        change (["Bearer"; token] !! 1%nat) with (Some token).
        change (negb (truthy (Some ("Bearer" ++ String " " token)%string))
                || negb (String.prefix "Bearer" ("Bearer" ++ String " " token)%string))
          with false.
        cbv iota. rewrite Ht.
        unfold authenticate. rewrite Hhead, Htok, Ht. reflexivity.
      * unfold authenticate. rewrite Hhead, Htok, Ht. reflexivity.
    + unfold authenticate. rewrite Hhead, Htok. reflexivity.
Qed.

Lemma authenticate_next
      (jwt_verify : string -> string + option string)
      (findById : option string -> string + option account)
      (authorization : option string) (req req' : request) :
  authenticate jwt_verify findById authorization req = AuthNext req' <->
  exists authHeader token userId user,
    authorization = Some authHeader /\
    bearer_token authHeader = Some token /\
    jwt_verify token = inr userId /\
    findById userId = inr (Some user) /\
    acc_isActive user = true /\
    req' = with_user user req.
Proof.
  split.
  - unfold authenticate, refusal.
    destruct authorization as [authHeader |]; [| discriminate].
    destruct (negb (truthy (Some authHeader)) || negb (String.prefix "Bearer" authHeader))
      eqn:Hhead; [discriminate |].
    destruct (split_on " "%char authHeader !! 1%nat) as [token |] eqn:Hl; [| discriminate].
    destruct (truthy (Some token)) eqn:Ht; simpl negb; cbv iota; [| discriminate].
    destruct (jwt_verify token) as [name | userId] eqn:Hv.
    { destruct (String.eqb name "JsonWebTokenError"); [discriminate |].
      destruct (String.eqb name "TokenExpiredError"); discriminate. }
    destruct (findById userId) as [name | [user |]] eqn:Hf.
    { destruct (String.eqb name "JsonWebTokenError"); [discriminate |].
      destruct (String.eqb name "TokenExpiredError"); discriminate. }
    2: discriminate.
    destruct (acc_isActive user) eqn:Ha; simpl negb; cbv iota; [| discriminate].
    intros H. injection H as <-.
    exists authHeader, token, userId, user.
    split; [reflexivity |]. split; [unfold bearer_token; rewrite Hhead, Hl, Ht; reflexivity |].
    split; [exact Hv |]. split; [exact Hf |]. split; [exact Ha |]. reflexivity.
  - intros (authHeader & token & userId & user & -> & Htok & Hv & Hf & Ha & ->).
    unfold bearer_token in Htok.
    destruct (negb (truthy (Some authHeader)) || negb (String.prefix "Bearer" authHeader))
      eqn:Hhead; [discriminate |].
    destruct (split_on " "%char authHeader !! 1%nat) as [token' |] eqn:Hl; [| discriminate].
    destruct (truthy (Some token')) eqn:Ht; [| discriminate].
    injection Htok as ->. unfold authenticate.
    rewrite Hhead, Hl, Ht. simpl negb. cbv iota.
    rewrite Hv, Hf, Ha. reflexivity.
Qed.

Lemma check_and_count_type (p : policy) (req req' : request) (now : Z) (identifier : string) :
  limiter_type req = limiter_type req' ->
  check_and_count p req now identifier = check_and_count p req' now identifier.
Proof.
  intros Ht. unfold check_and_count, rate_headers, rejection. rewrite Ht. reflexivity.
Qed.

Lemma user_identifier_with_user (user : account) (req : request) :
  user_identifier (with_user user req) = Some (acc_id user).
Proof.
  unfold user_identifier, with_user, js_or. simpl.
  destruct (negb (String.eqb (acc_id user) "")); reflexivity.
Qed.

(** The token [authenticate] verifies is the second space-separated field of
    the header: it is never empty and holds no space, whatever follows the
    first six characters [Bearer] of the first field and whatever fields come
    after the second are ignored, and the header [Bearer <token>] built
    from it gives the same token and the same answer. *)
Theorem authenticate_reads_second_field
        (jwt_verify : string -> string + option string)
        (findById : option string -> string + option account)
        (authHeader token : string) (req : request) :
  bearer_token authHeader = Some token ->
  token <> "" /\ has_char " "%char token = false /\
  bearer_token ("Bearer " ++ token)%string = Some token /\
  authenticate jwt_verify findById (Some authHeader) req =
  authenticate jwt_verify findById (Some ("Bearer " ++ token)%string) req.
Proof.
  intros Htok.
  assert (Hshape : token <> "" /\ has_char " "%char token = false).
  { unfold bearer_token in Htok.
    destruct (negb (truthy (Some authHeader)) || negb (String.prefix "Bearer" authHeader));
      [discriminate |].
    pose proof (split_on_fields " "%char authHeader) as Hfields.
    destruct (split_on " "%char authHeader !! 1%nat) as [token' |] eqn:Hl; [| discriminate].
    destruct (truthy (Some token')) eqn:Ht; [| discriminate].
    injection Htok as ->. split.
    - intros ->. discriminate.
    - apply (proj1 (Forall_forall _ _) Hfields token).
      apply (list_elem_of_lookup_2 _ 1%nat). exact Hl. }
  destruct Hshape as [Hne Hns]. split; [exact Hne |]. split; [exact Hns |]. split.
  - unfold bearer_token.
    change ("Bearer " ++ token)%string with ("Bearer" ++ String " "%char token)%string.
    rewrite (split_on_first " "%char "Bearer" token eq_refl), (split_on_none _ _ Hns).
    change (["Bearer"; token] !! 1%nat) with (Some token).
    change (negb (truthy (Some ("Bearer" ++ String " " token)%string))
            || negb (String.prefix "Bearer" ("Bearer" ++ String " " token)%string))
      with false.
    cbv iota. unfold truthy. apply String.eqb_neq in Hne. rewrite Hne. reflexivity.
  - rewrite (authenticate_by_token jwt_verify findById authHeader req), Htok. reflexivity.
Qed.

Lemma authenticate_reads_second_field_witness :
  bearer_token "BearerToken eyJ.a.b ignored" = Some "eyJ.a.b" /\
  authenticate (fun _ => inr (Some "u1")) (fun _ => inr None)
               (Some "BearerToken eyJ.a.b ignored") {| req_user := None; req_ip := Some "10.0.0.1"; req_connection := None |} =
  authenticate (fun _ => inr (Some "u1")) (fun _ => inr None)
               (Some "Bearer eyJ.a.b") {| req_user := None; req_ip := Some "10.0.0.1"; req_connection := None |}.
Proof.
  split; [reflexivity |].
  apply (authenticate_reads_second_field
           (fun _ => inr (Some "u1")) (fun _ => inr None)
           "BearerToken eyJ.a.b ignored" "eyJ.a.b" {| req_user := None; req_ip := Some "10.0.0.1"; req_connection := None |} eq_refl).
Defined.

(** [authenticate] calls [next] exactly when the header carries a token,
    [jwt.verify] accepts it, [User.findById] finds the user of its [userId]
    and that user is active; [req.user.id] and [req.user.userId] are then
    both the id of the user found, and the rest of the request is as it
    was. *)
Theorem authenticate_passes_active_users_only
        (jwt_verify : string -> string + option string)
        (findById : option string -> string + option account)
        (authorization : option string) (req req' : request) :
  authenticate jwt_verify findById authorization req = AuthNext req' ->
  exists authHeader token userId user,
    authorization = Some authHeader /\
    bearer_token authHeader = Some token /\
    jwt_verify token = inr userId /\
    findById userId = inr (Some user) /\
    acc_isActive user = true /\
    (u ← req_user req'; User.id u) = Some (acc_id user) /\
    (u ← req_user req'; User.userId u) = Some (acc_id user) /\
    req_ip req' = req_ip req /\
    req_connection req' = req_connection req /\
    forall other,
      authenticate jwt_verify findById authorization other = AuthNext (with_user user other).
Proof.
  intros H. apply authenticate_next in H
    as (authHeader & token & userId & user & Hh & Htok & Hv & Hf & Ha & ->).
  exists authHeader, token, userId, user.
  split; [exact Hh |]. split; [exact Htok |]. split; [exact Hv |]. split; [exact Hf |].
  split; [exact Ha |]. split; [reflexivity |]. split; [reflexivity |].
  split; [reflexivity |]. split; [reflexivity |].
  intros other. apply authenticate_next.
  exists authHeader, token, userId, user. repeat split; assumption.
Qed.

Lemma authenticate_passes_active_users_only_witness :
  exists user,
    acc_id user = "64f0c2" /\
    forall other,
      authenticate example_jwt_verify example_findById (Some "Bearer good") other =
      AuthNext (with_user user other).
Proof.
  destruct (authenticate_passes_active_users_only
              example_jwt_verify example_findById (Some "Bearer good")
              {| req_user := None; req_ip := Some "10.0.0.1"; req_connection := None |}
              _ eq_refl)
    as (authHeader & token & userId & user & _ & _ & _ & _ & _ & Hid & _ & _ & _ & Hall).
  exists user. split; [| exact Hall].
  simpl in Hid. injection Hid as <-. reflexivity.
Defined.

(** Every answer [authenticate] gives itself is [success: false] with
    status 401 or 500.  It is 500, and the error is logged, exactly when
    [jwt.verify] or [User.findById] threw an error named neither
    [JsonWebTokenError] nor [TokenExpiredError]; every 401 goes unlogged. *)
Theorem authenticate_refuses_with_401_or_500
        (jwt_verify : string -> string + option string)
        (findById : option string -> string + option account)
        (authorization : option string) (req : request)
        (status : Z) (body : json) (logged : bool) :
  authenticate jwt_verify findById authorization req = AuthRespond status body logged ->
  (exists message, body = JObj [("success", JBool false); ("message", JStr message)]) /\
  (status = 401 /\ logged = false \/ status = 500 /\ logged = true) /\
  (status = 500 <->
   exists authHeader token name,
     authorization = Some authHeader /\
     bearer_token authHeader = Some token /\
     (jwt_verify token = inl name \/
      exists userId, jwt_verify token = inr userId /\ findById userId = inl name) /\
     name <> "JsonWebTokenError" /\ name <> "TokenExpiredError").
Proof.
  assert (Hcatch : forall name,
             (if String.eqb name "JsonWebTokenError"
              then refusal 401 "Invalid token format" false
              else if String.eqb name "TokenExpiredError"
                   then refusal 401 "Token has expired. Please login again." false
                   else refusal 500 "Authentication failed" true)
             = AuthRespond status body logged ->
             (exists message,
                 body = JObj [("success", JBool false); ("message", JStr message)]) /\
             (status = 401 /\ logged = false \/ status = 500 /\ logged = true) /\
             (status = 500 <-> name <> "JsonWebTokenError" /\ name <> "TokenExpiredError")).
  { intros name. unfold refusal.
    destruct (String.eqb name "JsonWebTokenError") eqn:H1.
    { intros H. injection H as <- <- <-. apply String.eqb_eq in H1.
      split; [eexists; reflexivity |]. split; [left; split; reflexivity |].
      split; [discriminate | intros [Hn _]; contradiction]. }
    destruct (String.eqb name "TokenExpiredError") eqn:H2.
    { intros H. injection H as <- <- <-. apply String.eqb_eq in H2.
      split; [eexists; reflexivity |]. split; [left; split; reflexivity |].
      split; [discriminate | intros [_ Hn]; contradiction]. }
    intros H. injection H as <- <- <-.
    apply String.eqb_neq in H1. apply String.eqb_neq in H2.
    split; [eexists; reflexivity |]. split; [right; split; reflexivity |].
    split; [intros _; split; assumption | reflexivity]. }
  assert (Hplain : forall message,
             refusal 401 message false = AuthRespond status body logged ->
             (exists message,
                 body = JObj [("success", JBool false); ("message", JStr message)]) /\
             (status = 401 /\ logged = false \/ status = 500 /\ logged = true) /\
             status <> 500).
  { intros message H. unfold refusal in H. injection H as <- <- <-.
    split; [eexists; reflexivity |]. split; [left; split; reflexivity |].
    discriminate. }
  unfold authenticate.
  destruct authorization as [authHeader |].
  2: { intros H. apply Hplain in H as (Hm & Hst & Hne).
       split; [exact Hm |]. split; [exact Hst |].
       split; [intros; contradiction | intros (? & ? & ? & Hh & _); discriminate]. }
  destruct (negb (truthy (Some authHeader)) || negb (String.prefix "Bearer" authHeader))
    eqn:Hhead.
  { intros H. apply Hplain in H as (Hm & Hst & Hne).
    split; [exact Hm |]. split; [exact Hst |].
    split; [intros; contradiction |].
    intros (h & token & name & Hh & Htok & _). injection Hh as <-.
    unfold bearer_token in Htok. rewrite Hhead in Htok. discriminate. }
  destruct (split_on " "%char authHeader !! 1%nat) as [token |] eqn:Hl.
  2: { intros H. apply Hplain in H as (Hm & Hst & Hne).
       split; [exact Hm |]. split; [exact Hst |].
       split; [intros; contradiction |].
       intros (h & token & name & Hh & Htok & _). injection Hh as <-.
       unfold bearer_token in Htok. rewrite Hhead, Hl in Htok. discriminate. }
  destruct (truthy (Some token)) eqn:Ht; simpl negb; cbv iota.
  2: { intros H. apply Hplain in H as (Hm & Hst & Hne).
       split; [exact Hm |]. split; [exact Hst |].
       split; [intros; contradiction |].
       intros (h & token' & name & Hh & Htok & _). injection Hh as <-.
       unfold bearer_token in Htok. rewrite Hhead, Hl, Ht in Htok. discriminate. }
  assert (Htoken : bearer_token authHeader = Some token).
  { unfold bearer_token. rewrite Hhead, Hl, Ht. reflexivity. }
  destruct (jwt_verify token) as [name | userId] eqn:Hv.
  { intros H. apply Hcatch in H as (Hm & Hst & Hiff).
    split; [exact Hm |]. split; [exact Hst |]. split.
    - intros H5. apply Hiff in H5 as [Hn1 Hn2].
      exists authHeader, token, name. split; [reflexivity |]. split; [exact Htoken |].
      split; [left; exact Hv |]. split; assumption.
    - intros (h & token' & name' & Hh & Htok & Hthrown & Hn1 & Hn2).
      injection Hh as <-. rewrite Htoken in Htok. injection Htok as <-.
      destruct Hthrown as [Hv' | (userId & Hv' & _)]; rewrite Hv in Hv'; [| discriminate].
      injection Hv' as <-. apply Hiff. split; assumption. }
  destruct (findById userId) as [name | [user |]] eqn:Hf.
  { intros H. apply Hcatch in H as (Hm & Hst & Hiff).
    split; [exact Hm |]. split; [exact Hst |]. split.
    - intros H5. apply Hiff in H5 as [Hn1 Hn2].
      exists authHeader, token, name. split; [reflexivity |]. split; [exact Htoken |].
      split; [right; exists userId; split; [exact Hv | exact Hf] |]. split; assumption.
    - intros (h & token' & name' & Hh & Htok & Hthrown & Hn1 & Hn2).
      injection Hh as <-. rewrite Htoken in Htok. injection Htok as <-.
      destruct Hthrown as [Hv' | (userId' & Hv' & Hf')]; rewrite Hv in Hv'; [discriminate |].
      injection Hv' as <-. rewrite Hf in Hf'. injection Hf' as <-.
      apply Hiff. split; assumption. }
  - destruct (acc_isActive user); simpl negb; cbv iota; [discriminate |].
    intros H. apply Hplain in H as (Hm & Hst & Hne).
    split; [exact Hm |]. split; [exact Hst |].
    split; [intros; contradiction |].
    intros (h & token' & name' & Hh & Htok & Hthrown & _).
    injection Hh as <-. rewrite Htoken in Htok. injection Htok as <-.
    destruct Hthrown as [Hv' | (userId' & Hv' & Hf')]; rewrite Hv in Hv'; [discriminate |].
    injection Hv' as <-. rewrite Hf in Hf'. discriminate.
  - intros H. apply Hplain in H as (Hm & Hst & Hne).
    split; [exact Hm |]. split; [exact Hst |].
    split; [intros; contradiction |].
    intros (h & token' & name' & Hh & Htok & Hthrown & _).
    injection Hh as <-. rewrite Htoken in Htok. injection Htok as <-.
    destruct Hthrown as [Hv' | (userId' & Hv' & Hf')]; rewrite Hv in Hv'; [discriminate |].
    injection Hv' as <-. rewrite Hf in Hf'. discriminate.
Qed.

Lemma authenticate_refuses_with_401_or_500_witness :
  authenticate example_jwt_verify example_findById (Some "Bearer down")
               {| req_user := None; req_ip := Some "10.0.0.1"; req_connection := None |} =
  AuthRespond 500 (JObj [("success", JBool false); ("message", JStr "Authentication failed")])
              true /\
  exists name, example_findById (Some "ffffff") = inl name /\ name <> "TokenExpiredError".
Proof.
  split; [reflexivity |].
  destruct (authenticate_refuses_with_401_or_500
              example_jwt_verify example_findById (Some "Bearer down")
              {| req_user := None; req_ip := Some "10.0.0.1"; req_connection := None |}
              500 _ true eq_refl)
    as (_ & _ & Hiff).
  destruct (proj1 Hiff eq_refl) as (authHeader & token & name & Hh & Htok & Hthrown & _ & Hn).
  injection Hh as <-. injection Htok as <-.
  destruct Hthrown as [Hv | (userId & Hv & Hf)]; [discriminate |].
  injection Hv as <-. exists name. split; [exact Hf | exact Hn].
Defined.

(** ** [authenticate] before a limiter *)

Lemma rateLimiter_same_bucket (p : policy) (req req' : request) :
  billed (p_type p) req = billed (p_type p) req' ->
  limiter_type req = limiter_type req' ->
  rateLimiter p req = rateLimiter p req'.
Proof.
  intros Hb Ht. rewrite !rateLimiter_by_billed.
  unfold check_and_count, rate_headers, rejection. rewrite Hb, Ht. reflexivity.
Qed.

Lemma billed_with_user (type : string) (user : account) (req : request) :
  type <> "ip" -> billed type (with_user user req) = usable (Some (acc_id user)).
Proof.
  intros Hip. rewrite (billed_not_ip _ _ Hip).
  change (has_user (with_user user req)) with true. cbv iota.
  rewrite user_identifier_with_user. reflexivity.
Qed.

(** On a route with [authenticate] before a limiter whose strategy is not
    [ip], a request that [authenticate] lets through is billed against the
    id of the user found (an ObjectId in hexadecimal has 24 characters, so it
    is always usable), the limiter acts the same whatever address the request
    comes from, and its headers say [token]; an [ip] limiter on the same
    route still bills the address. *)
Theorem authenticated_caller_billed_by_account
        (jwt_verify : string -> string + option string)
        (findById : option string -> string + option account)
        (authorization : option string) (p : policy) (req req' : request) :
  p_type p <> "ip" ->
  authenticate jwt_verify findById authorization req = AuthNext req' ->
  exists user,
    billed (p_type p) req' = usable (Some (acc_id user)) /\
    (String.length (acc_id user) = 24%nat ->
     billed (p_type p) req' = Some (acc_id user)) /\
    limiter_type req' = "token" /\
    billed "ip" req' = billed "ip" req /\
    forall other other',
      authenticate jwt_verify findById authorization other = AuthNext other' ->
      rateLimiter p other' = rateLimiter p req'.
Proof.
  intros Hip H.
  apply authenticate_next in H
    as (authHeader & token & userId & user & -> & Htok & Hv & Hf & Ha & ->).
  exists user. split; [apply billed_with_user; exact Hip |].
  split.
  { intros Hlen. rewrite (billed_with_user _ _ _ Hip). unfold usable, truthy.
    destruct (acc_id user) as [| c s] eqn:Hid; [discriminate |].
    destruct (String.eqb (String c s) "unknown") eqn:Hu; [| reflexivity].
    apply String.eqb_eq in Hu. rewrite Hu in Hlen. discriminate. }
  split; [reflexivity |]. split; [reflexivity |].
  intros other other' H'.
  apply authenticate_next in H'
    as (authHeader' & token' & userId' & user' & Hh & Htok' & Hv' & Hf' & _ & ->).
  injection Hh as <-. rewrite Htok in Htok'. injection Htok' as <-.
  rewrite Hv in Hv'. injection Hv' as <-. rewrite Hf in Hf'. injection Hf' as <-.
  apply rateLimiter_same_bucket; [| reflexivity].
  rewrite !(billed_with_user _ _ _ Hip). reflexivity.
Qed.

Lemma authenticated_caller_billed_by_account_witness :
  let p := destructure {| windowMs := Some (60 * 1000); maxRequests := Some 60;
                          message := Some "Too many requests. Please slow down.";
                          skipSuccessfulRequests := None; skipFailedRequests := None;
                          type := Some "hybrid" |} in
  let home := {| req_user := None; req_ip := Some "203.0.113.7"; req_connection := None |} in
  let office := {| req_user := None; req_ip := Some "198.51.100.4"; req_connection := None |} in
  exists home' office',
    authenticate example_jwt_verify example_findById (Some "Bearer good") home = AuthNext home' /\
    authenticate example_jwt_verify example_findById (Some "Bearer good") office
    = AuthNext office' /\
    billed (p_type p) home' = Some "64f0c2" /\
    rateLimiter p office' = rateLimiter p home'.
Proof.
  intros p home office.
  destruct (authenticated_caller_billed_by_account
              example_jwt_verify example_findById (Some "Bearer good") p home _
              ltac:(discriminate) eq_refl)
    as (user & _ & _ & _ & _ & Hsame).
  eexists; eexists. split; [reflexivity |]. split; [reflexivity |].
  split; [reflexivity |]. exact (Hsame office _ eq_refl).
Defined.

(** ** [errorMiddleware] *)

Example prototype_name_not_copied :
  errorMiddleware {| err_name := None; err_code := None; err_statusCode := None;
                     err_message := "Cast to ObjectId failed"; err_errors := None |}
  = ErrorRespond 500 (JObj [("success", JBool false);
                            ("message", JStr "Cast to ObjectId failed")]).
Proof. reflexivity. Qed.

(** The three rewritings of [errorMiddleware] take precedence in the order
    written: an error with the own name [CastError] is answered 404 even when
    it also carries code 11000; code 11000 is answered 400 even when the
    error is a [ValidationError]; a [ValidationError] is answered 400 with
    the messages of [err.errors] joined by a comma and a space, and without
    [err.errors] nothing is answered and a TypeError goes to [next]; every
    other error is answered with its own message and its own status code
    (one that a response can carry), 500 standing in for a missing or zero
    one.  The body always has [success: false] and the status is never 0. *)
Theorem errorMiddleware_precedence (err : js_error) :
  let body message := JObj [("success", JBool false); ("message", JStr message)] in
  (name_is err "CastError" = true ->
   errorMiddleware err = ErrorRespond 404 (body "Resource not found")) /\
  (name_is err "CastError" = false -> err_code err = Some 11000 ->
   errorMiddleware err = ErrorRespond 400 (body "Duplicate field value entered")) /\
  (name_is err "ValidationError" = true -> err_code err <> Some 11000 ->
   errorMiddleware err =
   match err_errors err with
   | Some messages => ErrorRespond 400 (body (String.concat ", " messages))
   | None => NextTypeError
   end) /\
  (name_is err "CastError" = false -> name_is err "ValidationError" = false ->
   err_code err <> Some 11000 ->
   (forall s, err_statusCode err = Some s -> s = 0 \/ 100 <= s <= 999) ->
   errorMiddleware err =
   ErrorRespond (match err_statusCode err with
                 | Some s => if s =? 0 then 500 else s
                 | None => 500
                 end)
                (body (err_message err))) /\
  (forall status b,
      errorMiddleware err = ErrorRespond status b ->
      status <> 0 /\ exists message, b = body message).
Proof.
  intros body. unfold errorMiddleware, name_is, new_Error.
  destruct err as [name code statusCode message errors]. simpl.
  assert (Hcode : forall A (x y : A) (c : option Z),
             c <> Some 11000 ->
             match c with Some 11000 => x | _ => y end = y).
  { intros A x y [[| q | q] |] Hc; try reflexivity.
    do 14 (destruct q as [q | q |]; try reflexivity). contradiction. }
  split; [| split; [| split; [| split]]].
  - destruct name as [n |]; [| discriminate]. intros ->. reflexivity.
  - intros -> ->. reflexivity.
  - destruct name as [n |]; [| discriminate]. intros Hv Hc.
    apply String.eqb_eq in Hv as ->. simpl.
    rewrite (Hcode _ _ _ _ Hc). simpl. destruct errors; reflexivity.
  - intros Hcast Hval Hc _. rewrite Hcast.
    rewrite !(Hcode _ _ _ _ Hc). simpl. rewrite Hval.
    destruct statusCode as [[| s | s] |]; reflexivity.
  - intros status b.
    destruct (match name with Some m => String.eqb m "CastError" | None => false end).
    { simpl. intros H. injection H as <- <-. split; [discriminate | eexists; reflexivity]. }
    destruct (decide (code = Some 11000)) as [-> | Hc].
    { simpl. intros H. injection H as <- <-. split; [discriminate | eexists; reflexivity]. }
    rewrite !(Hcode _ _ _ _ Hc). simpl.
    destruct (match name with Some m => String.eqb m "ValidationError" | None => false end).
    { destruct errors; [| discriminate]. simpl.
      intros H. injection H as <- <-. split; [discriminate | eexists; reflexivity]. }
    destruct statusCode as [[| s | s] |]; intros H; injection H as <- <-;
      (split; [discriminate | eexists; reflexivity]).
Qed.

Lemma errorMiddleware_precedence_witness :
  errorMiddleware {| err_name := Some "CastError"; err_code := Some 11000;
                     err_statusCode := Some 409; err_message := "E11000 duplicate key";
                     err_errors := Some ["Name is required"] |}
  = ErrorRespond 404 (JObj [("success", JBool false); ("message", JStr "Resource not found")]) /\
  errorMiddleware {| err_name := Some "ValidationError"; err_code := None;
                     err_statusCode := None; err_message := "User validation failed";
                     err_errors := Some ["Name is required"; "Email is required"] |}
  = ErrorRespond 400 (JObj [("success", JBool false);
                            ("message", JStr "Name is required, Email is required")]) /\
  errorMiddleware {| err_name := None; err_code := None;
                     err_statusCode := Some 409; err_message := "User already exists";
                     err_errors := None |}
  = ErrorRespond 409 (JObj [("success", JBool false);
                            ("message", JStr "User already exists")]).
Proof.
  split; [| split].
  - apply (proj1 (errorMiddleware_precedence
                    {| err_name := Some "CastError"; err_code := Some 11000;
                       err_statusCode := Some 409; err_message := "E11000 duplicate key";
                       err_errors := Some ["Name is required"] |})).
    reflexivity.
  - apply (proj1 (proj2 (proj2 (errorMiddleware_precedence
                    {| err_name := Some "ValidationError"; err_code := None;
                       err_statusCode := None; err_message := "User validation failed";
                       err_errors := Some ["Name is required"; "Email is required"] |}))));
      [reflexivity | discriminate].
  - apply (proj1 (proj2 (proj2 (proj2 (errorMiddleware_precedence
                    {| err_name := None; err_code := None;
                       err_statusCode := Some 409; err_message := "User already exists";
                       err_errors := None |})))));
      [reflexivity | reflexivity | discriminate |].
    intros s Hs. injection Hs as <-. right. lia.
Defined.
